(** * mysqlbeat: the row-to-metric transformation of [beater/mysqlbeat.go]

    A shallow embedding of the beater (creation and the check of the
    queries, the polling loop, value typing, rate state, row keys, event
    assembly, query dispatch and the polling cycle) together with the
    properties of its behaviour.

    Go data is modelled as follows.
    - [string] is a byte string: Rocq's [string] of 8-bit [ascii].
    - [int64] is a [Z] with the wrap-around of [-] written out ([sub64]).
    - [float64] is a [spec_float] at precision 53 and [emax] 1024, that is
      IEEE 754 binary64, with the operations of [SpecFloat].
    - [common.MapStr] (a [map[string]interface{}]) is a [gmap string iface],
      where [iface] lists the dynamic types the beater stores.
    - [time.Time] is the reading of the monotonic clock in nanoseconds.
    - a run-time panic is the [Crash] outcome; Go's [error] is an
      [option string], [None] being [nil]. *)

From Stdlib Require Import ZArith QArith Qround Lia Lqa String Ascii.
From Stdlib Require Import Floats.SpecFloat.
From stdpp Require Import base option gmap strings list.

Local Open Scope string_scope.
Local Open Scope Z_scope.

(** ** Outcomes of Go code *)

(** Go's [error] interface value. *)
Definition error := option string.

(** The run-time panics this code can raise: an index out of range, an
    assignment to an entry of a [nil] map, and the panic of
    [time.NewTicker] on an interval that is not positive. *)
Inductive panic :=
| IndexOutOfRange (index : nat) (len : nat)
| NilMapAssignment
| NonPositiveInterval.

(** What a statement sequence does: fall through with a state of type [S],
    return a value of type [R] from the enclosing function, or panic. *)
Inductive ctl (R S : Type) :=
| Next (s : S)
| Return (r : R)
| Crash (p : panic).
Arguments Next {R S} s.
Arguments Return {R S} r.
Arguments Crash {R S} p.

(** Sequencing: [x ← c; k] runs [k] when [c] falls through. *)
#[export] Instance ctl_bind {R} : MBind (ctl R) :=
  fun A B (k : A -> ctl R B) (c : ctl R A) =>
    match c with
    | Next s => k s
    | Return r => Return r
    | Crash p => Crash p
    end.

(** The result of a function call: its return values, or a panic. *)
Inductive outcome (R : Type) :=
| Ok (r : R)
| Panics (p : panic).
Arguments Ok {R} r.
Arguments Panics {R} p.

(** [for i, a := range l { body }] with the loop state threaded through. *)
Fixpoint for_range {A S R} (body : S -> nat -> A -> ctl R S)
    (s : S) (i : nat) (l : list A) : ctl R S :=
  match l with
  | [] => Next s
  | a :: l' =>
      match body s i a with
      | Next s' => for_range body s' (Datatypes.S i) l'
      | Return r => Return r
      | Crash p => Crash p
      end
  end.

(** ** Unicode, as [strings] uses it *)

(** On a text with a byte above 127, [strings.ToUpper] is
    [strings.Map(unicode.ToUpper, s)], and [strings.TrimSpace] falls back to
    [strings.TrimFunc(_, unicode.IsSpace)] when it meets such a byte from
    the left and to [strings.TrimRightFunc(_, unicode.IsSpace)] when it
    meets one from the right; these functions belong to Go's library and
    are parameters. *)
Class Unicode := {
  unicode_ToUpper : string -> string;
  unicode_TrimSpace : string -> string;
  unicode_TrimRightSpace : string -> string
}.

(** ** Package [strings] *)

Module strings.

(** [strings.HasPrefix(s, prefix)]. *)
Definition HasPrefix (s prefix : string) : bool := String.prefix prefix s.

(** [strings.HasSuffix(s, suffix)]:
    [len(s) >= len(suffix) && s[len(s)-len(suffix):] == suffix]. *)
Definition HasSuffix (s suffix : string) : bool :=
  (String.length suffix <=? String.length s)%nat &&
  String.eqb
    (substring (String.length s - String.length suffix)
               (String.length suffix) s)
    suffix.

(** [strings.Index(s, substr)]: the first position at which [substr]
    occurs; [None] stands for Go's [-1]. *)
Fixpoint Index (s substr : string) : option nat :=
  if HasPrefix s substr then Some 0%nat
  else match s with
       | EmptyString => None
       | String _ s' => Datatypes.S <$> Index s' substr
       end.

(** [strings.Replace(s, old, new, 1)]: the first occurrence of [old] is
    replaced; with an empty [old] the text [new] is put in front. The
    beater calls [Replace] with [n = 1] only. *)
Definition Replace1 (s old new : string) : string :=
  if String.eqb old new then s
  else match Index s old with
       | None => s
       | Some j =>
           substring 0 j s ++ new ++
           substring (j + String.length old)
                     (String.length s - (j + String.length old)) s
       end.

(** Whether every byte of [s] is below [utf8.RuneSelf]. *)
Definition isASCII (s : string) : bool :=
  forallb (fun c => (N_of_ascii c <? 128)%N) (list_ascii_of_string s).

(** A lower-case ASCII letter becomes its capital ([c -= 'a' - 'A']). *)
Definition upper (c : ascii) : ascii :=
  if ((97 <=? N_of_ascii c) && (N_of_ascii c <=? 122))%N
  then ascii_of_N (N_of_ascii c - 32)
  else c.

(** [strings.ToUpper(s)]: byte by byte on an ASCII text. *)
Definition ToUpper `{Unicode} (s : string) : string :=
  if isASCII s
  then string_of_list_ascii (map upper (list_ascii_of_string s))
  else unicode_ToUpper s.

(** The table [asciiSpace]: tab, line feed, vertical tab, form feed,
    carriage return and space. *)
Definition asciiSpace (c : ascii) : bool :=
  let n := N_of_ascii c in
  ((9 <=? n) && (n <=? 13) || (n =? 32))%N.

(** One of the two loops of [TrimSpace]: ASCII spaces are passed over;
    the result tells whether the loop stopped at a byte above 127, and what
    is left. *)
Fixpoint skipSpace (l : list ascii) : bool * list ascii :=
  match l with
  | [] => (false, [])
  | c :: l' =>
      if (128 <=? N_of_ascii c)%N then (true, l)
      else if asciiSpace c then skipSpace l'
      else (false, l)
  end.

(** [strings.TrimSpace(s)]: the ASCII spaces at both ends are removed;
    when a byte above 127 is met, what is left then is handed to the
    Unicode-aware trimming. *)
Definition TrimSpace `{Unicode} (s : string) : string :=
  let '(wide, rest) := skipSpace (list_ascii_of_string s) in
  if wide then unicode_TrimSpace (string_of_list_ascii rest)
  else
    let '(wide, tser) := skipSpace (rev rest) in
    let trimmed := string_of_list_ascii (rev tser) in
    if wide then unicode_TrimRightSpace trimmed else trimmed.

(** [strings.ContainsAny(s, chars)] for ASCII [chars]: whether a byte of
    [s] is one of [chars]. *)
Definition ContainsAny (s chars : string) : bool :=
  existsb (fun c => existsb (Ascii.eqb c) (list_ascii_of_string chars))
          (list_ascii_of_string s).

End strings.

(** ** 64-bit integers *)

Definition min_int64 : Z := - 2 ^ 63.
Definition max_int64 : Z := 2 ^ 63 - 1.

(** Two's complement wrap-around of an integer into [int64]. *)
Definition wrap64 (z : Z) : Z := (z + 2 ^ 63) mod 2 ^ 64 - 2 ^ 63.

(** [a - b] on [int64]. *)
Definition sub64 (a b : Z) : Z := wrap64 (a - b).

(** ** [float64]: IEEE 754 binary64 *)

Module F64.

Definition prec : Z := 53.
Definition emax : Z := 1024.

Abbreviation float64 := spec_float.

(** The float nearest to [a * 2^e] (ties to even); the sign [s] is the
    one of a zero result. *)
Definition of_scaled (a e : Z) (s : bool) : float64 :=
  binary_normalize prec emax a e s.

(** [float64(z)] for an integer [z]. *)
Definition of_Z (z : Z) : float64 := of_scaled z 0 false.

Definition add : float64 -> float64 -> float64 := SFadd prec emax.
Definition sub : float64 -> float64 -> float64 := SFsub prec emax.
Definition div : float64 -> float64 -> float64 := SFdiv prec emax.

Definition is_finite (f : float64) : bool :=
  match f with
  | S754_zero _ | S754_finite _ _ _ => true
  | _ => false
  end.

(** The signed mantissa and the exponent of a finite float:
    its value is [mantissa f * 2 ^ exponent f]. *)
Definition mantissa (f : float64) : Z :=
  match f with
  | S754_finite s m _ => cond_Zopp s (Zpos m)
  | _ => 0
  end.

Definition exponent (f : float64) : Z :=
  match f with
  | S754_finite _ _ e => e
  | _ => 0
  end.

(** The value of a finite float as a rational. *)
Definition to_Q (f : float64) : Q :=
  if 0 <=? exponent f
  then inject_Z (mantissa f * 2 ^ exponent f)
  else Qmake (mantissa f) (2 ^ Z.to_pos (- exponent f))%positive.

(** IEEE comparison, by value: the mantissas are compared at the smaller
    of the two exponents. A NaN compares with nothing. *)
Definition compare (x y : float64) : option comparison :=
  match x, y with
  | S754_nan, _ | _, S754_nan => None
  | S754_infinity s1, S754_infinity s2 =>
      Some (match s1, s2 with
            | true, true | false, false => Eq
            | true, false => Lt
            | false, true => Gt
            end)
  | S754_infinity s, _ => Some (if s then Lt else Gt)
  | _, S754_infinity s => Some (if s then Gt else Lt)
  | _, _ =>
      let e0 := Z.min (exponent x) (exponent y) in
      Some (Z.compare (mantissa x * 2 ^ (exponent x - e0))
                      (mantissa y * 2 ^ (exponent y - e0)))
  end.

(** [x > y], [x >= y] and [x <= y] on [float64]. *)
Definition gt (x y : float64) : bool :=
  match compare x y with Some Gt => true | _ => false end.
Definition ge (x y : float64) : bool :=
  match compare x y with Some (Gt | Eq) => true | _ => false end.
Definition le (x y : float64) : bool :=
  match compare x y with Some (Lt | Eq) => true | _ => false end.

(** The integers below, above and towards zero of a finite float;
    [Z.shiftl a e] is [a * 2^e] rounded down, also for a negative [e]. *)
Definition floorZ (f : float64) : Z := Z.shiftl (mantissa f) (exponent f).
Definition ceilZ (f : float64) : Z := - Z.shiftl (- mantissa f) (exponent f).
Definition truncZ (f : float64) : Z :=
  if mantissa f <? 0 then ceilZ f else floorZ f.

(** [math.Floor] and [math.Ceil]: infinities, NaN and zeros are returned
    as they are, and so is a float with a non-negative exponent, which is
    an integer; a zero result keeps the sign of the argument. *)
Definition Floor (x : float64) : float64 :=
  match x with
  | S754_finite s _ e => if 0 <=? e then x else of_scaled (floorZ x) 0 s
  | _ => x
  end.

Definition Ceil (x : float64) : float64 :=
  match x with
  | S754_finite s _ e => if 0 <=? e then x else of_scaled (ceilZ x) 0 s
  | _ => x
  end.

(** [math.Modf]: the integer part and the fractional part, both with the
    sign of [f]; [frac = f - int] is exact, it is the part of the mantissa
    below the binary point. [Modf(±Inf) = (±Inf, NaN)]. *)
Definition Modf (f : float64) : float64 * float64 :=
  match f with
  | S754_nan => (S754_nan, S754_nan)
  | S754_infinity _ => (f, S754_nan)
  | S754_zero _ => (f, f)
  | S754_finite s m e =>
      if 0 <=? e then (f, S754_zero s)
      else
        let ip := truncZ f in
        (of_scaled ip 0 s, of_scaled (mantissa f - Z.shiftl ip (- e)) e s)
  end.

(** Whether the integer part of [f] is an [int64]. *)
Definition fits_int64 (f : float64) : bool :=
  is_finite f && (min_int64 <=? truncZ f) && (truncZ f <=? max_int64).

(** The constants [.5] and [1e9]. *)
Definition half : float64 := S754_finite false 4503599627370496 (-53).
Definition billion : float64 := Eval vm_compute in of_Z 1000000000.

End F64.

Abbreviation float64 := spec_float.

(** The conversion [int64(f)] of a float that is not representable is
    implementation-dependent in Go (amd64 gives [min_int64], arm64
    saturates); the choice of the platform is a parameter. *)
Class Arch := {
  int64_of_unrepresentable : float64 -> Z
}.

(** [int64(f)]: the fraction is discarded. *)
Definition int64_of_float `{Arch} (f : float64) : Z :=
  if F64.fits_int64 f then F64.truncZ f else int64_of_unrepresentable f.

(** ** Package [time] *)

(** A [time.Time] taken by [time.Now()]: the monotonic clock reading, in
    nanoseconds. A [time.Duration] is an [int64] count of nanoseconds. *)
Definition Time := Z.
Definition Duration := Z.

Module time.

Definition Second : Duration := 1000000000.

(** [t.Sub(u)]: the difference, saturated at the ends of [int64]. *)
Definition Sub (t u : Time) : Duration :=
  let d := wrap64 (t - u) in
  if (d <? 0) && (u <? t) then max_int64
  else if (0 <? d) && (t <? u) then min_int64
  else d.

(** [d.Seconds()]: [float64(sec) + float64(nsec)/1e9] with
    [sec := d / Second] and [nsec := d % Second] (truncated division). *)
Definition Seconds (d : Duration) : float64 :=
  let sec := Z.quot d Second in
  let nsec := Z.rem d Second in
  F64.add (F64.of_Z sec) (F64.div (F64.of_Z nsec) F64.billion).

End time.

(** ** Package [strconv], as the beater uses it *)

(** [strconv.ParseInt(s, base, bitSize)] and [strconv.ParseFloat(s, bitSize)]
    return a value and an error; the beater looks at the value only when the
    error is [nil]. The functions belong to Go's library and are parameters
    of the embedding; [GoStrconv] below is an instance. *)
Class Strconv := {
  ParseInt : string -> Z -> Z -> Z * error;
  ParseFloat : string -> Z -> float64 * error
}.

(** The value typer in the words of the specification (section 4.1):
    the integer parse is attempted first, then the float parse, else the
    value is the raw text. [typeColumn] below is what the code does. *)
Inductive typed :=
| TInteger (n : Z)
| TFloat (f : float64)
| TString (s : string).

Definition valueTyper `{Strconv} (raw : string) : typed :=
  match ParseInt raw 0 64 with
  | (n, None) => TInteger n
  | (_, Some _) =>
      match ParseFloat raw 64 with
      | (f, None) => TFloat f
      | (_, Some _) => TString raw
      end
  end.

(** Rounding half up in the words of the specification (section 4.2): a
    fractional part of one half or more rounds to the ceiling, a smaller one
    to the floor. [roundF2I] below is what the code does. *)
Definition round_half_up (x : Q) : Z :=
  if Qle_bool (1 # 2) (x - inject_Z (Qfloor x)) then Qceiling x
  else Qfloor x.

(** ** Package [database/sql]: the result cursor *)

(** [sql.RawBytes]: the text of a cell, [None] for SQL [NULL]. *)
Definition RawBytes := option string.

(** [string(col)] of a [RawBytes]: a [nil] slice is the empty string. *)
Definition string_of_raw (col : RawBytes) : string :=
  match col with
  | Some s => s
  | None => ""
  end.

(** [*sql.Rows]: the column names, the row [Next] has made current, the rows
    still to come, and whether the cursor is closed. *)
Record Rows := mkRows {
  rs_columns : list string;
  rs_lastcols : option (list RawBytes);
  rs_pending : list (list RawBytes);
  rs_closed : bool
}.

Module sql.

(** [rows.Next()]: makes the next row current and reports [true]; at the
    end of the result set the cursor is closed and [false] is reported. *)
Definition Next (rs : Rows) : Rows * bool :=
  if rs_closed rs then (rs, false)
  else match rs_pending rs with
       | r :: rest => (mkRows (rs_columns rs) (Some r) rest false, true)
       | [] => (mkRows (rs_columns rs) None [] true, false)
       end.

(** [rows.Scan(dest...)] with [n] destinations of type [*sql.RawBytes]:
    the cells of the current row. It fails on a closed cursor, before the
    first [Next], and when [n] is not the number of columns. *)
Definition Scan (rs : Rows) (n : nat) : list RawBytes + string :=
  if rs_closed rs then inr "sql: Rows are closed"
  else match rs_lastcols rs with
       | None => inr "sql: Scan called without calling Next"
       | Some cells =>
           if (length cells =? n)%nat then inl cells
           else inr "sql: wrong number of destination arguments in Scan"
       end.

(** [rows.Columns()]. *)
Definition Columns (rs : Rows) : list string + string :=
  if rs_closed rs then inr "sql: Rows are closed"
  else inl (rs_columns rs).

(** A cursor as [db.Query] returns it: open, before the first row. *)
Definition open (columns : list string) (rows : list (list RawBytes)) : Rows :=
  mkRows columns None rows false.

End sql.

(** [*sql.DB]: what [db.Query(queryStr)] answers. *)
Record DB := mkDB {
  db_Query : string -> Rows + string
}.

(** What is outside the program during one cycle: the answer of
    [sql.Open(driver, connString)] and the clock, [time_Now w i] being what
    [time.Now()] returns when query number [i] starts. *)
Record World := mkWorld {
  sql_Open : string -> string -> DB + string;
  time_Now : nat -> Time
}.

(** [for rows.Next() { body }]: one turn per row still to come; [todo] is
    [rs_pending rs] when the loop starts. *)
Fixpoint for_Next {S R} (body : S -> Rows -> ctl R S)
    (s : S) (rs : Rows) (todo : list (list RawBytes)) : ctl R S :=
  match todo with
  | [] => Next s
  | _ :: todo' =>
      let '(rs', more) := sql.Next rs in
      if more then
        match body s rs' with
        | Next s' => for_Next body s' rs' todo'
        | Return r => Return r
        | Crash p => Crash p
        end
      else Next s
  end.

(** ** The beater's data *)

(** The dynamic types of the values held in a [common.MapStr]
    ([map[string]interface{}]) by this program. *)
Inductive iface :=
| IString (s : string)
| IInt64 (n : Z)
| IFloat64 (f : float64)
| ITime (t : Time).

Abbreviation MapStr := (gmap string iface).

(** [config.Query] and [config.Config]. *)
Record Query := mkQuery {
  QType : string;
  SQL : string
}.

Record Config := mkConfig {
  Period : Duration;
  Hostname : string;
  Port : string;
  Username : string;
  Password : string;
  EncryptedPassword : string;
  Queries : list Query;
  DeltaWildcard : string;
  DeltaKeyWildcard : string
}.

(** [beat.Event]: the timestamp and the fields; [Fields] may be [nil]. *)
Record Event := mkEvent {
  Timestamp : Time;
  Fields : option MapStr
}.

(** [Mysqlbeat]: the configuration and the two maps of the rate state. The
    events handed to [bt.client.Publish] are collected by [beat]. *)
Record Mysqlbeat := mkMysqlbeat {
  config : Config;
  oldValues : MapStr;
  oldValuesAge : MapStr
}.

Definition set_oldValues (bt : Mysqlbeat) (k : string) (v : iface) : Mysqlbeat :=
  mkMysqlbeat (config bt) (<[k := v]> (oldValues bt)) (oldValuesAge bt).

Definition set_oldValuesAge (bt : Mysqlbeat) (k : string) (v : iface) : Mysqlbeat :=
  mkMysqlbeat (config bt) (oldValues bt) (<[k := v]> (oldValuesAge bt)).

(** [event.Fields[k] = v]: a panic when the map is [nil]. *)
Definition set_field {R} (event : Event) (k : string) (v : iface) : ctl R Event :=
  match Fields event with
  | Some m => Next (mkEvent (Timestamp event) (Some (<[k := v]> m)))
  | None => Crash NilMapAssignment
  end.

(** [len(event.Fields)]. *)
Definition len_fields (event : Event) : nat :=
  match Fields event with
  | Some m => size m
  | None => 0%nat
  end.

(** Query types and the special column name. *)
Definition queryTypeSingleRow : string := "single-row".
Definition queryTypeMultipleRows : string := "multiple-rows".
Definition queryTypeTwoColumns : string := "two-columns".
Definition queryTypeSlaveDelay : string := "show-slave-delay".

Definition columnNameSlaveDelay : string := "Seconds_Behind_Master".

(** Column types: [iota] counts the constants of the block, these are its
    sixth to eighth. *)
Definition columnTypeString : Z := 5.
Definition columnTypeInt : Z := 6.
Definition columnTypeFloat : Z := 7.

(** The dynamic value and the column type of a typed cell. *)
Definition iface_of (v : typed) : iface :=
  match v with
  | TInteger n => IInt64 n
  | TFloat f => IFloat64 f
  | TString s => IString s
  end.

Definition typeTag (v : typed) : Z :=
  match v with
  | TInteger _ => columnTypeInt
  | TFloat _ => columnTypeFloat
  | TString _ => columnTypeString
  end.

(** The error of [getKeyFromRow]. *)
Definition missingKey : string :=
  "query type multiple-rows requires at least one delta key column".

(** ** The beater *)

Section Beater.

Context {strconv_impl : Strconv} {arch_impl : Arch}.

(** [roundF2I]: a rounded [int64] from a [float64]. *)
Definition roundF2I (val roundOn : float64) : Z :=
  let digit := val in
  let '(_, div) := F64.Modf digit in
  let round :=
    if F64.ge div roundOn then F64.Ceil digit else F64.Floor digit in
  int64_of_float round.

(** [getKeyFromRow]: the values of the columns whose name ends with the
    delta key wildcard, concatenated; an error when there is none. *)
Definition getKeyFromRow (bt : Mysqlbeat) (values : list RawBytes)
    (columns : list string) : outcome (string * error) :=
  match
    for_range (R := Empty_set)
      (fun '(strKey, keyFound) i col =>
         match columns !! i with
         | None => Crash (IndexOutOfRange i (length columns))
         | Some name =>
             if strings.HasSuffix name (DeltaKeyWildcard (config bt))
             then Next (strKey ++ string_of_raw col, true)
             else Next (strKey, keyFound)
         end)
      ("", false) 0%nat values
  with
  | Next (strKey, keyFound) =>
      Ok (strKey,
          if keyFound then None else Some missingKey)
  | Return r => match r with end
  | Crash p => Panics p
  end.

(** The typing of a cell (lines 395-408 of [generateEventFromRow], the
    same at 246-259 of [appendRowToEvent]): the column type and the two
    parsed values. *)
Definition typeColumn (strColValue : string) : Z * Z * float64 :=
  let strColType := columnTypeString in
  let '(nColValue, err) := ParseInt strColValue 0 64 in
  let strColType :=
    match err with None => columnTypeInt | Some _ => strColType end in
  let '(fColValue, err) := ParseFloat strColValue 64 in
  let strColType :=
    match err with
    | None =>
        if strColType =? columnTypeString then columnTypeFloat
        else strColType
    | Some _ => strColType
    end in
  (strColType, nColValue, fColValue).

(** The rate state of a delta column (lines 429-491 of
    [generateEventFromRow], the same at 263-325 of [appendRowToEvent] with
    the column name as the key): the first value of a key is saved and
    nothing is added to the event; later values add the rate per second. *)
Definition observe {R} (bt : Mysqlbeat) (event : Event)
    (strKey strEventColName : string) (strColType : Z)
    (strColValue : string) (nColValue : Z) (fColValue : float64)
    (rowAge : Time) : ctl R (Mysqlbeat * Event) :=
  match oldValues bt !! strKey with
  | None =>
      let bt := set_oldValuesAge bt strKey (ITime rowAge) in
      if strColType =? columnTypeString then
        Next (set_oldValues bt strKey (IString strColValue), event)
      else if strColType =? columnTypeInt then
        Next (set_oldValues bt strKey (IInt64 nColValue), event)
      else if strColType =? columnTypeFloat then
        Next (set_oldValues bt strKey (IFloat64 fColValue), event)
      else Next (bt, event)
  | Some old =>
      match oldValuesAge bt !! strKey with
      | Some (ITime dtOldAge) =>
          let delta := time.Sub rowAge dtOldAge in
          if strColType =? columnTypeInt then
            let oldVal := match old with IInt64 n => n | _ => 0 end in
            let calcVal :=
              if oldVal <? nColValue then
                let devResult :=
                  F64.div (F64.of_Z (sub64 nColValue oldVal))
                          (time.Seconds delta) in
                roundF2I devResult F64.half
              else 0 in
            event ← set_field event strEventColName (IInt64 calcVal);
            let bt := set_oldValues bt strKey (IInt64 nColValue) in
            let bt := set_oldValuesAge bt strKey (ITime rowAge) in
            Next (bt, event)
          else if strColType =? columnTypeFloat then
            let oldVal :=
              match old with IFloat64 f => f | _ => S754_zero false end in
            let calcVal :=
              if F64.gt fColValue oldVal then
                F64.div (F64.sub fColValue oldVal) (time.Seconds delta)
              else S754_zero false in
            event ← set_field event strEventColName (IFloat64 calcVal);
            let bt := set_oldValues bt strKey (IFloat64 fColValue) in
            let bt := set_oldValuesAge bt strKey (ITime rowAge) in
            Next (bt, event)
          else
            event ← set_field event strEventColName (IString strColValue);
            Next (bt, event)
      | _ => Next (bt, event)
      end
  end.

(** A column that is not a delta column: the value is added as it is
    (lines 492-500, the same at 326-334). *)
Definition addAsIs {R} (event : Event) (strEventColName : string)
    (strColType : Z) (strColValue : string) (nColValue : Z)
    (fColValue : float64) : ctl R Event :=
  if strColType =? columnTypeString then
    set_field event strEventColName (IString strColValue)
  else if strColType =? columnTypeInt then
    set_field event strEventColName (IInt64 nColValue)
  else if strColType =? columnTypeFloat then
    set_field event strEventColName (IFloat64 fColValue)
  else Next event.

(** A delta cell: its typing followed by [observe], as both functions
    treat the value of a delta column. *)
Definition observeCell {R} (bt : Mysqlbeat) (event : Event)
    (strKey strEventColName strColValue : string) (rowAge : Time)
    : ctl R (Mysqlbeat * Event) :=
  let '(strColType, nColValue, fColValue) := typeColumn strColValue in
  observe bt event strKey strEventColName strColType strColValue
          nColValue fColValue rowAge.

(** [generateEmptyEvent]: the result is a pointer to a fresh event, which
    is never [nil]; it is modelled by the event itself. *)
Definition generateEmptyEvent (queryType : string) (rowAge : Time)
    : Event * error :=
  let event :=
    mkEvent rowAge (Some {[ "type" := IString queryType ]}) in
  (event, None).

(** The name of a column in the event (lines 385-393): the delta key
    wildcard is removed, the delta wildcard becomes [_PERSECOND]. *)
Definition eventColumnName (bt : Mysqlbeat) (strColName : string) : string :=
  let strEventColName := strColName in
  if strings.HasSuffix strColName (DeltaKeyWildcard (config bt)) then
    strings.Replace1 strColName (DeltaKeyWildcard (config bt)) ""
  else if strings.HasSuffix strColName (DeltaWildcard (config bt)) then
    strings.Replace1 strColName (DeltaWildcard (config bt)) "_PERSECOND"
  else strEventColName.

(** The body of the loop over the columns in [generateEventFromRow]
    (lines 374-501), for column [i] with cell [col]. *)
Definition generateEventFromRow_column (values : list RawBytes)
    (columns : list string) (queryType : string) (rowAge : Time)
    (st : Mysqlbeat * Event) (i : nat) (col : RawBytes)
    : ctl (Mysqlbeat * (option Event * error)) (Mysqlbeat * Event) :=
  let '(bt, event) := st in
  match columns !! i with
  | None => Crash (IndexOutOfRange i (length columns))
  | Some strColName =>
      let strColValue := string_of_raw col in
      if String.eqb queryType queryTypeSlaveDelay
         && negb (String.eqb strColName columnNameSlaveDelay)
      then Next (bt, event)
      else
        let strEventColName := eventColumnName bt strColName in
        let '(strColType, nColValue, fColValue) := typeColumn strColValue in
        if (String.eqb queryType queryTypeSingleRow
            || String.eqb queryType queryTypeMultipleRows)
           && strings.HasSuffix strColName (DeltaWildcard (config bt))
        then
          strKey ←
            (if String.eqb queryType queryTypeSingleRow then
               Next strColName
             else if String.eqb queryType queryTypeMultipleRows then
               match getKeyFromRow bt values columns with
               | Panics p => Crash p
               | Ok (_, Some err) => Return (bt, (None, Some err))
               | Ok (strKey, None) => Next (strKey ++ strColName)
               end
             else Next "");
          observe bt event strKey strEventColName strColType strColValue
                  nColValue fColValue rowAge
        else
          event ← addAsIs event strEventColName strColType strColValue
                          nColValue fColValue;
          Next (bt, event)
  end.

(** [generateEventFromRow]: a new event from the current row; the event
    is [nil] when an error is returned. *)
Definition generateEventFromRow (bt : Mysqlbeat) (row : Rows)
    (columns : list string) (queryType : string) (rowAge : Time)
    : outcome (Mysqlbeat * (option Event * error)) :=
  match generateEmptyEvent queryType rowAge with
  | (_, Some err) => Ok (bt, (None, Some err))
  | (event, None) =>
      match sql.Scan row (length columns) with
      | inr err => Ok (bt, (None, Some err))
      | inl values =>
          match
            for_range
              (generateEventFromRow_column values columns queryType rowAge)
              (bt, event) 0%nat values
          with
          | Crash p => Panics p
          | Return r => Ok r
          | Next (bt, event) =>
              let event :=
                if (len_fields event =? 1)%nat
                then mkEvent (Timestamp event) None
                else event in
              Ok (bt, (Some event, None))
          end
      end
  end.

(** [appendRowToEvent]: the current row of a two-columns query, the
    name in the first cell and the value in the second, is added to the
    event. The result is the event as the pointer [event] then shows it,
    and the error. *)
Definition appendRowToEvent (bt : Mysqlbeat) (event : Event) (row : Rows)
    (columns : list string) (rowAge : Time)
    : outcome (Mysqlbeat * Event * error) :=
  match sql.Scan row (length columns) with
  | inr err => Ok (bt, event, Some err)
  | inl values =>
      match values !! 0%nat with
      | None => Panics (IndexOutOfRange 0 (length values))
      | Some v0 =>
          let strColName := string_of_raw v0 in
          match values !! 1%nat with
          | None => Panics (IndexOutOfRange 1 (length values))
          | Some v1 =>
              let strColValue := string_of_raw v1 in
              let strEventColName :=
                strings.Replace1 strColName (DeltaWildcard (config bt))
                                 "_PERSECOND" in
              let '(strColType, nColValue, fColValue) :=
                typeColumn strColValue in
              match
                (if strings.HasSuffix strColName (DeltaWildcard (config bt))
                 then
                   observe (R := Empty_set) bt event strColName
                     strEventColName strColType strColValue nColValue
                     fColValue rowAge
                 else
                   event ← addAsIs event strEventColName strColType
                                   strColValue nColValue fColValue;
                   Next (bt, event))
              with
              | Next (bt, event) => Ok (bt, event, None)
              | Return r => match r with end
              | Crash p => Panics p
              end
          end
      end
  end.

(** [iterateQuery]: the events of one query. [now] is what [time.Now()]
    returns when the query starts. *)
Definition iterateQuery (bt : Mysqlbeat) (now : Time) (db : DB) (i : nat)
    (queryType queryStr : string)
    : outcome (Mysqlbeat * (list Event * error)) :=
  let dtNow := now in
  match db_Query db queryStr with
  | inr err => Ok (bt, ([], Some err))
  | inl rows =>
      match sql.Columns rows with
      | inr err => Ok (bt, ([], Some err))
      | inl columns =>
          let events : list Event := [] in
          if String.eqb queryType queryTypeSingleRow
             || String.eqb queryType queryTypeSlaveDelay
          then
            let '(rows, _) := sql.Next rows in
            match generateEventFromRow bt rows columns queryType dtNow with
            | Panics p => Panics p
            | Ok (bt, (event, err)) =>
                let events :=
                  match event with
                  | Some event => (events ++ [event])%list
                  | None => events
                  end in
                Ok (bt, (events, err))
            end
          else if String.eqb queryType queryTypeMultipleRows then
            match
              for_Next
                (fun '(bt, events) rows =>
                   match
                     generateEventFromRow bt rows columns queryType dtNow
                   with
                   | Panics p => Crash p
                   | Ok (bt, (_, Some err)) =>
                       Return (bt, (events, Some err))
                   | Ok (bt, (Some event, None)) =>
                       Next (bt, (events ++ [event])%list)
                   | Ok (bt, (None, None)) => Next (bt, events)
                   end)
                (bt, events) rows (rs_pending rows)
            with
            | Crash p => Panics p
            | Return r => Ok r
            | Next (bt, events) => Ok (bt, (events, None))
            end
          else if String.eqb queryType queryTypeTwoColumns then
            match generateEmptyEvent queryType dtNow with
            | (_, Some err) => Ok (bt, (events, Some err))
            | (event, None) =>
                match
                  for_Next
                    (fun '(bt, event) rows =>
                       match
                         appendRowToEvent bt event rows columns dtNow
                       with
                       | Panics p => Crash p
                       | Ok (bt, _, Some err) =>
                           Return (bt, (events, Some err))
                       | Ok (bt, event, None) => Next (bt, event)
                       end)
                    (bt, event) rows (rs_pending rows)
                with
                | Crash p => Panics p
                | Return r => Ok r
                | Next (bt, event) => Ok (bt, ((events ++ [event])%list, None))
                end
            end
          else
            Ok (bt, (events, Some ("unknown query type: " ++ queryType)))
      end
  end.

(** The body of the loop over the queries in [beat]: the events of
    query [i] are published, an error ends the cycle. *)
Definition beat_query (w : World) (db : DB)
    (st : Mysqlbeat * list Event) (i : nat) (query : Query)
    : ctl (Mysqlbeat * list Event * error) (Mysqlbeat * list Event) :=
  let '(bt, published) := st in
  match iterateQuery bt (time_Now w i) db i (QType query) (SQL query) with
  | Panics p => Crash p
  | Ok (bt, (_, Some err)) => Return (bt, published, Some err)
  | Ok (bt, (events, None)) => Next (bt, (published ++ events)%list)
  end.

(** [beat]: one cycle. The result holds the events handed to
    [bt.client.Publish], in order, and the error of the cycle. *)
Definition beat (bt : Mysqlbeat) (w : World)
    : outcome (Mysqlbeat * list Event * error) :=
  let connString :=
    Username (config bt) ++ ":" ++ Password (config bt) ++ "@tcp(" ++
    Hostname (config bt) ++ ":" ++ Port (config bt) ++ ")/" in
  match sql_Open w "mysql" connString with
  | inr err => Ok (bt, [], Some err)
  | inl db =>
      match
        for_range (beat_query w db) (bt, []) 0%nat (Queries (config bt))
      with
      | Crash p => Panics p
      | Return r => Ok r
      | Next (bt, published) => Ok (bt, published, None)
      end
  end.

End Beater.

(** ** Creation and the polling loop *)

(** [config.DefaultConfig]. *)
Definition DefaultConfig : Config :=
  mkConfig (1 * time.Second) "" "" "" "" "" [] "" "".

(** [*common.Config]: what [cfg.Unpack(&c)] makes of the configuration [c]
    it is handed, or its error. *)
Record commonConfig := mkCommonConfig {
  Unpack : Config -> Config + string
}.

(** The test on a query's type in [New]. *)
Definition knownType (query : Query) : bool :=
  String.eqb (QType query) queryTypeSingleRow
  || String.eqb (QType query) queryTypeMultipleRows
  || String.eqb (QType query) queryTypeTwoColumns
  || String.eqb (QType query) queryTypeSlaveDelay.

(** The test on a query's text in [New]: a query is clean when, in
    capitals and trimmed, it starts with [SELECT] or [SHOW] and holds no
    [;]; this is the negation. *)
Definition unsafeQuery `{Unicode} (query : Query) : bool :=
  let strCleanQuery := strings.TrimSpace (strings.ToUpper (SQL query)) in
  negb (strings.HasPrefix strCleanQuery "SELECT")
  && negb (strings.HasPrefix strCleanQuery "SHOW")
  || strings.ContainsAny strCleanQuery ";".

Definition errNoQueries : string := "there are no queries to execute".
Definition errUnsafe : string :=
  "only SELECT/SHOW queries are allowed (the char ; is forbidden)".

(** The body of the loop over the queries in [New]: a query that is not
    clean clears [safeQueries], a query of an unknown type ends [New]. *)
Definition New_query `{Unicode} (safeQueries : bool) (i : nat)
    (query : Query) : ctl (option Mysqlbeat * error) bool :=
  let safeQueries := if unsafeQuery query then false else safeQueries in
  if knownType query then Next safeQueries
  else Return (None, Some ("unknown query type: " ++ QType query)).

(** [New]: an instance of the beater from the configuration, or an error.
    The maps of the rate state are empty. *)
Definition New `{Unicode} (cfg : commonConfig)
    : outcome (option Mysqlbeat * error) :=
  let c := DefaultConfig in
  match Unpack cfg c with
  | inr err => Ok (None, Some ("error reading config file: " ++ err))
  | inl c =>
      if (length (Queries c) <? 1)%nat then Ok (None, Some errNoQueries)
      else
        let safeQueries := true in
        match for_range New_query safeQueries 0%nat (Queries c) with
        | Crash p => Panics p
        | Return r => Ok r
        | Next safeQueries =>
            if negb safeQueries then Ok (None, Some errUnsafe)
            else Ok (Some (mkMysqlbeat c ∅ ∅), None)
        end
  end.

Section Run.

Context {strconv_impl : Strconv} {arch_impl : Arch}.

(** The loop of [Run]: [ticks] are the worlds of the ticks that arrive
    before [bt.done] is closed, one cycle each; an error of a cycle ends
    the loop, and so does the closing of [bt.done] after the last tick.
    The result holds all the events handed to the publisher. *)
Fixpoint Run_loop (bt : Mysqlbeat) (published : list Event)
    (ticks : list World) : outcome (Mysqlbeat * list Event * error) :=
  match ticks with
  | [] => Ok (bt, published, None)
  | w :: ticks' =>
      match beat bt w with
      | Panics p => Panics p
      | Ok (bt, events, Some err) =>
          Ok (bt, (published ++ events)%list, Some err)
      | Ok (bt, events, None) =>
          Run_loop bt (published ++ events)%list ticks'
      end
  end.

(** [Run]: [connect] is the error of [b.Publisher.Connect()]. After the
    connection [time.NewTicker(bt.config.Period)] panics (non-positive
    interval for NewTicker) when the period is not positive. *)
Definition Run (bt : Mysqlbeat) (connect : error) (ticks : list World)
    : outcome (Mysqlbeat * list Event * error) :=
  match connect with
  | Some err => Ok (bt, [], Some err)
  | None =>
      if Period (config bt) <=? 0 then Panics NonPositiveInterval
      else Run_loop bt [] ticks
  end.

End Run.

(** The row key in closed form: the cells under the columns that end with
    the delta key wildcard, one after the other. *)
Fixpoint rowKey (wildcard : string) (columns : list string)
    (values : list RawBytes) : string :=
  match columns, values with
  | name :: columns', col :: values' =>
      (if strings.HasSuffix name wildcard then string_of_raw col else "")
      ++ rowKey wildcard columns' values'
  | _, _ => ""
  end.

(** An instance of [Unicode] for texts in ASCII, on which the Unicode
    paths are not taken. *)
#[export] Instance ascii_texts : Unicode := {|
  unicode_ToUpper s := s;
  unicode_TrimSpace s := s;
  unicode_TrimRightSpace s := s
|}.

(** ** Predicates on runs *)

(** What holds of the result of a statement sequence. *)
Definition ctl_holds {S R} (P : S -> Prop) (Q : R -> Prop) (c : ctl R S)
    : Prop :=
  match c with
  | Next s => P s
  | Return r => Q r
  | Crash _ => True
  end.

(** Every saved value has an age. *)
Definition rate_state_wf (bt : Mysqlbeat) : Prop :=
  forall k, is_Some (oldValues bt !! k) ->
            exists t, oldValuesAge bt !! k = Some (ITime t).

(** [bt'] comes after [bt]: the configuration is the same and the rate
    state is still well formed. *)
Definition evolves (bt bt' : Mysqlbeat) : Prop :=
  config bt' = config bt /\ (rate_state_wf bt -> rate_state_wf bt').

(** ** An instance of [strconv] and of the platform *)

(** [GoStrconv.ParseInt] follows [strconv.ParseInt(s, 0, 64)]: a sign, the
    base prefixes [0b], [0o], [0x] and [0], digit separators, and the range
    of [int64]. [GoStrconv.ParseFloat] covers the decimal syntax of
    [strconv.ParseFloat(s, 64)] (sign, digits, point, decimal exponent) and
    the words [inf], [infinity] and [nan], with correct rounding; on a
    hexadecimal float and on digit separators it reports a syntax error.
    The properties of the beater are proved for every [Strconv]; this
    instance serves to run it. *)
Module GoStrconv.

Definition byte (c : ascii) : Z := Z.of_N (N_of_ascii c).

(** [lower(c)] is [c | ('x' - 'X')]. *)
Definition lower (c : ascii) : Z := Z.lor (byte c) 32.

Inductive numError := ErrSyntax | ErrRange.

Definition message (e : numError) : string :=
  match e with
  | ErrSyntax => "invalid syntax"
  | ErrRange => "value out of range"
  end.

Definition maxUint64 : Z := 2 ^ 64 - 1.

(** The digit loop of [ParseUint]. *)
Fixpoint parseDigits (base : Z) (s : string) (n : Z) (underscores : bool)
    : Z * bool * option numError :=
  match s with
  | EmptyString => (n, underscores, None)
  | String c s' =>
      if byte c =? 95 then parseDigits base s' n true
      else
        let d :=
          if (48 <=? byte c) && (byte c <=? 57) then Some (byte c - 48)
          else if (97 <=? lower c) && (lower c <=? 122)
               then Some (lower c - 97 + 10)
               else None in
        match d with
        | None => (0, underscores, Some ErrSyntax)
        | Some d =>
            if base <=? d then (0, underscores, Some ErrSyntax)
            else if maxUint64 / base + 1 <=? n
                 then (maxUint64, underscores, Some ErrRange)
                 else
                   let n1 := n * base + d in
                   if maxUint64 <? n1
                   then (maxUint64, underscores, Some ErrRange)
                   else parseDigits base s' n1 underscores
        end
  end.

(** The loop of [underscoreOK]; [saw] is the kind of the last character:
    a digit or base prefix ([48]), an underscore ([95]), something else
    ([33]) or the beginning ([94]). *)
Fixpoint underscoreLoop (hex : bool) (s : string) (saw : Z) : bool :=
  match s with
  | EmptyString => negb (saw =? 95)
  | String c s' =>
      if (48 <=? byte c) && (byte c <=? 57)
         || hex && (97 <=? lower c) && (lower c <=? 102)
      then underscoreLoop hex s' 48
      else if byte c =? 95 then
        if negb (saw =? 48) then false else underscoreLoop hex s' 95
      else if saw =? 95 then false
      else underscoreLoop hex s' 33
  end.

Definition isBasePrefix (c : ascii) : bool :=
  (lower c =? 98) || (lower c =? 111) || (lower c =? 120).

Definition underscoreOK (s : string) : bool :=
  let s :=
    match s with
    | String c s' => if (byte c =? 45) || (byte c =? 43) then s' else s
    | EmptyString => s
    end in
  match s with
  | String c0 (String c1 rest) =>
      if (byte c0 =? 48) && isBasePrefix c1
      then underscoreLoop (lower c1 =? 120) rest 48
      else underscoreLoop false s 94
  | _ => underscoreLoop false s 94
  end.

(** [ParseUint(s, 0, 64)]. *)
Definition ParseUint (s : string) : Z * option numError :=
  match s with
  | EmptyString => (0, Some ErrSyntax)
  | String c0 s1 =>
      let '(base, digits) :=
        if byte c0 =? 48 then
          match s1 with
          | String c1 (String c2 s3) =>
              if lower c1 =? 98 then (2, String c2 s3)
              else if lower c1 =? 111 then (8, String c2 s3)
              else if lower c1 =? 120 then (16, String c2 s3)
              else (8, s1)
          | _ => (8, s1)
          end
        else (10, s) in
      let '(n, underscores, err) := parseDigits base digits 0 false in
      match err with
      | Some e => (n, Some e)
      | None =>
          if underscores && negb (underscoreOK s) then (0, Some ErrSyntax)
          else (n, None)
      end
  end.

(** [ParseInt(s, 0, 64)]. *)
Definition ParseInt64 (s : string) : Z * option numError :=
  match s with
  | EmptyString => (0, Some ErrSyntax)
  | String c0 s1 =>
      let neg := byte c0 =? 45 in
      let s := if (byte c0 =? 43) || neg then s1 else s in
      match ParseUint s with
      | (_, Some ErrSyntax) => (0, Some ErrSyntax)
      | (un, _) =>
          if negb neg && (2 ^ 63 <=? un) then (2 ^ 63 - 1, Some ErrRange)
          else if neg && (2 ^ 63 <? un) then (- 2 ^ 63, Some ErrRange)
          else (if neg then - un else un, None)
      end
  end.

(** Decimal digits at the head of [s]: their value appended to [acc],
    their number added to [count], and the rest of the text. *)
Fixpoint readDigits (s : string) (acc : Z) (count : Z) : Z * Z * string :=
  match s with
  | String c s' =>
      if (48 <=? byte c) && (byte c <=? 57)
      then readDigits s' (acc * 10 + (byte c - 48)) (count + 1)
      else (acc, count, s)
  | EmptyString => (acc, count, s)
  end.

Fixpoint lowerString (s : string) : string :=
  match s with
  | EmptyString => EmptyString
  | String c s' =>
      String (if (65 <=? byte c) && (byte c <=? 90)
              then ascii_of_N (Z.to_N (byte c + 32)) else c)
             (lowerString s')
  end.

(** The float nearest to [(-1)^neg * m * 10^dexp]. *)
Definition decimalToFloat (neg : bool) (m : Z) (dexp : Z) : float64 :=
  match m with
  | Zpos p =>
      if 0 <=? dexp
      then F64.of_scaled (cond_Zopp neg (m * 10 ^ dexp)) 0 neg
      else F64.div (S754_finite neg p 0)
                   (S754_finite false (Z.to_pos (10 ^ (- dexp))) 0)
  | _ => S754_zero neg
  end.

(** The optional decimal exponent: its value and whether the text ends
    well. *)
Definition readExponent (s : string) : option Z :=
  match s with
  | EmptyString => Some 0
  | String c s1 =>
      if lower c =? 101 then
        let '(esign, s2) :=
          match s1 with
          | String c1 s2 =>
              if byte c1 =? 43 then (1, s2)
              else if byte c1 =? 45 then (-1, s2)
              else (1, s1)
          | EmptyString => (1, s1)
          end in
        match readDigits s2 0 0 with
        | (e, n, EmptyString) => if 0 <? n then Some (esign * e) else None
        | _ => None
        end
      else None
  end.

(** [ParseFloat(s, 64)] on the decimal syntax. *)
Definition ParseFloat64 (s : string) : float64 * option numError :=
  match s with
  | EmptyString => (S754_zero false, Some ErrSyntax)
  | String c0 s1 =>
      let neg := byte c0 =? 45 in
      let signed := (byte c0 =? 43) || neg in
      let body := if signed then s1 else s in
      let word := lowerString body in
      if String.eqb word "inf" || String.eqb word "infinity"
      then (S754_infinity neg, None)
      else if negb signed && String.eqb word "nan" then (S754_nan, None)
      else
        let '(ip, ni, rest) := readDigits body 0 0 in
        let '(m, nf, rest) :=
          match rest with
          | String c rest' =>
              if byte c =? 46 then readDigits rest' ip 0 else (ip, 0, rest)
          | EmptyString => (ip, 0, rest)
          end in
        if ni + nf =? 0 then (S754_zero false, Some ErrSyntax)
        else
          match readExponent rest with
          | None => (S754_zero false, Some ErrSyntax)
          | Some e =>
              let f := decimalToFloat neg m (e - nf) in
              if F64.is_finite f then (f, None) else (f, Some ErrRange)
          end
  end.

End GoStrconv.

Definition error_of (e : option GoStrconv.numError) : error :=
  GoStrconv.message <$> e.

#[export] Instance go_strconv : Strconv := {|
  ParseInt s _ _ :=
    let '(n, e) := GoStrconv.ParseInt64 s in (n, error_of e);
  ParseFloat s _ :=
    let '(f, e) := GoStrconv.ParseFloat64 s in (f, error_of e)
|}.

(** On amd64 a float that is not representable converts to [min_int64]. *)
#[export] Instance amd64 : Arch := {|
  int64_of_unrepresentable _ := min_int64
|}.

(** ** Sample data *)

Module Sample.

(** A configuration with the markers [_delta] and [_key]. *)
Definition cfg (queries : list Query) : Config :=
  mkConfig 10000000000 "127.0.0.1" "3306" "root" "" "" queries
           "_delta" "_key".

(** The beater as [New] leaves it: nothing saved. *)
Definition fresh (queries : list Query) : Mysqlbeat :=
  mkMysqlbeat (cfg queries) ∅ ∅.

(** The beater after [Queries_delta] was seen with value [v] at time 0. *)
Definition tracked (v : iface) : Mysqlbeat :=
  mkMysqlbeat (cfg []) {[ "Queries_delta" := v ]}
              {[ "Queries_delta" := ITime 0 ]}.

(** An event with its type only. *)
Definition blank (queryType : string) (t : Time) : Event :=
  mkEvent t (Some {[ "type" := IString queryType ]}).

(** A database that answers the listed queries. *)
Fixpoint answer (answers : list (string * (list string * list (list RawBytes))))
    (queryStr : string) : Rows + string :=
  match answers with
  | [] => inr "Error 1064: You have an error in your SQL syntax"
  | (q, (columns, rows)) :: answers' =>
      if String.eqb q queryStr then inl (sql.open columns rows)
      else answer answers' queryStr
  end.

Definition db (answers : list (string * (list string * list (list RawBytes))))
    : DB :=
  mkDB (answer answers).

(** A world in which the connection succeeds and query [i] starts
    [i] milliseconds after [start]. *)
Definition world (d : DB) (start : Time) : World :=
  mkWorld (fun _ _ => inl d) (fun i => start + 1000000 * Z.of_nat i).

(** The queries and answers of the runs below. *)
Definition threads : Query := mkQuery queryTypeSingleRow "SELECT threads".
Definition hits : Query := mkQuery queryTypeMultipleRows "SELECT hits".
Definition counter : Query := mkQuery queryTypeSingleRow "SELECT counter".
Definition nothing : Query := mkQuery queryTypeSingleRow "SELECT nothing".

Definition answers : list (string * (list string * list (list RawBytes))) :=
  [ ("SELECT threads", (["Threads_running"], [[Some "5"]]));
    ("SELECT hits", (["name"; "hits_delta"], [[Some "x"; Some "1"]]));
    ("SELECT counter", (["Queries_delta"], [[Some "100"]]));
    ("SELECT nothing", (["Threads_running"], []));
    ("SELECT plain", (["name"; "hits"], [[Some "x"; Some "1"]]));
    ("SELECT twice",
     (["host_key"; "hits_delta"],
      [[Some "a"; Some "1"]; [Some "a"; Some "2"]]));
    ("SHOW SLAVE STATUS",
     (["Seconds_Behind_Master"; "Other_Column"], [[Some "3"; Some "x"]])) ].

(** The status query of the specification's scenario, and its answers in
    two cycles ten seconds apart. *)
Definition status : Query := mkQuery queryTypeSingleRow "SELECT status".

Definition status_answers (queries : string)
    : list (string * (list string * list (list RawBytes))) :=
  [ ("SELECT status",
     (["Threads_running"; "Queries_delta"], [[Some "5"; Some queries]])) ].

(** A two-columns query and its answer, with and without rows. *)
Definition variables : Query := mkQuery queryTypeTwoColumns "SHOW VARIABLES".

Definition variables_answers (rows : list (list RawBytes))
    : list (string * (list string * list (list RawBytes))) :=
  [ ("SHOW VARIABLES", (["Variable_name"; "Value"], rows)) ].

(** The answer of the counter query in a later cycle. *)
Definition counter_answers (queries : string)
    : list (string * (list string * list (list RawBytes))) :=
  [ ("SELECT counter", (["Queries_delta"], [[Some queries]])) ].

(** A configuration file that sets the connection, the queries and the
    markers, and leaves the period at its default. *)
Definition file (queries : list Query) : commonConfig :=
  mkCommonConfig
    (fun c => inl (mkConfig (Period c) "127.0.0.1" "3306" "root" "" ""
                            queries "_delta" "_key")).

(** A world in which the connection fails. *)
Definition unreachable : World :=
  mkWorld (fun _ _ => inr "dial tcp 127.0.0.1:3306: connection refused")
          (fun _ => 0).

End Sample.

(** * Properties *)

(** ** [float64]: exact results *)

Lemma digits2_pos_log2 p : Zpos (digits2_pos p) = Z.log2 (Zpos p) + 1.
Proof.
  assert (Hs : forall q, digits2_pos q = Pos.size q).
  { induction q; simpl; congruence. }
  destruct p; simpl; rewrite ?Hs; lia.
Qed.

Lemma digits2_pos_iter_xO p d :
  Zpos (digits2_pos (Pos.iter xO p d)) = Zpos (digits2_pos p) + Zpos d.
Proof.
  induction d using Pos.peano_ind.
  - simpl. lia.
  - rewrite Pos.iter_succ. simpl digits2_pos. lia.
Qed.

Lemma Zpos_iter_xO p d : Zpos (Pos.iter xO p d) = Zpos p * 2 ^ Zpos d.
Proof.
  induction d using Pos.peano_ind.
  - simpl. lia.
  - rewrite Pos.iter_succ, Pos2Z.inj_xO, IHd, Pos2Z.inj_succ, Z.pow_succ_r; lia.
Qed.

Lemma binary_round_exact s p e :
  Zpos (digits2_pos p) <= 53 -> -1074 <= e -> Zpos (digits2_pos p) + e <= 1024 ->
  exists d, 0 <= d /\
    binary_round F64.prec F64.emax s p e =
      S754_finite s (Z.to_pos (Zpos p * 2 ^ d)) (e - d).
Proof.
  intros Hd He Hmax.
  unfold binary_round, shl_align.
  set (e' := fexp F64.prec F64.emax (Z.pos (digits2_pos p) + e)).
  assert (He' : e' = Z.max (Zpos (digits2_pos p) + e - 53) (-1074)) by reflexivity.
  clearbody e'.
  assert (Hround : forall mz, fexp F64.prec F64.emax (Zpos (digits2_pos mz) + e') = e' ->
      binary_round_aux F64.prec F64.emax s (Zpos mz) e' loc_Exact = S754_finite s mz e').
  { intros mz Hc. unfold binary_round_aux, shr_fexp. simpl Zdigits2.
    rewrite Hc, Z.sub_diag. simpl. rewrite Hc, Z.sub_diag. simpl.
    replace (e' <=? F64.emax - F64.prec) with true; [reflexivity|].
    symmetry. apply Z.leb_le. unfold F64.emax, F64.prec. lia. }
  destruct (e' - e) as [|q|q] eqn:Hq.
  - exists 0. split; [lia|]. assert (e = e') by lia. subst e.
    rewrite Hround.
    + f_equal; [|lia]. rewrite Z.mul_1_r. reflexivity.
    + unfold fexp, emin, F64.prec, F64.emax in *. lia.
  - exfalso. lia.
  - exists (Zpos q). split; [lia|]. rewrite Hround.
    + f_equal; [|lia]. rewrite <- Zpos_iter_xO. reflexivity.
    + rewrite digits2_pos_iter_xO. unfold fexp, emin, F64.prec, F64.emax in *. lia.
Qed.

Lemma of_scaled_zero e s : F64.of_scaled 0 e s = S754_zero s.
Proof. reflexivity. Qed.

Lemma of_scaled_exact a e s :
  a <> 0 -> Z.abs a < 2 ^ 53 -> -1074 <= e <= 971 ->
  exists d, 0 <= d /\
    F64.of_scaled a e s =
      S754_finite (a <? 0) (Z.to_pos (Z.abs a * 2 ^ d)) (e - d).
Proof.
  intros Ha Hlt He.
  assert (Hdig : forall p, Zpos p < 2 ^ 53 -> Zpos (digits2_pos p) <= 53).
  { intros p Hp. rewrite digits2_pos_log2.
    assert (Z.log2 (Zpos p) < 53) by (apply Z.log2_lt_pow2; lia). lia. }
  unfold F64.of_scaled, binary_normalize.
  destruct a as [|p|p]; [congruence| |].
  - destruct (binary_round_exact false p e) as (d & Hd & ->); auto; try lia.
    { specialize (Hdig p Hlt). lia. }
    exists d. split; [assumption|reflexivity].
  - destruct (binary_round_exact true p e) as (d & Hd & ->); auto; try lia.
    { specialize (Hdig p Hlt). lia. }
    exists d. split; [assumption|reflexivity].
Qed.

(** Shifts. *)
Lemma shiftl_neg a k : 0 <= k -> Z.shiftl a (- k) = a / 2 ^ k.
Proof. intros Hk. rewrite Z.shiftl_opp_r. apply Z.shiftr_div_pow2. assumption. Qed.

Lemma shiftl_pos a k : 0 <= k -> Z.shiftl a k = a * 2 ^ k.
Proof. intros Hk. apply Z.shiftl_mul_pow2. assumption. Qed.

Lemma truncZ_of_scaled a s :
  Z.abs a < 2 ^ 53 -> F64.truncZ (F64.of_scaled a 0 s) = a /\
                      F64.is_finite (F64.of_scaled a 0 s) = true.
Proof.
  intros Ha. destruct (Z.eq_dec a 0) as [->|Hne].
  - split; reflexivity.
  - destruct (of_scaled_exact a 0 s) as (d & Hd & ->); auto; try lia.
    split; [|reflexivity].
    assert (Hpos : 0 < Z.abs a * 2 ^ d) by (apply Z.mul_pos_pos; [lia|apply Z.pow_pos_nonneg; lia]).
    unfold F64.truncZ, F64.floorZ, F64.ceilZ, F64.mantissa, F64.exponent.
    replace (0 - d) with (- d) by lia.
    rewrite !shiftl_neg by assumption.
    rewrite Z2Pos.id by assumption.
    destruct (Z.ltb_spec a 0); simpl cond_Zopp.
    + replace (- (Z.abs a * 2 ^ d) <? 0) with true by (symmetry; apply Z.ltb_lt; lia).
      rewrite Z.opp_involutive, Z.div_mul by (apply Z.pow_nonzero; lia). lia.
    + replace (Z.abs a * 2 ^ d <? 0) with false by (symmetry; apply Z.ltb_ge; lia).
      rewrite Z.div_mul by (apply Z.pow_nonzero; lia). lia.
Qed.

Lemma int64_of_float_of_scaled `{Arch} a s :
  Z.abs a < 2 ^ 53 -> int64_of_float (F64.of_scaled a 0 s) = a.
Proof.
  intros Ha. destruct (truncZ_of_scaled a s Ha) as [Ht Hf].
  unfold int64_of_float, F64.fits_int64. rewrite Hf, Ht.
  replace (min_int64 <=? a) with true by (symmetry; apply Z.leb_le; unfold min_int64; lia).
  replace (a <=? max_int64) with true by (symmetry; apply Z.leb_le; unfold max_int64; lia).
  reflexivity.
Qed.

Lemma ge_finite x y :
  F64.is_finite x = true -> F64.is_finite y = true ->
  let e0 := Z.min (F64.exponent x) (F64.exponent y) in
  F64.ge x y =
    (F64.mantissa y * 2 ^ (F64.exponent y - e0) <=?
     F64.mantissa x * 2 ^ (F64.exponent x - e0)).
Proof.
  intros Hx Hy e0. unfold F64.ge.
  assert (Hc : F64.compare x y =
               Some (Z.compare (F64.mantissa x * 2 ^ (F64.exponent x - e0))
                               (F64.mantissa y * 2 ^ (F64.exponent y - e0)))).
  { destruct x, y; try discriminate; reflexivity. }
  rewrite Hc, Z.leb_compare, (Z.compare_antisym (F64.mantissa x * _)).
  destruct (_ ?= _); reflexivity.
Qed.

Lemma ge_half_of_scaled r e s :
  -1074 <= e < 0 -> Z.abs r < 2 ^ 53 ->
  F64.ge (F64.of_scaled r e s) F64.half = (2 ^ (- e) <=? 2 * r).
Proof.
  intros He Hr. destruct (Z.eq_dec r 0) as [->|Hne].
  - rewrite of_scaled_zero. symmetry. apply Z.leb_gt.
    assert (0 < 2 ^ (- e)) by (apply Z.pow_pos_nonneg; lia). lia.
  - destruct (of_scaled_exact r e s) as (d & Hd & ->); auto; try lia.
    rewrite ge_finite by reflexivity.
    assert (Hpos : 0 < Z.abs r * 2 ^ d)
      by (apply Z.mul_pos_pos; [lia|apply Z.pow_pos_nonneg; lia]).
    assert (Hm : F64.mantissa (S754_finite (r <? 0) (Z.to_pos (Z.abs r * 2 ^ d)) (e - d))
                 = r * 2 ^ d).
    { unfold F64.mantissa. rewrite Z2Pos.id by assumption.
      destruct (Z.ltb_spec r 0); simpl; lia. }
    rewrite Hm. clear Hm.
    change (F64.mantissa F64.half) with (2 ^ 52).
    change (F64.exponent F64.half) with (-53).
    unfold F64.exponent.
    set (e0 := Z.min (e - d) (-53)).
    set (n := e - d - e0).
    assert (Hn : 0 <= n) by lia.
    replace (-53 - e0) with (n + d + (- e - 1) - 52) by lia.
    assert (Hk : 2 ^ (- e) = 2 * 2 ^ (- e - 1)).
    { rewrite <- Z.pow_succ_r by lia. f_equal. lia. }
    assert (H52 : 2 ^ 52 * 2 ^ (n + d + (- e - 1) - 52) = 2 ^ (- e - 1) * (2 ^ d * 2 ^ n)).
    { rewrite <- !Z.pow_add_r by lia. f_equal. lia. }
    rewrite H52, Hk, <- Z.mul_assoc.
    assert (Hdn : 0 < 2 ^ d * 2 ^ n)
      by (apply Z.mul_pos_pos; apply Z.pow_pos_nonneg; lia).
    destruct (Z.leb_spec (2 * 2 ^ (- e - 1)) (2 * r)) as [Hle|Hgt].
    + apply Z.leb_le. apply Z.mul_le_mono_nonneg_r; lia.
    + apply Z.leb_gt. apply Z.mul_lt_mono_pos_r; lia.
Qed.

Lemma valid_finite_bounds s m e :
  valid_binary F64.prec F64.emax (S754_finite s m e) = true ->
  Zpos m < 2 ^ 53 /\ -1074 <= e <= 971.
Proof.
  unfold valid_binary, bounded, canonical_mantissa, fexp, emin, F64.prec, F64.emax.
  intros Hv. apply andb_prop in Hv as [Hc He].
  apply Z.eqb_eq in Hc. apply Z.leb_le in He.
  rewrite digits2_pos_log2 in Hc.
  split; [|lia].
  apply Z.log2_lt_pow2; lia.
Qed.

Lemma div_pow2_bound a k :
  Z.abs a < 2 ^ 53 -> 1 <= k -> Z.abs (a / 2 ^ k) < 2 ^ 53.
Proof.
  intros Ha Hk.
  assert (H2 : 2 <= 2 ^ k).
  { change 2 with (2 ^ 1) at 1. apply Z.pow_le_mono_r; lia. }
  pose proof (Z.div_mod a (2 ^ k) ltac:(lia)) as Hdm.
  pose proof (Z.mod_pos_bound a (2 ^ k) ltac:(lia)) as Hmod.
  set (q := a / 2 ^ k) in *. set (r := a mod 2 ^ k) in *. set (b := 2 ^ k) in *.
  assert (- 2 ^ 53 < q < 2 ^ 53) by (split; nia). lia.
Qed.

Lemma finite_floor_ceil_bounds s m e :
  valid_binary F64.prec F64.emax (S754_finite s m e) = true -> e < 0 ->
  let f := S754_finite s m e in
  Z.abs (F64.floorZ f) < 2 ^ 53 /\ Z.abs (F64.ceilZ f) < 2 ^ 53 /\
  Z.abs (F64.mantissa f - Z.shiftl (F64.truncZ f) (- e)) < 2 ^ 53.
Proof.
  intros Hv He f. destruct (valid_finite_bounds _ _ _ Hv) as [Hm Hb].
  assert (Ha : Z.abs (F64.mantissa f) < 2 ^ 53).
  { unfold f, F64.mantissa. destruct s; simpl; lia. }
  unfold F64.truncZ, F64.floorZ, F64.ceilZ. change (F64.exponent f) with e.
  set (a := F64.mantissa f) in *.
  assert (Hs : forall x, Z.shiftl x e = x / 2 ^ (- e)).
  { intros x. replace e with (- (- e)) at 1 by lia. apply shiftl_neg. lia. }
  rewrite !Hs, shiftl_pos by lia.
  pose proof (div_pow2_bound a (- e) Ha ltac:(lia)) as H1.
  pose proof (div_pow2_bound (- a) (- e) ltac:(lia) ltac:(lia)) as H2.
  assert (Hp : 0 < 2 ^ (- e)) by (apply Z.pow_pos_nonneg; lia).
  split; [assumption|]. split; [lia|].
  pose proof (Z.div_mod a (2 ^ (- e)) ltac:(lia)) as Hdm.
  pose proof (Z.mod_pos_bound a (2 ^ (- e)) Hp) as Hmod.
  pose proof (Z.div_mod (- a) (2 ^ (- e)) ltac:(lia)) as Hdm'.
  pose proof (Z.mod_pos_bound (- a) (2 ^ (- e)) Hp) as Hmod'.
  destruct (Z.ltb_spec a 0).
  - assert (0 <= (- a) mod 2 ^ (- e) <= - a) by (split; [lia|apply Z.mod_le; lia]). lia.
  - assert (0 <= a mod 2 ^ (- e) <= a) by (split; [lia|apply Z.mod_le; lia]). lia.
Qed.

Lemma roundF2I_finite `{Arch} s m e :
  let f := S754_finite s m e in
  valid_binary F64.prec F64.emax f = true ->
  min_int64 <= F64.floorZ f -> F64.ceilZ f <= max_int64 ->
  roundF2I f F64.half =
    if (e <? 0) &&
       (2 ^ (- e) <=? 2 * (F64.mantissa f - Z.shiftl (F64.truncZ f) (- e)))
    then F64.ceilZ f else F64.floorZ f.
Proof.
  intros f Hv Hlo Hhi. destruct (valid_finite_bounds _ _ _ Hv) as [Hm Hb].
  unfold roundF2I. unfold f at 1. unfold F64.Modf.
  destruct (Z.leb_spec 0 e) as [He|He].
  - replace (e <? 0) with false by (symmetry; apply Z.ltb_ge; lia).
    simpl andb. cbv iota.
    change (F64.ge (S754_zero s) F64.half) with false. cbv iota.
    unfold F64.Floor, f. replace (0 <=? e) with true by (symmetry; apply Z.leb_le; lia).
    fold f.
    assert (Hfc : F64.ceilZ f = F64.floorZ f).
    { unfold F64.ceilZ, F64.floorZ. change (F64.exponent f) with e.
      rewrite !shiftl_pos by lia. lia. }
    unfold int64_of_float, F64.fits_int64, F64.truncZ. rewrite Hfc.
    replace (if F64.mantissa f <? 0 then F64.floorZ f else F64.floorZ f)
      with (F64.floorZ f) by (destruct (_ <? _); reflexivity).
    replace (min_int64 <=? F64.floorZ f) with true by (symmetry; apply Z.leb_le; lia).
    replace (F64.floorZ f <=? max_int64) with true by (symmetry; apply Z.leb_le; lia).
    reflexivity.
  - replace (e <? 0) with true by (symmetry; apply Z.ltb_lt; lia).
    simpl andb. fold f.
    destruct (finite_floor_ceil_bounds s m e Hv He) as (Hf & Hc & Hr). fold f in Hf, Hc, Hr.
    rewrite ge_half_of_scaled by (try assumption; lia).
    unfold F64.Ceil, F64.Floor, f.
    replace (0 <=? e) with false by (symmetry; apply Z.leb_gt; lia).
    fold f.
    destruct (_ <=? _); apply int64_of_float_of_scaled; assumption.
Qed.

Lemma Zpos_pow2 k : 0 < k -> Zpos (2 ^ Z.to_pos k)%positive = 2 ^ k.
Proof. intros Hk. rewrite Pos2Z.inj_pow, Z2Pos.id by assumption. reflexivity. Qed.

Lemma shiftl_neg_exp x e : e < 0 -> Z.shiftl x e = x / 2 ^ (- e).
Proof. intros He. replace e with (- (- e)) at 1 by lia. apply shiftl_neg. lia. Qed.

Lemma Qfloor_to_Q f : Qfloor (F64.to_Q f) = F64.floorZ f.
Proof.
  unfold F64.to_Q, F64.floorZ.
  destruct (Z.leb_spec 0 (F64.exponent f)) as [He|He].
  - rewrite Qfloor_Z, shiftl_pos by assumption. reflexivity.
  - rewrite shiftl_neg_exp by assumption. unfold Qfloor.
    cbv beta iota. rewrite Zpos_pow2 by lia. reflexivity.
Qed.

Lemma Qceiling_to_Q f : Qceiling (F64.to_Q f) = F64.ceilZ f.
Proof.
  unfold F64.to_Q, F64.ceilZ.
  destruct (Z.leb_spec 0 (F64.exponent f)) as [He|He].
  - rewrite Qceiling_Z, shiftl_pos by assumption. lia.
  - rewrite shiftl_neg_exp by assumption. unfold Qceiling, Qfloor, Qopp.
    cbv beta iota. cbn [Qnum Qden]. rewrite Zpos_pow2 by lia. reflexivity.
Qed.

Section RoundHalfUp.

Context `{Arch}.

Variable f : float64.
Hypothesis f_valid : valid_binary F64.prec F64.emax f = true.
Hypothesis f_finite : F64.is_finite f = true.
Hypothesis f_lo : min_int64 <= Qfloor (F64.to_Q f).
Hypothesis f_hi : Qceiling (F64.to_Q f) <= max_int64.

Lemma roundF2I_zero s : roundF2I (S754_zero s) F64.half = 0.
Proof. reflexivity. Qed.

(** The fractional part, in units of [2 ^ exponent]. *)
Lemma roundF2I_cases :
  roundF2I f F64.half =
    if (F64.exponent f <? 0) &&
       (2 ^ (- F64.exponent f) <=?
        2 * (F64.mantissa f - Z.shiftl (F64.truncZ f) (- F64.exponent f)))
    then F64.ceilZ f else F64.floorZ f.
Proof.
  rewrite Qfloor_to_Q in f_lo. rewrite Qceiling_to_Q in f_hi.
  destruct f as [s| | |s m e]; try discriminate.
  - reflexivity.
  - apply roundF2I_finite; assumption.
Qed.

Lemma roundF2I_negative :
  (F64.to_Q f < 0)%Q -> roundF2I f F64.half = Qfloor (F64.to_Q f).
Proof.
  intros Hneg. rewrite roundF2I_cases, Qfloor_to_Q.
  destruct (Z.ltb_spec (F64.exponent f) 0) as [He|He]; [|reflexivity].
  simpl andb.
  assert (Hm : F64.mantissa f < 0).
  { revert Hneg. unfold F64.to_Q, Qlt.
    replace (0 <=? F64.exponent f) with false by (symmetry; apply Z.leb_gt; lia).
    simpl. rewrite Z.mul_1_r. trivial. }
  unfold F64.truncZ, F64.ceilZ.
  replace (F64.mantissa f <? 0) with true by (symmetry; apply Z.ltb_lt; lia).
  rewrite (shiftl_neg_exp (- F64.mantissa f) (F64.exponent f)) by lia.
  rewrite (shiftl_pos _ (- F64.exponent f)) by lia.
  assert (Hp : 0 < 2 ^ (- F64.exponent f)) by (apply Z.pow_pos_nonneg; lia).
  pose proof (Z.div_mod (- F64.mantissa f) (2 ^ (- F64.exponent f)) ltac:(lia)) as Hdm.
  pose proof (Z.mod_pos_bound (- F64.mantissa f) _ Hp) as Hmod.
  replace (_ <=? _) with false; [reflexivity|].
  symmetry. apply Z.leb_gt. lia.
Qed.

Lemma roundF2I_nonneg :
  (0 <= F64.to_Q f)%Q ->
  roundF2I f F64.half =
    if Qle_bool (1 # 2) (F64.to_Q f - inject_Z (Qfloor (F64.to_Q f)))
    then Qceiling (F64.to_Q f) else Qfloor (F64.to_Q f).
Proof.
  intros Hpos. rewrite roundF2I_cases, Qfloor_to_Q, Qceiling_to_Q.
  unfold F64.to_Q in *.
  destruct (Z.leb_spec 0 (F64.exponent f)) as [He|He].
  - replace (F64.exponent f <? 0) with false by (symmetry; apply Z.ltb_ge; lia).
    simpl andb. cbv iota.
    replace (Qle_bool _ _) with false; [reflexivity|].
    symmetry. apply not_true_is_false. rewrite Qle_bool_iff.
    unfold F64.floorZ. rewrite shiftl_pos by assumption.
    unfold Qle, Qminus, Qplus, Qopp, inject_Z. simpl. lia.
  - replace (F64.exponent f <? 0) with true by (symmetry; apply Z.ltb_lt; lia).
    simpl andb.
    assert (Hm : 0 <= F64.mantissa f).
    { revert Hpos. unfold Qle. simpl. rewrite Z.mul_1_r. trivial. }
    unfold F64.truncZ.
    replace (F64.mantissa f <? 0) with false by (symmetry; apply Z.ltb_ge; lia).
    rewrite shiftl_pos by lia.
    match goal with
    | |- (if ?a then _ else _) = (if ?b then _ else _) =>
        assert (Hab : a = b); [|rewrite Hab; reflexivity]
    end.
    apply eq_true_iff_eq. rewrite Z.leb_le, Qle_bool_iff.
    unfold Qle, Qminus, Qplus, Qopp, inject_Z. cbn [Qnum Qden].
    rewrite Pos2Z.inj_mul, Zpos_pow2 by lia. lia.
Qed.

End RoundHalfUp.

Lemma finite_negative_exponent_fits s m e :
  valid_binary F64.prec F64.emax (S754_finite s m e) = true -> e < 0 ->
  let f := S754_finite s m e in
  min_int64 <= Qfloor (F64.to_Q f) /\ Qceiling (F64.to_Q f) <= max_int64.
Proof.
  intros Hv He f. rewrite Qfloor_to_Q, Qceiling_to_Q.
  destruct (finite_floor_ceil_bounds s m e Hv He) as (Hfl & Hce & _).
  fold f in Hfl, Hce. unfold min_int64, max_int64. lia.
Qed.

(** C9. On a finite [float64] [f], [roundF2I f .5] rounds half up: a value
    [x + 1/2] with [x] a non-negative integer gives [x + 1]; and, when the
    floor and the ceiling of [f] are in [int64], a non-negative [f] with a
    fractional part below [1/2] gives the floor, with a fractional part of
    [1/2] or more the ceiling. A negative [f] gives the floor, the
    fractional part of [math.Modf] being negative then. *)
Theorem roundF2I_round_half_up `{Arch} (f : float64) :
  valid_binary F64.prec F64.emax f = true ->
  F64.is_finite f = true ->
  (forall x : Z, 0 <= x -> (F64.to_Q f == inject_Z x + (1 # 2))%Q ->
     roundF2I f F64.half = x + 1) /\
  (min_int64 <= Qfloor (F64.to_Q f) ->
   Qceiling (F64.to_Q f) <= max_int64 ->
   ((0 <= F64.to_Q f)%Q ->
    (F64.to_Q f - inject_Z (Qfloor (F64.to_Q f)) < 1 # 2)%Q ->
      roundF2I f F64.half = Qfloor (F64.to_Q f)) /\
   ((0 <= F64.to_Q f)%Q ->
    (1 # 2 <= F64.to_Q f - inject_Z (Qfloor (F64.to_Q f)))%Q ->
      roundF2I f F64.half = Qceiling (F64.to_Q f)) /\
   ((F64.to_Q f < 0)%Q -> roundF2I f F64.half = Qfloor (F64.to_Q f))).
Proof.
  intros Hv Hf.
  assert (Hup : min_int64 <= Qfloor (F64.to_Q f) ->
                Qceiling (F64.to_Q f) <= max_int64 ->
                (0 <= F64.to_Q f)%Q ->
                (1 # 2 <= F64.to_Q f - inject_Z (Qfloor (F64.to_Q f)))%Q ->
                roundF2I f F64.half = Qceiling (F64.to_Q f)).
  { intros Hlo Hhi Hpos Hfrac. rewrite (roundF2I_nonneg f Hv Hf Hlo Hhi Hpos).
    apply Qle_bool_iff in Hfrac. rewrite Hfrac. reflexivity. }
  split.
  - intros x Hx Heq.
    assert (Hfl : Qfloor (F64.to_Q f) = x).
    { rewrite Heq. unfold Qfloor, Qplus, inject_Z. cbn [Qnum Qden].
      rewrite Z.mul_1_l. change (Z.pos (1 * 2)) with 2.
      symmetry. apply Z.div_unique with 1; lia. }
    assert (Hce : Qceiling (F64.to_Q f) = x + 1).
    { rewrite Heq. unfold Qceiling, Qfloor, Qopp, Qplus, inject_Z. cbn [Qnum Qden].
      rewrite Z.mul_1_l. change (Z.pos (1 * 2)) with 2.
      assert (Hd : - (x * 2 + 1) / 2 = - x - 1)
        by (symmetry; apply Z.div_unique with 1; lia).
      rewrite Hd. lia. }
    assert (Hfits : min_int64 <= Qfloor (F64.to_Q f) /\
                    Qceiling (F64.to_Q f) <= max_int64).
    { destruct f as [s| | |s m e]; try discriminate.
      - split; vm_compute; discriminate.
      - destruct (Z.ltb_spec e 0) as [He|He].
        + apply finite_negative_exponent_fits; assumption.
        + exfalso. revert Heq. unfold F64.to_Q. cbn [F64.exponent].
          replace (0 <=? e) with true by (symmetry; apply Z.leb_le; lia).
          unfold Qeq, Qplus, inject_Z. cbn [Qnum Qden]. lia. }
    destruct Hfits as [Hlo Hhi].
    rewrite <- Hce. apply Hup; try assumption.
    + rewrite Heq. unfold Qle, Qplus, inject_Z. cbn [Qnum Qden]. lia.
    + rewrite Hfl, Heq. unfold Qle, Qminus, Qplus, Qopp, inject_Z.
      cbn [Qnum Qden]. lia.
  - intros Hlo Hhi. repeat split.
    + intros Hpos Hfrac. rewrite (roundF2I_nonneg f Hv Hf Hlo Hhi Hpos).
      replace (Qle_bool _ _) with false; [reflexivity|].
      symmetry. apply not_true_is_false. rewrite Qle_bool_iff.
      apply Qlt_not_le. assumption.
    + apply Hup; assumption.
    + apply roundF2I_negative; assumption.
Qed.

Lemma roundF2I_round_half_up_witness :
  roundF2I (S754_finite false 5629499534213120 (-51)) F64.half = 2 + 1.
Proof.
  refine (proj1 (roundF2I_round_half_up
                   (S754_finite false 5629499534213120 (-51)) _ _) 2 _ _);
    [reflexivity | reflexivity | lia | reflexivity].
Defined.

(** *** The results of the division are valid floats *)

Lemma digits2_pos_bounds p :
  2 ^ (Zpos (digits2_pos p) - 1) <= Zpos p < 2 ^ Zpos (digits2_pos p).
Proof.
  rewrite digits2_pos_log2.
  replace (Z.log2 (Z.pos p) + 1 - 1) with (Z.log2 (Z.pos p)) by lia.
  replace (Z.log2 (Z.pos p) + 1) with (Z.succ (Z.log2 (Z.pos p))) by lia.
  apply Z.log2_spec. lia.
Qed.

Lemma Zdigits2_log2 m : 0 < m -> Zdigits2 m = Z.log2 m + 1.
Proof. destruct m; try lia. intros _. apply digits2_pos_log2. Qed.

Lemma Zdigits2_nonneg m : 0 <= Zdigits2 m.
Proof. destruct m; simpl; lia. Qed.

Lemma Zdigits2_le m n : 0 <= m -> m <= n -> Zdigits2 m <= Zdigits2 n.
Proof.
  intros Hm Hn. destruct (Z.eq_dec m 0) as [->|Hz].
  - apply Zdigits2_nonneg.
  - rewrite !Zdigits2_log2 by lia.
    pose proof (Z.log2_le_mono m n Hn). lia.
Qed.

Lemma shr_1_m mrs : 0 <= shr_m mrs -> shr_m (shr_1 mrs) = shr_m mrs / 2.
Proof.
  destruct mrs as [m r s]. cbn [shr_m shr_1]. intros Hm.
  destruct m as [|[p|p|]|p]; cbn [shr_m]; try lia; try reflexivity.
  - apply Z.div_unique with 1; lia.
  - apply Z.div_unique with 0; lia.
Qed.

Lemma iter_shr_1_m p : forall mrs,
  0 <= shr_m mrs ->
  shr_m (SpecFloat.iter_pos shr_1 p mrs) = shr_m mrs / 2 ^ Zpos p.
Proof.
  induction p as [p IH|p IH|]; intros mrs Hm; cbn [SpecFloat.iter_pos].
  - assert (H1 : 0 <= shr_m (shr_1 mrs))
      by (rewrite shr_1_m by assumption; apply Z.div_pos; lia).
    assert (H2 : 0 <= shr_m (SpecFloat.iter_pos shr_1 p (shr_1 mrs)))
      by (rewrite IH by assumption; apply Z.div_pos; lia).
    rewrite IH, IH, shr_1_m by assumption.
    rewrite !Z.div_div by lia. f_equal.
    rewrite Pos2Z.inj_xI, <- !Z.pow_add_r by lia.
    replace (2 * Z.pos p + 1) with (1 + Z.pos p + Z.pos p) by lia.
    rewrite !Z.pow_add_r by lia. lia.
  - assert (H2 : 0 <= shr_m (SpecFloat.iter_pos shr_1 p mrs))
      by (rewrite IH by assumption; apply Z.div_pos; lia).
    rewrite IH, IH by assumption.
    rewrite !Z.div_div by lia. f_equal.
    rewrite Pos2Z.inj_xO, <- Z.pow_add_r by lia. f_equal. lia.
  - rewrite shr_1_m by assumption. reflexivity.
Qed.

Lemma shr_record_of_loc_m m l : shr_m (shr_record_of_loc m l) = m.
Proof. destruct l as [|[]]; reflexivity. Qed.

Lemma Zdigits2_div_pow2 m n :
  0 < m -> 0 <= n -> 0 < m / 2 ^ n ->
  Zdigits2 (m / 2 ^ n) = Zdigits2 m - n.
Proof.
  intros Hm Hn Hq. rewrite !Zdigits2_log2 by assumption.
  rewrite <- Z.shiftr_div_pow2 by assumption.
  rewrite Z.log2_shiftr by assumption.
  rewrite <- Z.shiftr_div_pow2 in Hq by assumption.
  destruct (Z.le_gt_cases n (Z.log2 m)) as [H|H]; [lia|].
  exfalso. rewrite Z.shiftr_eq_0 in Hq by lia. lia.
Qed.

(** The canonical form: after [shr_fexp] the exponent is the one of the
    format for the digits of the mantissa. *)
Lemma shr_fexp_canonical m e l :
  0 <= m ->
  e <= fexp F64.prec F64.emax (Zdigits2 m + e) ->
  let '(mrs, e') := shr_fexp F64.prec F64.emax m e l in
  0 <= shr_m mrs /\
  e' = fexp F64.prec F64.emax (Zdigits2 m + e) /\
  (shr_m mrs = 0 /\ e' = -1074 \/
   0 < shr_m mrs /\ Zdigits2 (shr_m mrs) + e' = Zdigits2 m + e).
Proof.
  intros Hm He. unfold shr_fexp, shr.
  pose proof (Zdigits2_nonneg m) as Hd.
  unfold fexp, emin, F64.prec, F64.emax in *.
  set (d := Zdigits2 m) in *.
  destruct (Z.max (d + e - 53) (3 - 1024 - 53) - e) as [|p|p] eqn:Hn.
  - rewrite shr_record_of_loc_m. split; [assumption|]. split; [lia|].
    destruct (Z.eq_dec m 0) as [->|Hz].
    + left. split; [reflexivity|]. subst d. simpl in *. lia.
    + right. split; lia.
  - rewrite iter_shr_1_m by (rewrite shr_record_of_loc_m; assumption).
    rewrite shr_record_of_loc_m.
    split; [apply Z.div_pos; lia|]. split; [lia|].
    destruct (Z.eq_dec (m / 2 ^ Z.pos p) 0) as [Hq|Hq].
    + left. split; [assumption|].
      destruct (Z.eq_dec m 0) as [->|Hz]; [subst d; simpl in *; lia|].
      assert (Hlt : m < 2 ^ Z.pos p).
      { apply Z.div_small_iff in Hq; lia. }
      assert (Hdp : d <= Z.pos p).
      { subst d. rewrite Zdigits2_log2 by lia.
        apply Z.log2_lt_pow2 in Hlt; lia. }
      lia.
    + right. assert (Hq' : 0 < m / 2 ^ Z.pos p).
      { pose proof (Z.div_pos m (2 ^ Z.pos p) Hm ltac:(lia)). lia. }
      split; [assumption|].
      assert (Hm' : 0 < m).
      { destruct (Z.eq_dec m 0) as [->|]; [|lia]. rewrite Z.div_0_l in Hq' by lia. lia. }
      rewrite Zdigits2_div_pow2 by lia. subst d. lia.
  - lia.
Qed.

Lemma binary_round_aux_valid s m e l :
  0 <= m ->
  e <= fexp F64.prec F64.emax (Zdigits2 m + e) ->
  valid_binary F64.prec F64.emax
    (binary_round_aux F64.prec F64.emax s m e l) = true.
Proof.
  intros Hm He. unfold binary_round_aux.
  pose proof (shr_fexp_canonical m e l Hm He) as H1.
  destruct (shr_fexp F64.prec F64.emax m e l) as [mrs' e'].
  destruct H1 as (Hm' & He' & Hc').
  set (m1 := round_nearest_even (shr_m mrs') (loc_of_shr_record mrs')).
  assert (Hm1 : shr_m mrs' <= m1 <= shr_m mrs' + 1).
  { unfold m1, round_nearest_even.
    destruct (loc_of_shr_record mrs') as [|[]];
      try destruct (Z.even _); lia. }
  assert (He1 : e' <= fexp F64.prec F64.emax (Zdigits2 m1 + e')).
  { destruct Hc' as [[Hz Hmin]|[Hp Hd]].
    - rewrite Hmin. unfold fexp, emin, F64.prec, F64.emax. lia.
    - pose proof (Zdigits2_le (shr_m mrs') m1 Hm' ltac:(lia)) as Hle.
      rewrite He' at 1. rewrite <- Hd.
      unfold fexp, emin, F64.prec, F64.emax. lia. }
  pose proof (shr_fexp_canonical m1 e' loc_Exact ltac:(lia) He1) as H2.
  destruct (shr_fexp F64.prec F64.emax m1 e' loc_Exact) as [mrs'' e''].
  destruct H2 as (Hm2 & He2 & Hc2).
  destruct (shr_m mrs'') as [|p|p] eqn:Hp; [reflexivity| |reflexivity].
  destruct (e'' <=? F64.emax - F64.prec) eqn:Hb; [|reflexivity].
  simpl. unfold bounded, canonical_mantissa. rewrite Hb, andb_true_r.
  apply Z.eqb_eq. destruct Hc2 as [[Hz _]|[_ Hd]]; [discriminate|].
  simpl in Hd. rewrite Hd. symmetry. exact He2.
Qed.

Lemma div_valid (x y : float64) :
  valid_binary F64.prec F64.emax (F64.div x y) = true.
Proof.
  destruct x as [sx|sx| |sx mx ex], y as [sy|sy| |sy my ey]; try reflexivity.
  unfold F64.div, SFdiv, SFdiv_core_binary.
  set (d1 := Zdigits2 (Z.pos mx)). set (d2 := Zdigits2 (Z.pos my)).
  set (e' := Z.min (fexp F64.prec F64.emax (d1 + ex - (d2 + ey))) (ex - ey)).
  set (m' := match ex - ey - e' with
             | 0 => Z.pos mx
             | Z.pos _ => Z.shiftl (Z.pos mx) (ex - ey - e')
             | Z.neg _ => 0
             end).
  assert (Hs : 0 <= ex - ey - e') by (unfold e'; lia).
  assert (Hm' : m' = Z.pos mx * 2 ^ (ex - ey - e')).
  { unfold m'. destruct (ex - ey - e') as [|p|p] eqn:E; try lia.
    apply Z.shiftl_mul_pow2. lia. }
  pose proof (Z.div_eucl_eq m' (Z.pos my) ltac:(lia)) as Hdiv.
  pose proof (Z.mod_pos_bound m' (Z.pos my) ltac:(lia)) as Hmod.
  unfold Z.modulo in Hmod.
  assert (Hq : fst (Z.div_eucl m' (Z.pos my)) = m' / Z.pos my)
    by reflexivity.
  destruct (Z.div_eucl m' (Z.pos my)) as [q r]. simpl in Hq, Hmod.
  pose proof (digits2_pos_bounds mx) as Hb1.
  pose proof (digits2_pos_bounds my) as Hb2.
  fold (Zdigits2 (Z.pos mx)) in Hb1. fold (Zdigits2 (Z.pos my)) in Hb2.
  fold d1 in Hb1. fold d2 in Hb2.
  assert (Hd1 : 1 <= d1) by (unfold d1; simpl; lia).
  assert (Hd2 : 1 <= d2) by (unfold d2; simpl; lia).
  assert (Hq0 : 0 <= q).
  { rewrite Hq. apply Z.div_pos; [rewrite Hm'|]; lia. }
  assert (Hdq : d1 + (ex - ey - e') - d2 <= Zdigits2 q).
  { pose proof (Zdigits2_nonneg q).
    destruct (Z.le_gt_cases (d1 + (ex - ey - e') - d2) 0) as [|Hk]; [lia|].
    set (k := d1 + (ex - ey - e') - d2 - 1) in *.
    assert (Hqk : 2 ^ k <= q).
    { rewrite Hq. apply Z.div_le_lower_bound; [lia|].
      rewrite Hm'.
      assert (Z.pos my * 2 ^ k <= 2 ^ d2 * 2 ^ k)
        by (apply Z.mul_le_mono_nonneg_r; lia).
      rewrite <- Z.pow_add_r in H0 by lia.
      replace (d2 + k) with (d1 - 1 + (ex - ey - e')) in H0 by lia.
      rewrite Z.pow_add_r in H0 by lia.
      assert (2 ^ (d1 - 1) * 2 ^ (ex - ey - e') <=
              Z.pos mx * 2 ^ (ex - ey - e'))
        by (apply Z.mul_le_mono_nonneg_r; lia).
      lia. }
    assert (0 < q) by (pose proof (Z.pow_pos_nonneg 2 k); lia).
    rewrite Zdigits2_log2 by assumption.
    pose proof (Z.log2_le_mono _ _ Hqk) as Hl.
    rewrite Z.log2_pow2 in Hl by lia. lia. }
  apply binary_round_aux_valid; [assumption|].
  unfold e' at 1.
  transitivity (fexp F64.prec F64.emax (d1 + ex - (d2 + ey))); [lia|].
  unfold fexp, emin, F64.prec, F64.emax. fold e'. lia.
Qed.

(** *** Floats that are not negative *)

Lemma binary_round_aux_nonneg m e l :
  0 <= F64.mantissa (binary_round_aux F64.prec F64.emax false m e l).
Proof.
  unfold binary_round_aux.
  destruct (shr_fexp F64.prec F64.emax m e l) as [mrs' e'].
  destruct (shr_fexp F64.prec F64.emax _ e' loc_Exact) as [mrs'' e''].
  destruct (shr_m mrs''); [simpl; lia| |simpl; lia].
  destruct (e'' <=? F64.emax - F64.prec); simpl; lia.
Qed.

Lemma of_scaled_nonneg a e : 0 <= a -> 0 <= F64.mantissa (F64.of_scaled a e false).
Proof.
  intros Ha. unfold F64.of_scaled, binary_normalize.
  destruct a as [|p|p]; [simpl; lia| |lia].
  unfold binary_round. destruct (shl_align _ _ _) as [mz ez].
  apply binary_round_aux_nonneg.
Qed.

Lemma mantissa_nonneg_sign s m e :
  0 <= F64.mantissa (S754_finite s m e) -> s = false.
Proof. destruct s; simpl; [lia|reflexivity]. Qed.

Lemma div_nonneg x y :
  0 <= F64.mantissa x -> 0 <= F64.mantissa y -> 0 <= F64.mantissa (F64.div x y).
Proof.
  intros Hx Hy.
  destruct x as [sx|sx| |sx mx ex], y as [sy|sy| |sy my ey];
    try (simpl; lia).
  apply mantissa_nonneg_sign in Hx, Hy. subst sx sy.
  unfold F64.div, SFdiv.
  destruct (SFdiv_core_binary _ _ _ _ _ _) as [[mz ez] lz].
  apply binary_round_aux_nonneg.
Qed.

Lemma add_nonneg x y :
  0 <= F64.mantissa x -> 0 <= F64.mantissa y -> 0 <= F64.mantissa (F64.add x y).
Proof.
  intros Hx Hy.
  destruct x as [sx|sx| |sx mx ex], y as [sy|sy| |sy my ey];
    try (simpl; lia); try (destruct sx, sy; simpl; lia);
    try (simpl in *; assumption).
  apply mantissa_nonneg_sign in Hx, Hy. subst sx sy.
  unfold F64.add, SFadd. cbn [cond_Zopp].
  apply (of_scaled_nonneg _ (Z.min ex ey)). lia.
Qed.

Lemma Sub_nonneg t u : u < t -> 0 <= time.Sub t u.
Proof.
  intros H. unfold time.Sub.
  destruct (wrap64 (t - u) <? 0) eqn:E1.
  - replace (u <? t) with true by (symmetry; apply Z.ltb_lt; lia).
    simpl. unfold max_int64. lia.
  - apply Z.ltb_ge in E1. simpl.
    replace (t <? u) with false by (symmetry; apply Z.ltb_ge; lia).
    rewrite andb_false_r. assumption.
Qed.

Lemma Seconds_nonneg d : 0 <= d -> 0 <= F64.mantissa (time.Seconds d).
Proof.
  intros Hd. unfold time.Seconds. apply add_nonneg.
  - apply of_scaled_nonneg. apply Z.quot_pos; unfold time.Second; lia.
  - apply div_nonneg; [|vm_compute; discriminate].
    apply of_scaled_nonneg. apply Z.rem_nonneg; unfold time.Second; lia.
Qed.

Lemma to_Q_nonneg f : 0 <= F64.mantissa f -> (0 <= F64.to_Q f)%Q.
Proof.
  intros Hm. unfold F64.to_Q.
  destruct (0 <=? F64.exponent f) eqn:E.
  - apply Z.leb_le in E. change 0%Q with (inject_Z 0). rewrite <- Zle_Qle.
    apply Z.mul_nonneg_nonneg; [assumption|]. apply Z.pow_nonneg. lia.
  - unfold Qle. simpl. lia.
Qed.

Lemma sub64_small a b :
  0 <= a - b <= max_int64 -> sub64 a b = a - b.
Proof.
  intros H. unfold sub64, wrap64, max_int64 in *.
  rewrite Z.mod_small by lia. lia.
Qed.

(** ** The beater *)

Section Claims.
Context {strconv_impl : Strconv} {arch_impl : Arch}.

Lemma typeColumn_int s n :
  ParseInt s 0 64 = (n, None) ->
  typeColumn s = (columnTypeInt, n, fst (ParseFloat s 64)).
Proof.
  intros Hi. unfold typeColumn. rewrite Hi.
  destruct (ParseFloat s 64) as [f [e|]]; reflexivity.
Qed.

Lemma typeColumn_float s n e f :
  ParseInt s 0 64 = (n, Some e) -> ParseFloat s 64 = (f, None) ->
  typeColumn s = (columnTypeFloat, n, f).
Proof. intros Hi Hf. unfold typeColumn. rewrite Hi, Hf. reflexivity. Qed.

Lemma typeColumn_string s n e f e' :
  ParseInt s 0 64 = (n, Some e) -> ParseFloat s 64 = (f, Some e') ->
  typeColumn s = (columnTypeString, n, f).
Proof. intros Hi Hf. unfold typeColumn. rewrite Hi, Hf. reflexivity. Qed.

(** C7. The typing of a raw cell by the code is the value typer of the
    specification: the integer parse first, then the float parse, else the
    string with the raw text unchanged; this is also the value a column
    that is not a delta column adds to the event. In particular a cell that
    parses both as an integer and as a float is typed integer. *)
Theorem typeColumn_valueTyper (s : string) :
  let '(strColType, nColValue, fColValue) := typeColumn s in
  strColType = typeTag (valueTyper s) /\
  (forall R event name,
     addAsIs (R := R) event name strColType s nColValue fColValue =
     set_field event name (iface_of (valueTyper s))) /\
  (forall n f, ParseInt s 0 64 = (n, None) -> ParseFloat s 64 = (f, None) ->
     strColType = columnTypeInt /\ nColValue = n /\
     valueTyper s = TInteger n).
Proof.
  unfold typeColumn, valueTyper.
  destruct (ParseInt s 0 64) as [n [e|]], (ParseFloat s 64) as [f [e'|]];
    (split; [reflexivity|split; [reflexivity|]]);
    intros n' f' Hn Hf; try discriminate; inversion Hn; subst; auto.
Qed.


(** Assignments to the fields, and comparisons. *)
Lemma set_field_some {R} event m k v :
  Fields event = Some m ->
  set_field (R := R) event k v =
    Next (mkEvent (Timestamp event) (Some (<[k := v]> m))).
Proof. intros Hm. unfold set_field. rewrite Hm. reflexivity. Qed.

Lemma le_not_gt x y : F64.le x y = true -> F64.gt x y = false.
Proof. unfold F64.le, F64.gt. destruct (F64.compare x y) as [[]|]; congruence. Qed.

(** What the functions do with a delta cell is [observeCell]. *)
Lemma single_row_delta_column bt event values columns i col name rowAge :
  columns !! i = Some name ->
  strings.HasSuffix name (DeltaWildcard (config bt)) = true ->
  generateEventFromRow_column values columns queryTypeSingleRow rowAge
    (bt, event) i col =
  observeCell bt event name (eventColumnName bt name) (string_of_raw col)
              rowAge.
Proof.
  intros Hname Hdelta. unfold generateEventFromRow_column, observeCell.
  rewrite Hname, Hdelta.
  change (String.eqb queryTypeSingleRow queryTypeSlaveDelay) with false.
  change (String.eqb queryTypeSingleRow queryTypeSingleRow) with true.
  cbn [andb orb].
  destruct (typeColumn (string_of_raw col)) as [[ty n] f]. reflexivity.
Qed.

Lemma multiple_rows_delta_column bt event values columns i col name key
    rowAge :
  columns !! i = Some name ->
  strings.HasSuffix name (DeltaWildcard (config bt)) = true ->
  getKeyFromRow bt values columns = Ok (key, None) ->
  generateEventFromRow_column values columns queryTypeMultipleRows rowAge
    (bt, event) i col =
  observeCell bt event (key ++ name) (eventColumnName bt name)
              (string_of_raw col) rowAge.
Proof.
  intros Hname Hdelta Hkey. unfold generateEventFromRow_column, observeCell.
  rewrite Hname, Hdelta, Hkey.
  change (String.eqb queryTypeMultipleRows queryTypeSlaveDelay) with false.
  change (String.eqb queryTypeMultipleRows queryTypeSingleRow) with false.
  change (String.eqb queryTypeMultipleRows queryTypeMultipleRows) with true.
  cbn [andb orb].
  destruct (typeColumn (string_of_raw col)) as [[ty n] f]. reflexivity.
Qed.

Lemma two_columns_delta_row bt event row columns name value cells rowAge :
  sql.Scan row (length columns) = inl (name :: value :: cells) ->
  strings.HasSuffix (string_of_raw name) (DeltaWildcard (config bt)) = true ->
  appendRowToEvent bt event row columns rowAge =
    match
      observeCell (R := Empty_set) bt event (string_of_raw name)
        (strings.Replace1 (string_of_raw name) (DeltaWildcard (config bt))
                          "_PERSECOND")
        (string_of_raw value) rowAge
    with
    | Next (bt', event') => Ok (bt', event', None)
    | Return r => match r with end
    | Crash p => Panics p
    end.
Proof.
  intros Hscan Hdelta. unfold appendRowToEvent, observeCell.
  rewrite Hscan. cbn [lookup list_lookup]. rewrite Hdelta.
  destruct (typeColumn (string_of_raw value)) as [[ty n] f]. reflexivity.
Qed.

(** On the quotient of a rate, which is not negative, [roundF2I] is the
    rounding of the specification. *)
Lemma rate_rounds_half_up (d : Z) (t0 t1 : Time) :
  0 <= d -> t0 < t1 ->
  let q := F64.div (F64.of_Z d) (time.Seconds (time.Sub t1 t0)) in
  F64.is_finite q = true ->
  Qceiling (F64.to_Q q) <= max_int64 ->
  roundF2I q F64.half = round_half_up (F64.to_Q q).
Proof.
  intros Hd Ht q Hfin Hhi.
  assert (Hq : (0 <= F64.to_Q q)%Q).
  { apply to_Q_nonneg, div_nonneg.
    - apply of_scaled_nonneg. assumption.
    - apply Seconds_nonneg, Sub_nonneg. assumption. }
  unfold round_half_up.
  apply roundF2I_nonneg; try assumption.
  - apply div_valid.
  - apply Qfloor_resp_le in Hq. change (Qfloor 0) with 0 in Hq.
    unfold min_int64. lia.
Qed.

(** C1, as amended. The first observation of a fresh series key saves the
    value, as it is typed, with its time, and leaves the event as it is: no
    rate field is added. A second observation of the key with an integer
    [v2] above the saved integer [v], whose difference [v2 - v] is an
    [int64], at a later time [t1], adds to the event the integer that
    rounding half up gives for the quotient [q], when [q] is finite and
    below [2 ^ 63]: [q] is the [float64] quotient of [v2 - v] by the elapsed
    seconds [t1.Sub(t0).Seconds()]. The state then holds [(v2, t1)]. *)
Theorem observe_cold_start_then_rate {R} (bt : Mysqlbeat) (event : Event)
    (strKey name s : string) (t0 : Time) :
  oldValues bt !! strKey = None ->
  exists bt1,
    observeCell (R := R) bt event strKey name s t0 = Next (bt1, event) /\
    oldValues bt1 !! strKey = Some (iface_of (valueTyper s)) /\
    oldValuesAge bt1 !! strKey = Some (ITime t0) /\
    forall (v v2 : Z) (s2 : string) (t1 : Time) (event2 : Event) (m2 : MapStr),
      ParseInt s 0 64 = (v, None) ->
      ParseInt s2 0 64 = (v2, None) ->
      v < v2 -> v2 - v <= max_int64 -> t0 < t1 ->
      let q :=
        F64.div (F64.of_Z (v2 - v)) (time.Seconds (time.Sub t1 t0)) in
      F64.is_finite q = true ->
      Qceiling (F64.to_Q q) <= max_int64 ->
      Fields event2 = Some m2 ->
      exists bt2,
        observeCell (R := R) bt1 event2 strKey name s2 t1 =
          Next (bt2,
                mkEvent (Timestamp event2)
                  (Some (<[name := IInt64 (round_half_up (F64.to_Q q))]>
                           m2))) /\
        oldValues bt2 !! strKey = Some (IInt64 v2) /\
        oldValuesAge bt2 !! strKey = Some (ITime t1).
Proof.
  intros Hfresh.
  assert (Hfirst : exists bt1,
    observeCell (R := R) bt event strKey name s t0 = Next (bt1, event) /\
    oldValues bt1 !! strKey = Some (iface_of (valueTyper s)) /\
    oldValuesAge bt1 !! strKey = Some (ITime t0)).
  { unfold observeCell, observe, typeColumn, valueTyper. rewrite Hfresh.
    destruct (ParseInt s 0 64) as [n [e|]], (ParseFloat s 64) as [f [e'|]];
      simpl; eexists; (split; [reflexivity|]); simpl;
      split; apply lookup_insert_eq. }
  destruct Hfirst as (bt1 & Hrun & Hval & Hage).
  exists bt1. split; [assumption|]. split; [assumption|].
  split; [assumption|].
  intros v v2 s2 t1 event2 m2 Hv Hv2 Hlt Hfit Ht q Hfin Hhi Hm2.
  unfold valueTyper in Hval. rewrite Hv in Hval. cbn [iface_of] in Hval.
  unfold observeCell. rewrite (typeColumn_int s2 v2 Hv2).
  unfold observe. rewrite Hval, Hage.
  change (columnTypeInt =? columnTypeInt) with true. cbv iota.
  replace (v <? v2) with true by (symmetry; apply Z.ltb_lt; assumption).
  rewrite sub64_small by lia.
  rewrite (rate_rounds_half_up (v2 - v) t0 t1 ltac:(lia) Ht Hfin Hhi).
  fold q.
  rewrite (set_field_some _ m2) by assumption. cbn [mbind ctl_bind].
  eexists. split; [reflexivity|]. cbn [oldValues oldValuesAge set_oldValues set_oldValuesAge].
  split; apply lookup_insert_eq.
Qed.

(** A series that keeps its type: when the value does not exceed the saved
    one of the same type ([v2 <= v], a reset or a flat counter), the rate
    added to the event is exactly zero, the integer [0] for an integer
    series and the float [+0] for a float series, and the state is
    overwritten with [(v2, t1)]. *)
Theorem observe_reset_is_zero {R} (bt : Mysqlbeat) (event : Event)
    (m : MapStr) (strKey name s : string) (t0 t1 : Time) :
  Fields event = Some m ->
  oldValuesAge bt !! strKey = Some (ITime t0) ->
  (forall v v2 : Z,
     oldValues bt !! strKey = Some (IInt64 v) ->
     ParseInt s 0 64 = (v2, None) ->
     v2 <= v ->
     observeCell (R := R) bt event strKey name s t1 =
       Next (mkMysqlbeat (config bt)
               (<[strKey := IInt64 v2]> (oldValues bt))
               (<[strKey := ITime t1]> (oldValuesAge bt)),
             mkEvent (Timestamp event) (Some (<[name := IInt64 0]> m)))) /\
  (forall (v v2 : float64) (n : Z) (e : string),
     oldValues bt !! strKey = Some (IFloat64 v) ->
     ParseInt s 0 64 = (n, Some e) ->
     ParseFloat s 64 = (v2, None) ->
     F64.le v2 v = true ->
     observeCell (R := R) bt event strKey name s t1 =
       Next (mkMysqlbeat (config bt)
               (<[strKey := IFloat64 v2]> (oldValues bt))
               (<[strKey := ITime t1]> (oldValuesAge bt)),
             mkEvent (Timestamp event)
               (Some (<[name := IFloat64 (S754_zero false)]> m)))).
Proof.
  intros Hm Hage. split.
  - intros v v2 Hold Hv2 Hle.
    unfold observeCell. rewrite (typeColumn_int s v2 Hv2).
    unfold observe. rewrite Hold, Hage. simpl.
    replace (v <? v2) with false by (symmetry; apply Z.ltb_ge; assumption).
    rewrite (set_field_some _ m) by assumption. reflexivity.
  - intros v v2 n e Hold Hn Hv2 Hle.
    unfold observeCell. rewrite (typeColumn_float s n e v2 Hn Hv2).
    unfold observe. rewrite Hold, Hage. simpl.
    rewrite (le_not_gt _ _ Hle).
    rewrite (set_field_some _ m) by assumption. reflexivity.
Qed.

(** C6, as amended. When the current value of a series with saved state
    parses neither as an integer nor as a float, the raw text is added to
    the event under the rate's name, and the saved value and age are left
    as they were. *)
Theorem observe_string_keeps_state {R} (bt : Mysqlbeat) (event : Event)
    (m : MapStr) (strKey name s : string) (old : iface) (t0 t1 : Time)
    (n : Z) (f : float64) (e e' : string) :
  Fields event = Some m ->
  oldValues bt !! strKey = Some old ->
  oldValuesAge bt !! strKey = Some (ITime t0) ->
  ParseInt s 0 64 = (n, Some e) ->
  ParseFloat s 64 = (f, Some e') ->
  observeCell (R := R) bt event strKey name s t1 =
    Next (bt, mkEvent (Timestamp event) (Some (<[name := IString s]> m))).
Proof.
  intros Hm Hold Hage Hn Hf.
  unfold observeCell. rewrite (typeColumn_string s n e f e' Hn Hf).
  unfold observe. rewrite Hold, Hage. simpl.
  rewrite (set_field_some _ m) by assumption. reflexivity.
Qed.

Lemma Sub_same t : time.Sub t t = 0.
Proof. unfold time.Sub. rewrite Z.sub_diag. reflexivity. Qed.

Lemma Seconds_zero : time.Seconds 0 = S754_zero false.
Proof. reflexivity. Qed.

(** With saved state observed at the very instant of the current
    observation, a field is added to the event whatever the type of the
    value; for an integer above the saved one it is the conversion to
    [int64] of the quotient by a zero elapsed time. *)
Theorem observe_same_instant_emits {R} (bt : Mysqlbeat) (event : Event)
    (m : MapStr) (strKey name s : string) (old : iface) (t : Time) :
  Fields event = Some m ->
  oldValues bt !! strKey = Some old ->
  oldValuesAge bt !! strKey = Some (ITime t) ->
  (exists bt' v,
     observeCell (R := R) bt event strKey name s t =
       Next (bt', mkEvent (Timestamp event) (Some (<[name := v]> m)))) /\
  (forall v v2 : Z,
     old = IInt64 v -> ParseInt s 0 64 = (v2, None) -> v < v2 ->
     exists bt',
       observeCell (R := R) bt event strKey name s t =
         Next (bt',
               mkEvent (Timestamp event)
                 (Some (<[name :=
                           IInt64 (roundF2I
                                     (F64.div (F64.of_Z (sub64 v2 v))
                                              (S754_zero false))
                                     F64.half)]> m)))).
Proof.
  intros Hm Hold Hage. split.
  - unfold observeCell, typeColumn, observe. rewrite Hold, Hage.
    destruct (ParseInt s 0 64) as [n [e|]], (ParseFloat s 64) as [f [e'|]];
      simpl; rewrite (set_field_some _ m) by assumption; simpl; eauto.
  - intros v v2 -> Hv2 Hlt.
    unfold observeCell. rewrite (typeColumn_int s v2 Hv2).
    unfold observe. rewrite Hold, Hage, Sub_same, Seconds_zero. simpl.
    replace (v <? v2) with true by (symmetry; apply Z.ltb_lt; assumption).
    rewrite (set_field_some _ m) by assumption. simpl. eauto.
Qed.


(** With a map of fields, [observe] and [addAsIs] fall through. *)
Lemma observe_next {R} bt event m strKey name ty s n f t :
  Fields event = Some m ->
  exists bt' m',
    observe (R := R) bt event strKey name ty s n f t =
      Next (bt', mkEvent (Timestamp event) (Some m')) /\
    config bt' = config bt.
Proof.
  intros Hm. unfold observe.
  assert (Hev : event = mkEvent (Timestamp event) (Some m))
    by (destruct event; simpl in *; congruence).
  destruct (oldValues bt !! strKey) as [old|].
  - destruct (oldValuesAge bt !! strKey) as [[| | |t0]|];
      try (exists bt, m; split; [congruence|reflexivity]).
    destruct (ty =? columnTypeInt); [|destruct (ty =? columnTypeFloat)];
      rewrite (set_field_some _ m) by assumption; simpl; eauto.
  - destruct (ty =? columnTypeString); [|destruct (ty =? columnTypeInt);
      [|destruct (ty =? columnTypeFloat)]];
      (eexists _, m; split; [rewrite Hev at 1; reflexivity|reflexivity]).
Qed.

Lemma addAsIs_next {R} event m name ty s n f :
  Fields event = Some m ->
  exists m',
    addAsIs (R := R) event name ty s n f =
      Next (mkEvent (Timestamp event) (Some m')).
Proof.
  intros Hm. unfold addAsIs.
  assert (Hev : event = mkEvent (Timestamp event) (Some m))
    by (destruct event; simpl in *; congruence).
  destruct (ty =? columnTypeString); [|destruct (ty =? columnTypeInt);
    [|destruct (ty =? columnTypeFloat)]];
    try (rewrite (set_field_some _ m) by assumption; eexists; reflexivity).
  exists m. f_equal. exact Hev.
Qed.

(** C10. In two-columns mode the cells at index 0 and 1 of the scanned row
    are read unconditionally: with no column the access at index 0 panics,
    with one column the access at index 1 panics, and with two columns or
    more (and an event that has its map of fields) the row is assembled
    without panic and without error. *)
Theorem appendRowToEvent_needs_two_columns (bt : Mysqlbeat) (event : Event)
    (columns : list string) (cells : list RawBytes)
    (rest : list (list RawBytes)) (rowAge : Time) :
  length cells = length columns ->
  let row := mkRows columns (Some cells) rest false in
  (length columns = 0%nat ->
     appendRowToEvent bt event row columns rowAge =
       Panics (IndexOutOfRange 0 0)) /\
  (length columns = 1%nat ->
     appendRowToEvent bt event row columns rowAge =
       Panics (IndexOutOfRange 1 1)) /\
  ((2 <= length columns)%nat -> Fields event <> None ->
     exists bt' event',
       appendRowToEvent bt event row columns rowAge = Ok (bt', event', None)).
Proof.
  intros Hlen row.
  assert (Hscan : sql.Scan row (length columns) = inl cells).
  { unfold sql.Scan, row. simpl. rewrite Hlen, Nat.eqb_refl. reflexivity. }
  unfold appendRowToEvent. rewrite Hscan. repeat split.
  - intros H0. destruct cells; [reflexivity|]. simpl in Hlen. lia.
  - intros H1. destruct cells as [|c0 [|c1 cells]]; simpl in Hlen; try lia.
    reflexivity.
  - intros H2 Hf. destruct cells as [|c0 [|c1 cells]]; simpl in Hlen; try lia.
    simpl. destruct (Fields event) as [m|] eqn:Hm; [|congruence].
    destruct (typeColumn (string_of_raw c1)) as [[ty n] f].
    destruct (strings.HasSuffix _ _).
    + destruct (observe_next (R := Empty_set) bt event m (string_of_raw c0)
                  (strings.Replace1 (string_of_raw c0)
                     (DeltaWildcard (config bt)) "_PERSECOND")
                  ty (string_of_raw c1) n f rowAge Hm) as (bt' & m' & -> & _).
      eauto.
    + destruct (addAsIs_next (R := Empty_set) event m
                  (strings.Replace1 (string_of_raw c0)
                     (DeltaWildcard (config bt)) "_PERSECOND")
                  ty (string_of_raw c1) n f Hm) as (m' & ->).
      simpl. eauto.
Qed.

(** A single-row or show-slave-delay query whose result has no row emits
    no event and returns the error of [Scan] on the closed cursor. *)
Theorem iterateQuery_no_row_is_an_error (bt : Mysqlbeat) (now : Time)
    (db : DB) (i : nat) (queryType queryStr : string)
    (columns : list string) :
  db_Query db queryStr = inl (sql.open columns []) ->
  queryType = queryTypeSingleRow \/ queryType = queryTypeSlaveDelay ->
  iterateQuery bt now db i queryType queryStr =
    Ok (bt, ([], Some "sql: Rows are closed")).
Proof.
  intros Hq [-> | ->]; unfold iterateQuery; rewrite Hq; reflexivity.
Qed.

(** A single-row result whose only column is a delta column seen for the
    first time gives an event whose [Fields] are [nil]; the event itself is
    not [nil] and is appended to the events of the query. *)
Theorem iterateQuery_appends_event_without_fields (bt : Mysqlbeat)
    (now : Time) (db : DB) (i : nat) (queryStr name : string)
    (cell : RawBytes) :
  db_Query db queryStr = inl (sql.open [name] [[cell]]) ->
  strings.HasSuffix name (DeltaWildcard (config bt)) = true ->
  oldValues bt !! name = None ->
  exists bt',
    iterateQuery bt now db i queryTypeSingleRow queryStr =
      Ok (bt', ([mkEvent now None], None)) /\
    oldValuesAge bt' !! name = Some (ITime now).
Proof.
  intros Hq Hdelta Hfresh.
  unfold iterateQuery. rewrite Hq. simpl.
  unfold generateEventFromRow. simpl.
  rewrite Hdelta. unfold observe, typeColumn. rewrite Hfresh.
  destruct (ParseInt (string_of_raw cell) 0 64) as [n [e|]],
           (ParseFloat (string_of_raw cell) 64) as [f [e'|]];
    simpl; eexists; (split; [reflexivity|]); simpl; apply lookup_insert_eq.
Qed.


(** *** Loops *)
Lemma for_range_app {A S R} (body : S -> nat -> A -> ctl R S) l1 l2 s i :
  for_range body s i (l1 ++ l2)%list =
    match for_range body s i l1 with
    | Next s' => for_range body s' (i + length l1)%nat l2
    | Return r => Return r
    | Crash p => Crash p
    end.
Proof.
  revert s i. induction l1 as [|a l1 IH]; intros s i; simpl.
  - rewrite Nat.add_0_r. reflexivity.
  - destruct (body s i a); try reflexivity.
    rewrite IH. replace (Datatypes.S i + length l1)%nat
      with (i + Datatypes.S (length l1))%nat by lia. reflexivity.
Qed.

Lemma for_range_invariant {A S R} (P : S -> Prop) (Q : R -> Prop)
    (body : S -> nat -> A -> ctl R S) :
  (forall s i a, P s -> ctl_holds P Q (body s i a)) ->
  forall l s i, P s -> ctl_holds P Q (for_range body s i l).
Proof.
  intros Hbody. induction l as [|a l IH]; intros s i Hs; simpl; [assumption|].
  specialize (Hbody s i a Hs). destruct (body s i a); simpl in *; auto.
Qed.

Lemma for_Next_invariant {S R} (P : S -> Prop) (Q : R -> Prop)
    (body : S -> Rows -> ctl R S) :
  (forall s rs, P s -> ctl_holds P Q (body s rs)) ->
  forall todo s rs, P s -> ctl_holds P Q (for_Next body s rs todo).
Proof.
  intros Hbody. induction todo as [|r todo IH]; intros s rs Hs; simpl; [assumption|].
  destruct (sql.Next rs) as [rs' more]. destruct more; [|assumption].
  specialize (Hbody s rs' Hs). destruct (body s rs'); simpl in *; auto.
Qed.

(** *** A multiple-rows query without key column *)

Lemma getKeyFromRow_missing (bt : Mysqlbeat) (values : list RawBytes)
    (columns : list string) :
  length values = length columns ->
  Forall (fun c => strings.HasSuffix c (DeltaKeyWildcard (config bt)) = false)
         columns ->
  getKeyFromRow bt values columns = Ok ("", Some missingKey).
Proof.
  intros Hlen Hno. unfold getKeyFromRow.
  assert (Hloop : forall vs i, (i + length vs = length columns)%nat ->
    for_range (R := Empty_set)
      (fun '(strKey, keyFound) i col =>
         match columns !! i with
         | None => Crash (IndexOutOfRange i (length columns))
         | Some name =>
             if strings.HasSuffix name (DeltaKeyWildcard (config bt))
             then Next (strKey ++ string_of_raw col, true)
             else Next (strKey, keyFound)
         end) ("", false) i vs = Next ("", false)).
  { induction vs as [|v vs IH]; intros i Hi; simpl; [reflexivity|].
    simpl in Hi.
    destruct (columns !! i) as [name|] eqn:Hname.
    - rewrite Forall_lookup in Hno. rewrite (Hno i name Hname).
      apply IH. lia.
    - apply lookup_ge_None in Hname. lia. }
  rewrite (Hloop values 0%nat) by (simpl; lia). reflexivity.
Qed.


Lemma multiple_rows_row_missing_key (bt : Mysqlbeat)
    (values : list RawBytes) (columns : list string) (rowAge : Time) :
  length values = length columns ->
  Forall (fun c => strings.HasSuffix c (DeltaKeyWildcard (config bt)) = false)
         columns ->
  forall vs i event m,
    (i + length vs = length columns)%nat ->
    Fields event = Some m ->
    Exists (fun c => strings.HasSuffix c (DeltaWildcard (config bt)) = true)
           (drop i columns) ->
    for_range
      (generateEventFromRow_column values columns queryTypeMultipleRows rowAge)
      (bt, event) i vs = Return (bt, (None, Some missingKey)).
Proof.
  intros Hlen Hno.
  induction vs as [|v vs IH]; intros i event m Hi Hm Hex.
  - simpl in Hi. rewrite drop_ge in Hex by lia. inversion Hex.
  - simpl in Hi.
    destruct (columns !! i) as [name|] eqn:Hname;
      [|apply lookup_ge_None in Hname; lia].
    rewrite (drop_S _ _ _ Hname) in Hex.
    cbn [for_range]. unfold generateEventFromRow_column at 1.
    rewrite Hname.
    change (String.eqb queryTypeMultipleRows queryTypeSlaveDelay) with false.
    change (String.eqb queryTypeMultipleRows queryTypeSingleRow) with false.
    change (String.eqb queryTypeMultipleRows queryTypeMultipleRows) with true.
    cbn [andb orb].
    destruct (typeColumn (string_of_raw v)) as [[ty n] f].
    destruct (strings.HasSuffix name (DeltaWildcard (config bt))) eqn:Hd.
    + rewrite (getKeyFromRow_missing bt values columns Hlen Hno). reflexivity.
    + destruct (addAsIs_next (R := Mysqlbeat * (option Event * error))
                  event m (eventColumnName bt name) ty (string_of_raw v) n f
                  Hm) as (m' & ->).
      cbn [mbind ctl_bind].
      apply (IH (Datatypes.S i) _ m'); [lia|reflexivity|].
      inversion Hex; subst; [congruence|assumption].
Qed.

Lemma generateEventFromRow_missing_key (bt : Mysqlbeat) (row : Rows)
    (columns : list string) (cells : list RawBytes) (rowAge : Time) :
  sql.Scan row (length columns) = inl cells ->
  length cells = length columns ->
  Forall (fun c => strings.HasSuffix c (DeltaKeyWildcard (config bt)) = false)
         columns ->
  Exists (fun c => strings.HasSuffix c (DeltaWildcard (config bt)) = true)
         columns ->
  generateEventFromRow bt row columns queryTypeMultipleRows rowAge =
    Ok (bt, (None, Some missingKey)).
Proof.
  intros Hscan Hlen Hno Hex. unfold generateEventFromRow.
  cbn [generateEmptyEvent]. rewrite Hscan.
  erewrite multiple_rows_row_missing_key; eauto.
Qed.

Lemma iterateQuery_missing_key (bt : Mysqlbeat) (now : Time) (db : DB)
    (i : nat) (queryStr : string) (columns : list string)
    (row : list RawBytes) (rows : list (list RawBytes)) :
  db_Query db queryStr = inl (sql.open columns (row :: rows)) ->
  length row = length columns ->
  Forall (fun c => strings.HasSuffix c (DeltaKeyWildcard (config bt)) = false)
         columns ->
  Exists (fun c => strings.HasSuffix c (DeltaWildcard (config bt)) = true)
         columns ->
  iterateQuery bt now db i queryTypeMultipleRows queryStr =
    Ok (bt, ([], Some missingKey)).
Proof.
  intros Hq Hlen Hno Hex. unfold iterateQuery. rewrite Hq.
  cbn [sql.Columns sql.open rs_closed rs_columns rs_pending].
  change (String.eqb queryTypeMultipleRows queryTypeSlaveDelay) with false.
  change (String.eqb queryTypeMultipleRows queryTypeSingleRow) with false.
  change (String.eqb queryTypeMultipleRows queryTypeMultipleRows) with true.
  cbn [orb for_Next sql.Next rs_closed rs_pending rs_columns].
  change (sql.Next (sql.open columns (row :: rows)))
    with (mkRows columns (Some row) rows false, true).
  cbv beta iota.
  rewrite (generateEventFromRow_missing_key bt _ columns row now); auto.
  unfold sql.Scan. cbn [rs_closed rs_lastcols].
  rewrite Hlen, Nat.eqb_refl. reflexivity.
Qed.

(** *** What every run keeps: the configuration and the ages *)

Lemma evolves_refl bt : evolves bt bt.
Proof. split; auto. Qed.

Lemma evolves_trans bt1 bt2 bt3 :
  evolves bt1 bt2 -> evolves bt2 bt3 -> evolves bt1 bt3.
Proof. intros [H1 H2] [H3 H4]. split; [congruence|auto]. Qed.

Lemma evolves_store bt k v t :
  evolves bt (set_oldValues (set_oldValuesAge bt k (ITime t)) k v).
Proof.
  split; [reflexivity|]. intros Hwf k' Hk'. simpl in *.
  destruct (decide (k = k')) as [->|Hne].
  - exists t. apply lookup_insert_eq.
  - rewrite lookup_insert_ne in Hk' by assumption.
    rewrite lookup_insert_ne by assumption. auto.
Qed.

Lemma evolves_update bt k v t :
  evolves bt (set_oldValuesAge (set_oldValues bt k v) k (ITime t)).
Proof.
  split; [reflexivity|]. intros Hwf k' Hk'. simpl in *.
  destruct (decide (k = k')) as [->|Hne].
  - exists t. apply lookup_insert_eq.
  - rewrite lookup_insert_ne in Hk' by assumption.
    rewrite lookup_insert_ne by assumption. auto.
Qed.

Lemma observe_evolves {R} bt event strKey name ty s n f t :
  ctl_holds (fun st : Mysqlbeat * Event => evolves bt st.1)
            (fun _ : R => False)
            (observe bt event strKey name ty s n f t).
Proof.
  unfold observe.
  destruct (oldValues bt !! strKey) as [old|].
  - destruct (oldValuesAge bt !! strKey) as [[| | |t0]|];
      try apply evolves_refl.
    destruct (ty =? columnTypeInt); [|destruct (ty =? columnTypeFloat)];
      unfold set_field; destruct (Fields event); simpl;
      auto using evolves_refl, evolves_update.
  - destruct (ty =? columnTypeString); [|destruct (ty =? columnTypeInt);
      [|destruct (ty =? columnTypeFloat)]]; simpl;
      auto using evolves_store.
    split; [reflexivity|]. intros Hwf k' Hk'. simpl in *.
    destruct (decide (strKey = k')) as [->|Hne].
    + exists t. apply lookup_insert_eq.
    + rewrite lookup_insert_ne by assumption. auto.
Qed.

Lemma getKeyFromRow_cases bt values columns :
  (exists k e, getKeyFromRow bt values columns = Ok (k, e)) \/
  (exists p, getKeyFromRow bt values columns = Panics p).
Proof.
  unfold getKeyFromRow.
  destruct (for_range _ _ _ _) as [[k b]|[]|p]; eauto.
Qed.

Lemma column_evolves bt0 values columns queryType rowAge st i col :
  evolves bt0 st.1 ->
  ctl_holds (fun st' : Mysqlbeat * Event => evolves bt0 st'.1)
            (fun r : Mysqlbeat * (option Event * error) => evolves bt0 r.1)
            (generateEventFromRow_column values columns queryType rowAge
               st i col).
Proof.
  destruct st as [bt event]. simpl. intros Hev.
  unfold generateEventFromRow_column.
  destruct (columns !! i) as [name|]; [|exact I].
  destruct (_ && _); [assumption|].
  destruct (typeColumn (string_of_raw col)) as [[ty n] f].
  destruct (_ && _).
  - assert (Hobs : forall k,
      ctl_holds (fun st' : Mysqlbeat * Event => evolves bt0 st'.1)
        (fun r : Mysqlbeat * (option Event * error) => evolves bt0 r.1)
        (observe bt event k
           (eventColumnName bt name)
           ty (string_of_raw col) n f rowAge)).
    { intros k.
      pose proof (observe_evolves (R := Mysqlbeat * (option Event * error))
                    bt event k
                    (eventColumnName bt name)
                    ty (string_of_raw col) n f rowAge) as Ho.
      destruct (observe _ _ _ _ _ _ _ _ _) as [[bt' ev']| |]; simpl in *;
        eauto using evolves_trans. contradiction. }
    destruct (String.eqb queryType queryTypeSingleRow); [apply Hobs|].
    destruct (String.eqb queryType queryTypeMultipleRows); [|apply Hobs].
    destruct (getKeyFromRow_cases bt values columns)
      as [(k & [e|] & ->)|(p & ->)]; simpl; auto.
  - unfold addAsIs, set_field.
    destruct (ty =? columnTypeString); [|destruct (ty =? columnTypeInt);
      [|destruct (ty =? columnTypeFloat)]];
      destruct (Fields event); simpl; auto.
Qed.

Lemma generateEventFromRow_evolves bt row columns queryType rowAge :
  match generateEventFromRow bt row columns queryType rowAge with
  | Ok (bt', _) => evolves bt bt'
  | Panics _ => True
  end.
Proof.
  unfold generateEventFromRow. cbn [generateEmptyEvent].
  destruct (sql.Scan row (length columns)) as [values|err];
    [|apply evolves_refl].
  pose proof (for_range_invariant
                (fun st' : Mysqlbeat * Event => evolves bt st'.1)
                (fun r : Mysqlbeat * (option Event * error) => evolves bt r.1)
                (generateEventFromRow_column values columns queryType rowAge)
                (fun st i a Hs => column_evolves bt values columns queryType
                                    rowAge st i a Hs)
                values
                (bt, mkEvent rowAge (Some {[ "type" := IString queryType ]}))
                0%nat (evolves_refl bt)) as Hinv.
  destruct (for_range _ _ _ _) as [[bt' ev']|[bt' r]|p]; simpl in *; auto.
Qed.

Lemma appendRowToEvent_evolves bt event row columns rowAge :
  match appendRowToEvent bt event row columns rowAge with
  | Ok (bt', _, _) => evolves bt bt'
  | Panics _ => True
  end.
Proof.
  unfold appendRowToEvent.
  destruct (sql.Scan row (length columns)) as [values|err];
    [|apply evolves_refl].
  destruct (values !! 0%nat) as [v0|]; [|exact I].
  destruct (values !! 1%nat) as [v1|]; [|exact I].
  destruct (typeColumn (string_of_raw v1)) as [[ty n] f].
  destruct (strings.HasSuffix _ _).
  - pose proof (observe_evolves (R := Empty_set) bt event (string_of_raw v0)
                  (strings.Replace1 (string_of_raw v0)
                     (DeltaWildcard (config bt)) "_PERSECOND")
                  ty (string_of_raw v1) n f rowAge) as Ho.
    destruct (observe _ _ _ _ _ _ _ _ _) as [[bt' ev']|[]|]; simpl in *; auto.
  - unfold addAsIs, set_field.
    destruct (ty =? columnTypeString); [|destruct (ty =? columnTypeInt);
      [|destruct (ty =? columnTypeFloat)]];
      destruct (Fields event); simpl; auto using evolves_refl.
Qed.

Lemma iterateQuery_evolves bt now db i queryType queryStr :
  match iterateQuery bt now db i queryType queryStr with
  | Ok (bt', _) => evolves bt bt'
  | Panics _ => True
  end.
Proof.
  unfold iterateQuery.
  destruct (db_Query db queryStr) as [rows|err]; [|apply evolves_refl].
  destruct (sql.Columns rows) as [columns|err]; [|apply evolves_refl].
  destruct (_ || _).
  - destruct (sql.Next rows) as [rows' more].
    pose proof (generateEventFromRow_evolves bt rows' columns queryType now) as Hg.
    destruct (generateEventFromRow _ _ _ _ _) as [[bt' [ev err]]|]; auto.
  - destruct (String.eqb queryType queryTypeMultipleRows).
    + match goal with
      | |- match match for_Next ?body ?s ?rs ?todo with _ => _ end with _ => _ end =>
          assert (Hinv : ctl_holds
                    (fun st : Mysqlbeat * list Event => evolves bt st.1)
                    (fun r : Mysqlbeat * (list Event * error) => evolves bt r.1)
                    (for_Next body s rs todo));
          [apply for_Next_invariant; [|apply evolves_refl]
          |revert Hinv;
           destruct (for_Next body s rs todo) as [[bt' evs]|[bt' r]|p];
           simpl; auto]
      end.
      intros [bt1 evs1] rs1 Hs; simpl in *.
      pose proof (generateEventFromRow_evolves bt1 rs1 columns queryType now) as Hg.
      destruct (generateEventFromRow _ _ _ _ _) as [[bt2 [[ev|] [err|]]]|];
        simpl; eauto using evolves_trans.
    + destruct (String.eqb queryType queryTypeTwoColumns);
        [|apply evolves_refl].
      cbn [generateEmptyEvent].
      match goal with
      | |- match match for_Next ?body ?s ?rs ?todo with _ => _ end with _ => _ end =>
          assert (Hinv : ctl_holds
                    (fun st : Mysqlbeat * Event => evolves bt st.1)
                    (fun r : Mysqlbeat * (list Event * error) => evolves bt r.1)
                    (for_Next body s rs todo));
          [apply for_Next_invariant; [|apply evolves_refl]
          |revert Hinv;
           destruct (for_Next body s rs todo) as [[bt' evs]|[bt' r]|p];
           simpl; auto]
      end.
      intros [bt1 ev1] rs1 Hs; simpl in *.
      pose proof (appendRowToEvent_evolves bt1 ev1 rs1 columns now) as Hg.
      destruct (appendRowToEvent _ _ _ _ _) as [[[bt2 ev2] [err|]]|];
        simpl; eauto using evolves_trans.
Qed.

Lemma beat_query_evolves bt0 w db st i query :
  evolves bt0 st.1 ->
  ctl_holds (fun st' : Mysqlbeat * list Event => evolves bt0 st'.1)
            (fun r : Mysqlbeat * list Event * error => evolves bt0 r.1.1)
            (beat_query w db st i query).
Proof.
  destruct st as [bt published]. simpl. intros Hev. unfold beat_query.
  pose proof (iterateQuery_evolves bt (time_Now w i) db i (QType query)
                (SQL query)) as Hi.
  destruct (iterateQuery _ _ _ _ _ _) as [[bt' [evs [err|]]]|];
    simpl; eauto using evolves_trans.
Qed.

Lemma beat_evolves bt w :
  match beat bt w with
  | Ok (bt', _, _) => evolves bt bt'
  | Panics _ => True
  end.
Proof.
  unfold beat. destruct (sql_Open w _ _) as [db|err]; [|apply evolves_refl].
  pose proof (for_range_invariant _ _ (beat_query w db)
                (fun st i a Hs => beat_query_evolves bt w db st i a Hs)
                (Queries (config bt)) (bt, []) 0%nat (evolves_refl bt)) as Hinv.
  destruct (for_range _ _ _ _) as [[bt' pub]|[[bt' pub] err]|p];
    simpl in *; auto.
Qed.

(** Starting from the empty rate state of [New], every cycle keeps the
    configuration and leaves every saved value with its age. *)
Lemma beat_keeps_rate_state_wf bt w :
  rate_state_wf bt ->
  match beat bt w with
  | Ok (bt', _, _) => config bt' = config bt /\ rate_state_wf bt'
  | Panics _ => True
  end.
Proof.
  intros Hwf. pose proof (beat_evolves bt w) as He.
  destruct (beat bt w) as [[[bt' pub] err]|]; [|exact I].
  destruct He as [Hc Hw]. auto.
Qed.

End Claims.

(** ** Runs on the sample data *)

Lemma typeColumn_valueTyper_witness :
  (typeColumn "42").1.1 = columnTypeInt /\ valueTyper "42" = TInteger 42.
Proof.
  pose proof (typeColumn_valueTyper "42") as Hty.
  destruct (typeColumn "42") as [[ty n] f] eqn:Hrun.
  destruct Hty as (_ & _ & Hint).
  destruct (Hint 42 (F64.of_Z 42) eq_refl eq_refl) as (Hc & _ & Hv).
  split; [exact Hc | exact Hv].
Defined.

Lemma observe_cold_start_then_rate_witness :
  exists bt1 bt2,
    observeCell (R := Empty_set) (Sample.fresh []) (Sample.blank queryTypeSingleRow 0)
      "Queries_delta" "Queries_PERSECOND" "100" 0
    = Next (bt1, Sample.blank queryTypeSingleRow 0) /\
    observeCell (R := Empty_set) bt1 (Sample.blank queryTypeSingleRow 10000000000)
      "Queries_delta" "Queries_PERSECOND" "125" 10000000000
    = Next (bt2,
            mkEvent 10000000000
              (Some (<["Queries_PERSECOND" := IInt64 3]>
                       {[ "type" := IString queryTypeSingleRow ]}))).
Proof.
  destruct (observe_cold_start_then_rate (R := Empty_set) (Sample.fresh [])
              (Sample.blank queryTypeSingleRow 0)
              "Queries_delta" "Queries_PERSECOND" "100" 0 eq_refl)
    as (bt1 & Hfirst & _ & _ & Hsecond).
  destruct (Hsecond 100 125 "125" 10000000000
              (Sample.blank queryTypeSingleRow 10000000000)
              {[ "type" := IString queryTypeSingleRow ]}
              eq_refl eq_refl ltac:(lia) ltac:(vm_compute; discriminate)
              ltac:(lia) eq_refl ltac:(vm_compute; discriminate) eq_refl)
    as (bt2 & Hrate & _).
  exists bt1, bt2. split; [exact Hfirst | exact Hrate].
Defined.

(** The difference of the two values is taken in [int64]: from the saved
    value [-1] to the largest [int64], one second later, it wraps around and
    the rate that is added is negative, where the claim has the rounded
    quotient of [2 ^ 63] by one second. *)
Lemma int64_difference_wraps_counterexample :
  observeCell (R := Empty_set)
    (Sample.tracked (IInt64 (-1)))
    (Sample.blank queryTypeSingleRow 1000000000)
    "Queries_delta" "Queries_PERSECOND" "9223372036854775807" 1000000000
  = Next (mkMysqlbeat (Sample.cfg [])
            (<["Queries_delta" := IInt64 9223372036854775807]>
               {[ "Queries_delta" := IInt64 (-1) ]})
            (<["Queries_delta" := ITime 1000000000]>
               {[ "Queries_delta" := ITime 0 ]}),
          mkEvent 1000000000
            (Some (<["Queries_PERSECOND" := IInt64 (-9223372036854775808)]>
                     {[ "type" := IString queryTypeSingleRow ]}))).
Proof. vm_compute. reflexivity. Qed.

Lemma observe_reset_is_zero_witness :
  observeCell (R := Empty_set) (Sample.tracked (IInt64 100))
    (Sample.blank queryTypeSingleRow 10000000000)
    "Queries_delta" "Queries_PERSECOND" "40" 10000000000
  = Next (mkMysqlbeat (Sample.cfg [])
            (<["Queries_delta" := IInt64 40]> {[ "Queries_delta" := IInt64 100 ]})
            (<["Queries_delta" := ITime 10000000000]>
               {[ "Queries_delta" := ITime 0 ]}),
          mkEvent 10000000000
            (Some (<["Queries_PERSECOND" := IInt64 0]>
                     {[ "type" := IString queryTypeSingleRow ]}))).
Proof.
  refine (proj1 (observe_reset_is_zero (R := Empty_set)
                   (Sample.tracked (IInt64 100))
                   (Sample.blank queryTypeSingleRow 10000000000)
                   {[ "type" := IString queryTypeSingleRow ]}
                   "Queries_delta" "Queries_PERSECOND" "40" 0 10000000000
                   _ _) 100 40 _ _ _);
    [reflexivity | reflexivity | reflexivity | reflexivity | lia].
Defined.

Lemma observe_string_keeps_state_witness :
  observeCell (R := Empty_set) (Sample.tracked (IString "ON"))
    (Sample.blank queryTypeSingleRow 10000000000)
    "Queries_delta" "Queries_PERSECOND" "OFF" 10000000000
  = Next (Sample.tracked (IString "ON"),
          mkEvent 10000000000
            (Some (<["Queries_PERSECOND" := IString "OFF"]>
                     {[ "type" := IString queryTypeSingleRow ]}))).
Proof.
  refine (observe_string_keeps_state (R := Empty_set)
            (Sample.tracked (IString "ON"))
            (Sample.blank queryTypeSingleRow 10000000000)
            {[ "type" := IString queryTypeSingleRow ]}
            "Queries_delta" "Queries_PERSECOND" "OFF" (IString "ON")
            0 10000000000 0 (S754_zero false)
            "invalid syntax" "invalid syntax" _ _ _ _ _);
    reflexivity.
Defined.

(** After a string value the saved state is the old one, not the current
    value and time: the claim that it is overwritten fails here. *)
Lemma string_value_state_counterexample :
  exists bt' event',
    generateEventFromRow (Sample.tracked (IString "ON"))
      (mkRows ["Queries_delta"] (Some [Some "OFF"]) [] false)
      ["Queries_delta"] queryTypeSingleRow 10000000000
    = Ok (bt', (Some event', None)) /\
    oldValues bt' !! "Queries_delta" = Some (IString "ON") /\
    oldValues bt' !! "Queries_delta" <> Some (IString "OFF") /\
    oldValuesAge bt' !! "Queries_delta" = Some (ITime 0) /\
    oldValuesAge bt' !! "Queries_delta" <> Some (ITime 10000000000).
Proof.
  eexists _, _. split; [vm_compute; reflexivity|].
  repeat split; try reflexivity; vm_compute; discriminate.
Qed.

Lemma observe_same_instant_emits_witness :
  exists bt',
    observeCell (R := Empty_set) (Sample.tracked (IInt64 100))
      (Sample.blank queryTypeSingleRow 0)
      "Queries_delta" "Queries_PERSECOND" "150" 0
    = Next (bt',
            mkEvent 0
              (Some (<["Queries_PERSECOND" := IInt64 min_int64]>
                       {[ "type" := IString queryTypeSingleRow ]}))).
Proof.
  pose proof (proj2 (observe_same_instant_emits (R := Empty_set)
                       (Sample.tracked (IInt64 100))
                       (Sample.blank queryTypeSingleRow 0)
                       {[ "type" := IString queryTypeSingleRow ]}
                       "Queries_delta" "Queries_PERSECOND" "150" (IInt64 100) 0
                       eq_refl eq_refl eq_refl)) as Hint.
  destruct (Hint 100 150) as (bt' & Hrun); [reflexivity | reflexivity | lia |].
  exists bt'. exact Hrun.
Defined.

(** C2. Two rows with the same key in one result set are observed at the
    same instant. The code does not guard the elapsed time of zero: the
    [float64] division gives [+Inf], no panic occurs, and the rate field
    [hits_PERSECOND] is added to the second event with the conversion of
    [+Inf] to [int64], which is [min_int64] on amd64; the specification
    asks that no rate field be emitted in that cycle. *)
Theorem same_key_twice_in_one_result :
  exists bt' first,
    iterateQuery (Sample.fresh []) 0 (Sample.db Sample.answers) 0
      queryTypeMultipleRows "SELECT twice"
    = Ok (bt',
          ([first;
            mkEvent 0
              (Some (<["hits_PERSECOND" := IInt64 min_int64]>
                       (<["host" := IString "a"]>
                          {[ "type" := IString queryTypeMultipleRows ]})))],
           None)).
Proof. vm_compute. eexists _, _. reflexivity. Qed.

Lemma appendRowToEvent_needs_two_columns_witness :
  appendRowToEvent (Sample.fresh []) (Sample.blank queryTypeTwoColumns 0)
    (mkRows ["Variable_name"] (Some [Some "Uptime"]) [] false)
    ["Variable_name"] 0
  = Panics (IndexOutOfRange 1 1) /\
  exists bt' event',
    appendRowToEvent (Sample.fresh []) (Sample.blank queryTypeTwoColumns 0)
      (mkRows ["Variable_name"; "Value"] (Some [Some "Uptime"; Some "7"]) []
              false)
      ["Variable_name"; "Value"] 0
    = Ok (bt', event', None).
Proof.
  split.
  - refine (proj1 (proj2 (appendRowToEvent_needs_two_columns (Sample.fresh [])
                            (Sample.blank queryTypeTwoColumns 0)
                            ["Variable_name"] [Some "Uptime"] [] 0 _)) _);
      reflexivity.
  - refine (proj2 (proj2 (appendRowToEvent_needs_two_columns (Sample.fresh [])
                            (Sample.blank queryTypeTwoColumns 0)
                            ["Variable_name"; "Value"]
                            [Some "Uptime"; Some "7"] [] 0 _)) _ _);
      [reflexivity | simpl; lia | discriminate].
Defined.

Lemma iterateQuery_no_row_is_an_error_witness :
  iterateQuery (Sample.fresh [Sample.nothing]) 0 (Sample.db Sample.answers) 0
    queryTypeSingleRow "SELECT nothing"
  = Ok (Sample.fresh [Sample.nothing], ([], Some "sql: Rows are closed")).
Proof.
  refine (iterateQuery_no_row_is_an_error (Sample.fresh [Sample.nothing]) 0
            (Sample.db Sample.answers) 0 queryTypeSingleRow "SELECT nothing"
            ["Threads_running"] _ _);
    [reflexivity | left; reflexivity].
Defined.

(** C8. A numeric series whose cells change their type between two cycles:
    the saved value is read with an unchecked type assertion, which gives
    zero when the saved value has the other type, so that the current value
    is compared with zero and not with the saved value. The counter saved
    as the float [7.5] and read as the integer [5] ten seconds later has
    fallen, and the rate [roundF2I (5 / 10) = 1] is added; the counter saved
    as the integer [100] and read as the float [40.5] has fallen, and the
    rate [40.5 / 10 = 4.05] is added. The specification asks for the rate
    zero in both cases. *)
Theorem reset_after_type_change_emits_rate :
  let first (cell : string) :=
    beat (Sample.fresh [Sample.counter])
         (Sample.world (Sample.db (Sample.counter_answers cell)) 0) in
  let second (saved : iface) (cell : string) :=
    beat (mkMysqlbeat (Sample.cfg [Sample.counter])
            {[ "Queries_delta" := saved ]} {[ "Queries_delta" := ITime 0 ]})
         (Sample.world (Sample.db (Sample.counter_answers cell))
            10000000000) in
  let after (saved : iface) :=
    mkMysqlbeat (Sample.cfg [Sample.counter])
      (<["Queries_delta" := saved]> ∅)
      (<["Queries_delta" := ITime 10000000000]> ∅) in
  let rate (v : iface) :=
    mkEvent 10000000000
      (Some (<["Queries_PERSECOND" := v]>
               {[ "type" := IString queryTypeSingleRow ]})) in
  let seven_and_a_half := S754_finite false 8444249301319680 (-50) in
  let forty_and_a_half := S754_finite false 5699868278390784 (-47) in
  let four_point_o_five := S754_finite false 4559894622712627 (-50) in
  first "7.5" =
    Ok (mkMysqlbeat (Sample.cfg [Sample.counter])
          {[ "Queries_delta" := IFloat64 seven_and_a_half ]}
          {[ "Queries_delta" := ITime 0 ]},
        [mkEvent 0 None], None) /\
  second (IFloat64 seven_and_a_half) "5" =
    Ok (after (IInt64 5), [rate (IInt64 1)], None) /\
  first "100" =
    Ok (mkMysqlbeat (Sample.cfg [Sample.counter])
          {[ "Queries_delta" := IInt64 100 ]}
          {[ "Queries_delta" := ITime 0 ]},
        [mkEvent 0 None], None) /\
  second (IInt64 100) "40.5" =
    Ok (after (IFloat64 forty_and_a_half),
        [rate (IFloat64 four_point_o_five)], None).
Proof. repeat split; vm_compute; reflexivity. Qed.

(** C4. A single-row query whose result has no row emits no event, but it
    is an error in the code: [rows.Next()] is not tested, [Scan] fails on
    the closed cursor, [iterateQuery] returns that error and [beat] ends
    the cycle with it, so that the query after it is not run. The loops of
    the other two modes test [rows.Next()] and take an empty result without
    error. *)
Theorem empty_result_ends_cycle :
  beat (Sample.fresh [Sample.nothing; Sample.threads])
       (Sample.world (Sample.db Sample.answers) 0)
  = Ok (Sample.fresh [Sample.nothing; Sample.threads], [],
        Some "sql: Rows are closed").
Proof. vm_compute. reflexivity. Qed.

Lemma iterateQuery_appends_event_without_fields_witness :
  exists bt',
    iterateQuery (Sample.fresh [Sample.counter]) 0 (Sample.db Sample.answers)
      0 queryTypeSingleRow "SELECT counter"
    = Ok (bt', ([mkEvent 0 None], None)).
Proof.
  destruct (iterateQuery_appends_event_without_fields
              (Sample.fresh [Sample.counter]) 0 (Sample.db Sample.answers) 0
              "SELECT counter" "Queries_delta" (Some "100"))
    as (bt' & Hrun & _); [reflexivity | reflexivity | reflexivity |].
  exists bt'. exact Hrun.
Defined.

(** C5. An event with no field beyond its type is not suppressed: the code
    sets [event.Fields], not [event], to [nil], the test [event != nil] of
    [iterateQuery] holds, and the event without fields is appended and
    handed to the publisher. *)
Theorem event_without_fields_is_published :
  exists bt',
    beat (Sample.fresh [Sample.counter])
         (Sample.world (Sample.db Sample.answers) 0)
    = Ok (bt', [mkEvent 0 None], None).
Proof. vm_compute. eexists. reflexivity. Qed.

(** A multiple-rows query without key column, followed by a single-row
    query: the error ends the cycle and nothing is published, although the
    second query, run alone, emits its record; and a multiple-rows query
    without key column and without delta column is no error at all. The
    claim that the other queries of the cycle still emit their records
    fails here. *)
Lemma missing_key_column_counterexample :
  beat (Sample.fresh [Sample.hits; Sample.threads])
       (Sample.world (Sample.db Sample.answers) 0)
  = Ok (Sample.fresh [Sample.hits; Sample.threads], [], Some missingKey) /\
  iterateQuery (Sample.fresh [Sample.hits; Sample.threads]) 0
    (Sample.db Sample.answers) 1 queryTypeSingleRow "SELECT threads"
  = Ok (Sample.fresh [Sample.hits; Sample.threads],
        ([mkEvent 0
            (Some (<["Threads_running" := IInt64 5]>
                     {[ "type" := IString queryTypeSingleRow ]}))], None)) /\
  exists event,
    iterateQuery (Sample.fresh []) 0 (Sample.db Sample.answers) 0
      queryTypeMultipleRows "SELECT plain"
    = Ok (Sample.fresh [], ([event], None)).
Proof.
  split; [vm_compute; reflexivity|].
  split; [vm_compute; reflexivity|].
  vm_compute. eexists. reflexivity.
Qed.

(** ** Further properties *)

(** X1. An observation of one series key leaves the saved value and age
    of every other key as they were: the rate series are independent. *)
Theorem observe_other_keys {R} {strconv_impl : Strconv} {arch_impl : Arch}
    (bt bt' : Mysqlbeat) (event event' : Event)
    (strKey name s other : string) (t : Time) :
  observeCell (R := R) bt event strKey name s t = Next (bt', event') ->
  other <> strKey ->
  oldValues bt' !! other = oldValues bt !! other /\
  oldValuesAge bt' !! other = oldValuesAge bt !! other.
Proof.
  intros Hrun Hne. revert Hrun. unfold observeCell, observe.
  destruct (typeColumn s) as [[ty n] f].
  destruct (oldValues bt !! strKey) as [old|].
  - destruct (oldValuesAge bt !! strKey) as [[| | |t0]|];
      try (intros [= <- <-]; split; reflexivity).
    destruct (ty =? columnTypeInt); [|destruct (ty =? columnTypeFloat)];
      unfold set_field; destruct (Fields event); simpl;
      intros [= <- <-]; simpl; rewrite ?lookup_insert_ne by congruence;
      split; reflexivity.
  - destruct (ty =? columnTypeString); [|destruct (ty =? columnTypeInt);
      [|destruct (ty =? columnTypeFloat)]];
      intros [= <- <-]; simpl; rewrite ?lookup_insert_ne by congruence;
      split; reflexivity.
Qed.

Lemma observe_other_keys_witness :
  oldValues (Sample.tracked (IInt64 100)) !! "Queries_delta"
  = Some (IInt64 100) /\
  exists bt' event',
    observeCell (R := Empty_set) (Sample.tracked (IInt64 100))
      (Sample.blank queryTypeMultipleRows 7) "bhits_delta" "hits_PERSECOND"
      "12" 7
    = Next (bt', event') /\
    oldValues bt' !! "Queries_delta" = Some (IInt64 100) /\
    oldValuesAge bt' !! "Queries_delta" = Some (ITime 0).
Proof.
  split; [reflexivity|]. eexists _, _.
  assert (Hrun : observeCell (R := Empty_set) (Sample.tracked (IInt64 100))
                   (Sample.blank queryTypeMultipleRows 7) "bhits_delta"
                   "hits_PERSECOND" "12" 7
                 = Next (set_oldValues
                           (set_oldValuesAge (Sample.tracked (IInt64 100))
                              "bhits_delta" (ITime 7))
                           "bhits_delta" (IInt64 12),
                         Sample.blank queryTypeMultipleRows 7))
    by reflexivity.
  split; [exact Hrun|].
  destruct (observe_other_keys _ _ _ _ _ _ _ "Queries_delta" _ Hrun) as [Hv Ha];
    [discriminate|].
  rewrite Hv, Ha. split; reflexivity.
Defined.

(** X2. The configuration is never changed by a cycle, and a rate state
    in which every saved value has an age, as the empty state of [New] is, is
    still so after the cycle. *)
Theorem beat_keeps_rate_state {strconv_impl : Strconv} {arch_impl : Arch}
    (bt : Mysqlbeat) (w : World) :
  rate_state_wf bt ->
  match beat bt w with
  | Ok (bt', _, _) => config bt' = config bt /\ rate_state_wf bt'
  | Panics _ => True
  end.
Proof. apply beat_keeps_rate_state_wf. Qed.

Lemma beat_keeps_rate_state_witness :
  exists bt' published err,
    beat (Sample.fresh [Sample.status])
         (Sample.world (Sample.db (Sample.status_answers "100")) 0)
    = Ok (bt', published, err) /\
    config bt' = Sample.cfg [Sample.status] /\ rate_state_wf bt'.
Proof.
  assert (Hwf : rate_state_wf (Sample.fresh [Sample.status])).
  { intros k [v Hk]. vm_compute in Hk. discriminate Hk. }
  pose proof (beat_keeps_rate_state (Sample.fresh [Sample.status])
                (Sample.world (Sample.db (Sample.status_answers "100")) 0) Hwf)
    as Hkeep.
  destruct (beat _ _) as [[[bt' published] err]|] eqn:Hrun;
    [|vm_compute in Hrun; discriminate Hrun].
  exists bt', published, err. split; [reflexivity|exact Hkeep].
Defined.

(** X3. A series that changes its type: when the saved value is not an
    integer (a float or a string saved by an earlier cycle) and the current
    cell parses as an integer [v2], the type assertion on the saved value
    gives [0], so that the rate is computed from [v2 - 0] when [v2] is
    positive and is [0] otherwise, whatever the saved value was; the state
    is overwritten with [(v2, t1)]. *)
Theorem observe_type_change {R} {strconv_impl : Strconv} {arch_impl : Arch}
    (bt : Mysqlbeat) (event : Event) (m : MapStr)
    (strKey name s : string) (old : iface) (v2 : Z) (t0 t1 : Time) :
  Fields event = Some m ->
  oldValues bt !! strKey = Some old ->
  (forall n, old <> IInt64 n) ->
  oldValuesAge bt !! strKey = Some (ITime t0) ->
  ParseInt s 0 64 = (v2, None) ->
  observeCell (R := R) bt event strKey name s t1 =
    Next (mkMysqlbeat (config bt)
            (<[strKey := IInt64 v2]> (oldValues bt))
            (<[strKey := ITime t1]> (oldValuesAge bt)),
          mkEvent (Timestamp event)
            (Some (<[name :=
                      IInt64 (if 0 <? v2
                              then roundF2I
                                     (F64.div (F64.of_Z (sub64 v2 0))
                                        (time.Seconds (time.Sub t1 t0)))
                                     F64.half
                              else 0)]> m))).
Proof.
  intros Hm Hold Hty Hage Hv2.
  unfold observeCell. rewrite (typeColumn_int s v2 Hv2).
  unfold observe. rewrite Hold, Hage. simpl.
  assert (Hzero : match old with IInt64 n => n | _ => 0 end = 0).
  { destruct old; try reflexivity. exfalso. eapply Hty. reflexivity. }
  rewrite Hzero, (set_field_some _ m) by assumption. reflexivity.
Qed.

Lemma observe_type_change_witness :
  observeCell (R := Empty_set)
    (Sample.tracked (IFloat64 (S754_finite false 8444249301319680 (-50))))
    (Sample.blank queryTypeSingleRow 10000000000)
    "Queries_delta" "Queries_PERSECOND" "5" 10000000000
  = Next (mkMysqlbeat (Sample.cfg [])
            (<["Queries_delta" := IInt64 5]>
               {[ "Queries_delta" :=
                    IFloat64 (S754_finite false 8444249301319680 (-50)) ]})
            (<["Queries_delta" := ITime 10000000000]>
               {[ "Queries_delta" := ITime 0 ]}),
          mkEvent 10000000000
            (Some (<["Queries_PERSECOND" := IInt64 1]>
                     {[ "type" := IString queryTypeSingleRow ]}))).
Proof.
  refine (observe_type_change
            (Sample.tracked (IFloat64 (S754_finite false 8444249301319680 (-50))))
            (Sample.blank queryTypeSingleRow 10000000000)
            {[ "type" := IString queryTypeSingleRow ]}
            "Queries_delta" "Queries_PERSECOND" "5"
            (IFloat64 (S754_finite false 8444249301319680 (-50)))
            5 0 10000000000 _ _ _ _ _);
    try reflexivity.
  intros n Hn. discriminate Hn.
Defined.

(** *** Creation *)

Section Creation.

Context {unicode_impl : Unicode}.

Lemma New_query_closed queries : forall safeQueries i,
  for_range New_query safeQueries i queries =
    match List.find (fun q => negb (knownType q)) queries with
    | Some q => Return (None, Some ("unknown query type: " ++ QType q))
    | None => Next (safeQueries && negb (existsb unsafeQuery queries))
    end.
Proof.
  induction queries as [|q queries IH]; intros safe i; simpl.
  - now rewrite andb_true_r.
  - unfold New_query at 1. destruct (knownType q); simpl; [|reflexivity].
    rewrite IH. destruct (List.find _ queries); [reflexivity|].
    f_equal. destruct (unsafeQuery q), safe; reflexivity.
Qed.

Lemma New_closed_form (cfg : commonConfig) :
  New cfg =
    match Unpack cfg DefaultConfig with
    | inr err => Ok (None, Some ("error reading config file: " ++ err))
    | inl c =>
        match Queries c with
        | [] => Ok (None, Some errNoQueries)
        | _ :: _ =>
            match List.find (fun q => negb (knownType q)) (Queries c) with
            | Some q => Ok (None, Some ("unknown query type: " ++ QType q))
            | None =>
                if existsb unsafeQuery (Queries c)
                then Ok (None, Some errUnsafe)
                else Ok (Some (mkMysqlbeat c ∅ ∅), None)
            end
        end
    end.
Proof.
  unfold New. destruct (Unpack cfg DefaultConfig) as [c|err]; [|reflexivity].
  destruct (Queries c) as [|q qs] eqn:Hq; [reflexivity|].
  change (length (q :: qs) <? 1)%nat with false. cbv iota.
  rewrite New_query_closed.
  destruct (List.find _ (q :: qs)); [reflexivity|].
  rewrite andb_true_l, negb_involutive.
  destruct (existsb unsafeQuery (q :: qs)); reflexivity.
Qed.

Lemma New_beater_iff (cfg : commonConfig) (bt : Mysqlbeat) (e : error) :
  New cfg = Ok (Some bt, e) <->
  exists c,
    Unpack cfg DefaultConfig = inl c /\
    Queries c <> [] /\
    Forall (fun q => knownType q = true /\ unsafeQuery q = false)
           (Queries c) /\
    bt = mkMysqlbeat c ∅ ∅ /\ e = None.
Proof.
  rewrite New_closed_form. split.
  - destruct (Unpack cfg DefaultConfig) as [c|err]; [|discriminate].
    destruct (Queries c) as [|q qs] eqn:Hq; [discriminate|].
    destruct (List.find _ (q :: qs)) eqn:Hf; [discriminate|].
    destruct (existsb unsafeQuery (q :: qs)) eqn:Hu; [discriminate|].
    intros [= <- <-]. exists c. rewrite Hq.
    split; [reflexivity|]. split; [discriminate|].
    split; [|split; reflexivity].
    apply Forall_forall. intros x Hx.
    apply list_elem_of_In in Hx. split.
    + apply (find_none _ _ Hf) in Hx. now apply negb_false_iff in Hx.
    + destruct (unsafeQuery x) eqn:E; [|reflexivity].
      rewrite <- Hu. symmetry. apply existsb_exists. eauto.
  - intros (c & -> & Hne & Hall & -> & ->).
    destruct (Queries c) as [|q qs] eqn:Hq; [congruence|].
    destruct (List.find _ (q :: qs)) as [x|] eqn:Hf.
    + apply find_some in Hf as [Hx Hk].
      apply list_elem_of_In in Hx.
      rewrite Forall_forall in Hall. apply Hall in Hx as [Hx _].
      rewrite Hx in Hk. discriminate.
    + destruct (existsb unsafeQuery (q :: qs)) eqn:Hu; [|reflexivity].
      apply existsb_exists in Hu as (x & Hx & Hu).
      apply list_elem_of_In in Hx.
      rewrite Forall_forall in Hall. apply Hall in Hx as [_ Hx]. congruence.
Qed.

(** X4. [New] never panics: it returns a beater or an error and never
    both. It returns a beater exactly when the configuration is read, holds
    at least one query, every query has one of the four known types and
    none is unsafe; the beater then holds that configuration and an empty
    rate state, and no error comes with it. *)
Theorem New_succeeds_iff (cfg : commonConfig) :
  (exists beater err,
     New cfg = Ok (beater, err) /\ (beater = None <-> err <> None)) /\
  (forall bt e,
     New cfg = Ok (Some bt, e) <->
     exists c,
       Unpack cfg DefaultConfig = inl c /\
       Queries c <> [] /\
       Forall (fun q => knownType q = true /\ unsafeQuery q = false)
              (Queries c) /\
       bt = mkMysqlbeat c ∅ ∅ /\ e = None).
Proof.
  split; [|apply New_beater_iff].
  rewrite New_closed_form.
  destruct (Unpack cfg DefaultConfig) as [c|err].
  - destruct (Queries c) as [|q qs].
    + eexists _, _. split; [reflexivity|]. split; [discriminate|reflexivity].
    + destruct (List.find _ (q :: qs)).
      * eexists _, _. split; [reflexivity|].
        split; [discriminate|reflexivity].
      * destruct (existsb unsafeQuery (q :: qs)).
        -- eexists _, _. split; [reflexivity|].
           split; [discriminate|reflexivity].
        -- eexists _, _. split; [reflexivity|].
           split; [discriminate|intros C; now elim C].
  - eexists _, _. split; [reflexivity|]. split; [discriminate|reflexivity].
Qed.

(** X5. The first query of an unknown type decides the error of [New]:
    its type is reported, also when an unsafe query comes before it, whose
    own error is then never seen. *)
Theorem New_first_unknown_type (cfg : commonConfig) (c : Config)
    (before after : list Query) (q : Query) :
  Unpack cfg DefaultConfig = inl c ->
  Queries c = (before ++ q :: after)%list ->
  Forall (fun q => knownType q = true) before ->
  knownType q = false ->
  New cfg = Ok (None, Some ("unknown query type: " ++ QType q)).
Proof.
  intros HU HQ Hb Hq. rewrite New_closed_form, HU, HQ.
  assert (Hf : List.find (fun q => negb (knownType q))
                 (before ++ q :: after)%list = Some q).
  { clear HQ. induction Hb as [|x l Hx _ IH]; simpl.
    - now rewrite Hq.
    - now rewrite Hx. }
  rewrite Hf. destruct before; reflexivity.
Qed.

End Creation.
(** *** Texts in ASCII *)

Ltac each_byte c :=
  destruct c as [[] [] [] [] [] [] [] []]; vm_compute; try reflexivity;
  try discriminate; auto.

Lemma upper_below128 c :
  (N_of_ascii (strings.upper c) <? 128)%N = (N_of_ascii c <? 128)%N.
Proof. each_byte c. Qed.

Lemma upper_semicolon c :
  Ascii.eqb (strings.upper c) ";" = Ascii.eqb c ";".
Proof. each_byte c. Qed.

Lemma asciiSpace_semicolon c :
  strings.asciiSpace c = true -> Ascii.eqb c ";" = false.
Proof. each_byte c. Qed.

Lemma has_semicolon s :
  strings.ContainsAny s ";" =
    existsb (fun c => Ascii.eqb c ";") (list_ascii_of_string s).
Proof.
  unfold strings.ContainsAny.
  induction (list_ascii_of_string s) as [|c l IH]; [reflexivity|].
  cbn [existsb] in *. rewrite IH.
  change (list_ascii_of_string ";") with [";"%char]. cbn [existsb].
  now rewrite orb_false_r.
Qed.

Lemma skipSpace_ascii l :
  forallb (fun c => (N_of_ascii c <? 128)%N) l = true ->
  exists spaces rest,
    strings.skipSpace l = (false, rest) /\
    l = (spaces ++ rest)%list /\
    forallb strings.asciiSpace spaces = true /\
    match rest with
    | [] => True
    | c :: _ => strings.asciiSpace c = false
    end.
Proof.
  induction l as [|c l IH]; simpl; intros H.
  - exists [], []. auto.
  - apply andb_true_iff in H as [Hc Hl].
    rewrite N.ltb_antisym in Hc. apply negb_true_iff in Hc. rewrite Hc.
    destruct (strings.asciiSpace c) eqn:Hs.
    + destruct (IH Hl) as (sp & rest & -> & -> & Hsp & Hr).
      exists (c :: sp), rest. simpl. rewrite Hs, Hsp. auto.
    + exists [], (c :: l). simpl. auto.
Qed.

Section Trim.

Context {unicode_impl : Unicode}.

Lemma ToUpper_ascii s :
  strings.isASCII s = true ->
  strings.ToUpper s =
    string_of_list_ascii (map strings.upper (list_ascii_of_string s)) /\
  strings.isASCII (strings.ToUpper s) = true.
Proof.
  intros H. unfold strings.ToUpper. rewrite H. split; [reflexivity|].
  unfold strings.isASCII in *.
  rewrite list_ascii_of_string_of_list_ascii.
  induction (list_ascii_of_string s) as [|c l IH]; simpl in *; [reflexivity|].
  apply andb_true_iff in H as [Hc Hl].
  now rewrite upper_below128, Hc, IH.
Qed.

Lemma TrimSpace_ascii s :
  strings.isASCII s = true ->
  exists left right,
    list_ascii_of_string s =
      (left ++ list_ascii_of_string (strings.TrimSpace s) ++ right)%list /\
    forallb strings.asciiSpace left = true /\
    forallb strings.asciiSpace right = true.
Proof.
  intros H. unfold strings.TrimSpace, strings.isASCII in *.
  destruct (skipSpace_ascii _ H) as (sp & rest & -> & E & Hsp & _).
  assert (Hrest : forallb (fun c => (N_of_ascii c <? 128)%N) (rev rest) = true).
  { rewrite E, forallb_app in H. apply andb_true_iff in H as [_ H].
    rewrite forallb_forall in *. intros c Hc. apply H. now apply in_rev. }
  destruct (skipSpace_ascii _ Hrest) as (sp' & tser & -> & E' & Hsp' & _).
  exists sp, (rev sp'). rewrite list_ascii_of_string_of_list_ascii.
  split; [|split; [exact Hsp|]].
  - rewrite E. f_equal. rewrite <- (rev_involutive rest), E', rev_app_distr.
    reflexivity.
  - rewrite forallb_forall in *. intros c Hc. apply Hsp'. now apply in_rev.
Qed.

Lemma clean_semicolon s :
  strings.isASCII s = true ->
  strings.ContainsAny (strings.TrimSpace (strings.ToUpper s)) ";" =
  strings.ContainsAny s ";".
Proof.
  intros H. destruct (ToUpper_ascii s H) as [EU HU].
  destruct (TrimSpace_ascii _ HU) as (l & r & E & Hl & Hr).
  rewrite !has_semicolon.
  assert (Hs : forall sp, forallb strings.asciiSpace sp = true ->
                 existsb (fun c => Ascii.eqb c ";") sp = false).
  { induction sp as [|c sp IH]; cbn [forallb existsb]; [reflexivity|].
    intros [Hc Hsp]%andb_true_iff. now rewrite (asciiSpace_semicolon c Hc), IH. }
  transitivity (existsb (fun c => Ascii.eqb c ";")
                  (list_ascii_of_string (strings.ToUpper s))).
  - rewrite E, !existsb_app, (Hs l Hl), (Hs r Hr), orb_false_r. reflexivity.
  - rewrite EU, list_ascii_of_string_of_list_ascii. clear.
    induction (list_ascii_of_string s) as [|c cs IH]; [reflexivity|].
    cbn [map existsb]. rewrite upper_semicolon. now rewrite IH.
Qed.

End Trim.

Lemma upper_asciiSpace c :
  strings.asciiSpace (strings.upper c) = strings.asciiSpace c.
Proof. each_byte c. Qed.

Lemma forallb_asciiSpace_upper l :
  forallb strings.asciiSpace (map strings.upper l) =
  forallb strings.asciiSpace l.
Proof.
  induction l as [|c l IH]; [reflexivity|].
  cbn [map forallb]. now rewrite upper_asciiSpace, IH.
Qed.

Section Accepted.

Context {unicode_impl : Unicode}.

Lemma clean_text s :
  strings.isASCII s = true ->
  exists left text right,
    list_ascii_of_string s = (left ++ text ++ right)%list /\
    forallb strings.asciiSpace left = true /\
    forallb strings.asciiSpace right = true /\
    strings.TrimSpace (strings.ToUpper s) =
      string_of_list_ascii (map strings.upper text).
Proof.
  intros H. destruct (ToUpper_ascii s H) as [EU HU].
  destruct (TrimSpace_ascii _ HU) as (l & r & E & Hl & Hr).
  rewrite EU, list_ascii_of_string_of_list_ascii in E at 1.
  apply map_eq_app in E as (l0 & tr0 & E0 & <- & E).
  apply map_eq_app in E as (t0 & r0 & -> & E & <-).
  rewrite forallb_asciiSpace_upper in Hl, Hr.
  exists l0, t0, r0. repeat split; try assumption.
  now rewrite E, string_of_list_ascii_of_string.
Qed.

(** X6. What [New] lets pass: a query in ASCII of an accepted
    configuration holds no [;] anywhere, and after its leading white space
    it starts, in any case of the letters, with [SELECT] or [SHOW]. *)
Theorem New_accepts_select_and_show_only (cfg : commonConfig)
    (bt : Mysqlbeat) (e : error) (q : Query) :
  New cfg = Ok (Some bt, e) ->
  q ∈ Queries (config bt) ->
  strings.isASCII (SQL q) = true ->
  strings.ContainsAny (SQL q) ";" = false /\
  exists left text right,
    list_ascii_of_string (SQL q) = (left ++ text ++ right)%list /\
    forallb strings.asciiSpace left = true /\
    forallb strings.asciiSpace right = true /\
    (strings.HasPrefix (string_of_list_ascii (map strings.upper text))
                       "SELECT" = true \/
     strings.HasPrefix (string_of_list_ascii (map strings.upper text))
                       "SHOW" = true).
Proof.
  intros HN Hq HA.
  rewrite New_closed_form in HN.
  destruct (Unpack cfg DefaultConfig) as [c|err]; [|discriminate].
  destruct (Queries c) as [|q0 qs] eqn:HQ; [discriminate|].
  destruct (List.find _ (q0 :: qs)); [discriminate|].
  destruct (existsb unsafeQuery (q0 :: qs)) eqn:Hu; [discriminate|].
  injection HN as <- <-. cbn [config] in Hq. rewrite HQ in Hq.
  assert (Hs : unsafeQuery q = false).
  { destruct (unsafeQuery q) eqn:E; [|reflexivity].
    rewrite <- Hu. symmetry. apply existsb_exists. exists q.
    split; [now apply list_elem_of_In|exact E]. }
  unfold unsafeQuery in Hs. apply orb_false_iff in Hs as [Hp Hc].
  rewrite clean_semicolon in Hc by exact HA. split; [exact Hc|].
  destruct (clean_text _ HA) as (l & t & r & E & Hl & Hr & Ht).
  exists l, t, r. rewrite <- Ht. repeat split; try assumption.
  destruct (strings.HasPrefix _ "SELECT"); [now left|].
  destruct (strings.HasPrefix _ "SHOW"); [now right|discriminate].
Qed.

End Accepted.

Lemma New_first_unknown_type_witness :
  New (Sample.file [Sample.threads;
                    mkQuery "three-columns" "DROP TABLE t;";
                    Sample.hits])
  = Ok (None, Some "unknown query type: three-columns").
Proof.
  refine (New_first_unknown_type
            (Sample.file [Sample.threads;
                          mkQuery "three-columns" "DROP TABLE t;";
                          Sample.hits])
            (mkConfig 1000000000 "127.0.0.1" "3306" "root" "" ""
                      [Sample.threads;
                       mkQuery "three-columns" "DROP TABLE t;";
                       Sample.hits] "_delta" "_key")
            [Sample.threads] [Sample.hits]
            (mkQuery "three-columns" "DROP TABLE t;") _ _ _ _);
    [reflexivity | reflexivity | repeat constructor | reflexivity].
Defined.

Lemma New_accepts_select_and_show_only_witness :
  let q := mkQuery "single-row" "  show global status " in
  let bt := mkMysqlbeat
              (mkConfig 5000000000 "h" "3306" "u" "p" "" [q] "_d" "_k") ∅ ∅ in
  strings.ContainsAny (SQL q) ";" = false /\
  exists left text right,
    list_ascii_of_string (SQL q) = (left ++ text ++ right)%list /\
    forallb strings.asciiSpace left = true /\
    forallb strings.asciiSpace right = true /\
    (strings.HasPrefix (string_of_list_ascii (map strings.upper text))
                       "SELECT" = true \/
     strings.HasPrefix (string_of_list_ascii (map strings.upper text))
                       "SHOW" = true).
Proof.
  intros q bt.
  refine (New_accepts_select_and_show_only
            (mkCommonConfig (fun c => inl (config bt))) bt None q _ _ _).
  - vm_compute. reflexivity.
  - apply list_elem_of_here.
  - vm_compute. reflexivity.
Defined.

(** *** Loops that do not panic *)

Lemma for_range_safe {A S R} (P : S -> Prop) (Q : R -> Prop) (n : nat)
    (good : A -> Prop) (body : S -> nat -> A -> ctl R S) :
  (forall s i a, (i < n)%nat -> good a -> P s ->
     match body s i a with
     | Next s' => P s'
     | Return r => Q r
     | Crash _ => False
     end) ->
  forall l s i, (i + length l <= n)%nat -> Forall good l -> P s ->
    match for_range body s i l with
    | Next s' => P s'
    | Return r => Q r
    | Crash _ => False
    end.
Proof.
  intros Hbody. induction l as [|a l IH]; intros s i Hi Hl Hs; simpl in *;
    [assumption|].
  apply Forall_cons in Hl as [Ha Hl].
  specialize (Hbody s i a ltac:(lia) Ha Hs).
  destruct (body s i a); auto. apply IH; [lia|assumption|assumption].
Qed.

Lemma for_Next_safe {S R} (P : S -> Prop) (Q : R -> Prop)
    (body : S -> Rows -> ctl R S) :
  (forall s rs, P s ->
     match body s rs with
     | Next s' => P s'
     | Return r => Q r
     | Crash _ => False
     end) ->
  forall todo s rs, P s ->
    match for_Next body s rs todo with
    | Next s' => P s'
    | Return r => Q r
    | Crash _ => False
    end.
Proof.
  intros Hbody. induction todo as [|r todo IH]; intros s rs Hs; simpl;
    [assumption|].
  destruct (sql.Next rs) as [rs' more]. destruct more; [|assumption].
  specialize (Hbody s rs' Hs). destruct (body s rs'); auto.
  now apply IH.
Qed.

Lemma Scan_length rs n cells :
  sql.Scan rs n = inl cells -> length cells = n.
Proof.
  unfold sql.Scan. destruct (rs_closed rs); [discriminate|].
  destruct (rs_lastcols rs) as [c|]; [|discriminate].
  destruct (Nat.eqb_spec (length c) n); [|discriminate].
  now intros [= <-].
Qed.

Lemma append_assoc (a b c : string) : (a ++ b) ++ c = a ++ (b ++ c).
Proof.
  induction a as [|x a IH]; [reflexivity|].
  change (String x ((a ++ b) ++ c) = String x (a ++ (b ++ c))).
  now rewrite IH.
Qed.

Lemma append_nil_r (a : string) : a ++ "" = a.
Proof.
  induction a as [|x a IH]; [reflexivity|].
  change (String x (a ++ "") = String x a). now rewrite IH.
Qed.

Section Rows.

Context {strconv_impl : Strconv} {arch_impl : Arch}.

(** *** The key of a row *)

Lemma getKeyFromRow_loop (bt : Mysqlbeat) (columns : list string) :
  forall values i strKey keyFound,
    (i + length values <= length columns)%nat ->
    for_range (R := Empty_set)
      (fun '(strKey, keyFound) i col =>
         match columns !! i with
         | None => Crash (IndexOutOfRange i (length columns))
         | Some name =>
             if strings.HasSuffix name (DeltaKeyWildcard (config bt))
             then Next (strKey ++ string_of_raw col, true)
             else Next (strKey, keyFound)
         end)
      (strKey, keyFound) i values =
    Next (strKey ++ rowKey (DeltaKeyWildcard (config bt))
                      (drop i columns) values,
          keyFound ||
          existsb (fun c => strings.HasSuffix c (DeltaKeyWildcard (config bt)))
                  (take (length values) (drop i columns))).
Proof.
  induction values as [|col values IH]; intros i strKey keyFound Hi; simpl in *.
  - destruct (drop i columns); simpl; now rewrite append_nil_r, orb_false_r.
  - destruct (columns !! i) as [name|] eqn:Hc.
    2:{ apply lookup_ge_None in Hc. lia. }
    rewrite (drop_S _ _ _ Hc). simpl.
    destruct (strings.HasSuffix name _) eqn:Hs; rewrite IH by lia; simpl.
    + now rewrite append_assoc, orb_true_r.
    + reflexivity.
Qed.

(** X7. The key of a row is the text of its cells under the key columns,
    in the order of the columns; the error is returned exactly when no
    column ends with the key marker; and there is no panic when the row has
    as many cells as there are columns. *)
Theorem getKeyFromRow_is_rowKey (bt : Mysqlbeat) (values : list RawBytes)
    (columns : list string) :
  length values = length columns ->
  getKeyFromRow bt values columns =
    Ok (rowKey (DeltaKeyWildcard (config bt)) columns values,
        if existsb (fun c => strings.HasSuffix c (DeltaKeyWildcard (config bt)))
                   columns
        then None else Some missingKey).
Proof.
  intros Hlen. unfold getKeyFromRow.
  rewrite getKeyFromRow_loop by (simpl; lia).
  rewrite drop_0, Hlen, firstn_all. reflexivity.
Qed.

End Rows.

Lemma getKeyFromRow_is_rowKey_witness :
  getKeyFromRow (Sample.fresh []) [Some "a"; Some "1"; Some "eu"]
                ["host_key"; "hits_delta"; "region_key"]
  = Ok ("aeu", None).
Proof.
  exact (getKeyFromRow_is_rowKey (Sample.fresh [])
           [Some "a"; Some "1"; Some "eu"]
           ["host_key"; "hits_delta"; "region_key"] eq_refl).
Defined.

Section Shape.

Context {strconv_impl : Strconv} {arch_impl : Arch}.

(** The events that carry a map of fields and the time [t]. *)
Lemma column_safe values columns queryType rowAge st i col :
  length values = length columns ->
  (i < length columns)%nat ->
  Timestamp st.2 = rowAge /\ Fields st.2 <> None ->
  match
    generateEventFromRow_column values columns queryType rowAge st i col
  with
  | Next st' => Timestamp st'.2 = rowAge /\ Fields st'.2 <> None
  | Return r => r.2.1 = None /\ r.2.2 <> None
  | Crash _ => False
  end.
Proof.
  destruct st as [bt event]. cbn [fst snd]. intros Hlen Hi [Ht Hf].
  unfold generateEventFromRow_column.
  destruct (columns !! i) as [name|] eqn:Hc.
  2:{ apply lookup_ge_None in Hc. lia. }
  destruct (_ && _); [auto|].
  destruct (typeColumn (string_of_raw col)) as [[ty n] f].
  destruct (Fields event) as [m|] eqn:Hm; [clear Hf|congruence].
  assert (Hobs : forall k,
    match
      observe (R := Mysqlbeat * (option Event * error)) bt event k
        (eventColumnName bt name) ty (string_of_raw col) n f rowAge
    with
    | Next st' => Timestamp st'.2 = rowAge /\ Fields st'.2 <> None
    | Return r => r.2.1 = None /\ r.2.2 <> None
    | Crash _ => False
    end).
  { intros k.
    destruct (observe_next (R := Mysqlbeat * (option Event * error))
                bt event m k (eventColumnName bt name) ty
                (string_of_raw col) n f rowAge Hm) as (bt' & m' & -> & _).
    simpl. auto. }
  destruct (_ && _).
  - destruct (String.eqb queryType queryTypeSingleRow); [apply Hobs|].
    destruct (String.eqb queryType queryTypeMultipleRows); [|apply Hobs].
    rewrite getKeyFromRow_is_rowKey by assumption.
    destruct (existsb _ columns); simpl; [apply Hobs|auto].
  - destruct (addAsIs_next (R := Mysqlbeat * (option Event * error))
                event m (eventColumnName bt name) ty (string_of_raw col) n f
                Hm) as (m' & ->).
    simpl. auto.
Qed.

Lemma generateEventFromRow_shape (bt : Mysqlbeat) (row : Rows)
    (columns : list string) (queryType : string) (rowAge : Time) :
  exists bt' event err,
    generateEventFromRow bt row columns queryType rowAge =
      Ok (bt', (event, err)) /\
    match event with
    | Some e => err = None /\ Timestamp e = rowAge
    | None => err <> None
    end.
Proof.
  unfold generateEventFromRow. cbn [generateEmptyEvent].
  destruct (sql.Scan row (length columns)) as [values|err] eqn:HS.
  2:{ exists bt, None, (Some err). split; [reflexivity|discriminate]. }
  apply Scan_length in HS.
  pose proof (for_range_safe
                (fun st' : Mysqlbeat * Event =>
                   Timestamp st'.2 = rowAge /\ Fields st'.2 <> None)
                (fun r : Mysqlbeat * (option Event * error) =>
                   r.2.1 = None /\ r.2.2 <> None)
                (length columns) (fun _ => True)
                (generateEventFromRow_column values columns queryType rowAge)
                (fun st i a Hi _ Hs => column_safe values columns queryType
                                         rowAge st i a HS Hi Hs)
                values
                (bt, mkEvent rowAge (Some {[ "type" := IString queryType ]}))
                0%nat ltac:(simpl; lia) ltac:(apply Forall_true; auto)
                ltac:(simpl; split; [reflexivity|discriminate]))
    as Hinv.
  destruct (for_range _ _ _ _) as [[bt' ev']|[bt' [ev err]]|p];
    simpl in *; [| |contradiction].
  - destruct Hinv as [Ht Hf].
    eexists bt', (Some _), None. split; [reflexivity|].
    split; [reflexivity|]. destruct (len_fields ev' =? 1)%nat; simpl; auto.
  - destruct Hinv as [-> He]. exists bt', None, err. auto.
Qed.

(** X8. [generateEventFromRow] never panics, whatever the cursor, the
    columns and the mode: it returns either an event, which carries the
    time it was given, and no error, or an error and no event. *)
Theorem generateEventFromRow_event_or_error (bt : Mysqlbeat) (row : Rows)
    (columns : list string) (queryType : string) (rowAge : Time) :
  (exists bt' event,
     generateEventFromRow bt row columns queryType rowAge =
       Ok (bt', (Some event, None)) /\
     Timestamp event = rowAge) \/
  (exists bt' err,
     generateEventFromRow bt row columns queryType rowAge =
       Ok (bt', (None, Some err))).
Proof.
  destruct (generateEventFromRow_shape bt row columns queryType rowAge)
    as (bt' & [e|] & err & -> & H).
  - destruct H as [-> Ht]. left. eauto.
  - destruct err as [err|]; [|congruence]. right. eauto.
Qed.

Lemma appendRowToEvent_safe bt event row columns rowAge :
  (2 <= length columns)%nat ->
  Timestamp event = rowAge /\ Fields event <> None ->
  exists bt' event' err,
    appendRowToEvent bt event row columns rowAge = Ok (bt', event', err) /\
    Timestamp event' = rowAge /\ Fields event' <> None.
Proof.
  intros Hn [Ht Hf]. unfold appendRowToEvent.
  destruct (sql.Scan row (length columns)) as [values|err] eqn:HS.
  2:{ exists bt, event, (Some err). auto. }
  apply Scan_length in HS.
  destruct values as [|v0 [|v1 values]]; simpl in HS; try lia.
  cbn [lookup list_lookup].
  destruct (typeColumn (string_of_raw v1)) as [[ty n] f].
  destruct (Fields event) as [m|] eqn:Hm; [clear Hf|congruence].
  destruct (strings.HasSuffix _ _).
  - destruct (observe_next (R := Empty_set) bt event m (string_of_raw v0)
                (strings.Replace1 (string_of_raw v0)
                   (DeltaWildcard (config bt)) "_PERSECOND")
                ty (string_of_raw v1) n f rowAge Hm) as (bt' & m' & -> & _).
    eexists _, _, _. split; [reflexivity|]. simpl. auto.
  - destruct (addAsIs_next (R := Empty_set) event m
                (strings.Replace1 (string_of_raw v0)
                   (DeltaWildcard (config bt)) "_PERSECOND")
                ty (string_of_raw v1) n f Hm) as (m' & ->).
    eexists _, _, _. split; [reflexivity|]. simpl. auto.
Qed.

End Shape.

Section QueryEvents.

Context {strconv_impl : Strconv} {arch_impl : Arch}.

Lemma appendRowToEvent_shape bt event row columns rowAge :
  Timestamp event = rowAge /\ Fields event <> None ->
  match appendRowToEvent bt event row columns rowAge with
  | Ok (_, event', _) => Timestamp event' = rowAge /\ Fields event' <> None
  | Panics _ => True
  end.
Proof.
  intros [Ht Hf]. unfold appendRowToEvent.
  destruct (sql.Scan row (length columns)) as [values|err]; [|auto].
  destruct (values !! 0%nat) as [v0|]; [|exact I].
  destruct (values !! 1%nat) as [v1|]; [|exact I].
  destruct (typeColumn (string_of_raw v1)) as [[ty n] f].
  destruct (Fields event) as [m|] eqn:Hm; [clear Hf|congruence].
  destruct (strings.HasSuffix _ _).
  - destruct (observe_next (R := Empty_set) bt event m (string_of_raw v0)
                (strings.Replace1 (string_of_raw v0)
                   (DeltaWildcard (config bt)) "_PERSECOND")
                ty (string_of_raw v1) n f rowAge Hm) as (bt' & m' & -> & _).
    simpl. auto.
  - destruct (addAsIs_next (R := Empty_set) event m
                (strings.Replace1 (string_of_raw v0)
                   (DeltaWildcard (config bt)) "_PERSECOND")
                ty (string_of_raw v1) n f Hm) as (m' & ->).
    simpl. auto.
Qed.

Lemma Columns_inl rows columns :
  sql.Columns rows = inl columns ->
  rs_closed rows = false /\ columns = rs_columns rows.
Proof.
  unfold sql.Columns. destruct (rs_closed rows); [discriminate|].
  now intros [= <-].
Qed.

(** The events of a query, whatever its type: [iterateQuery] panics in no
    other case than a two-columns result with fewer than two columns. *)
Lemma iterateQuery_shape (bt : Mysqlbeat) (now : Time) (db : DB) (i : nat)
    (queryType queryStr : string) :
  (queryType = queryTypeTwoColumns ->
   forall rows, db_Query db queryStr = inl rows ->
                (2 <= length (rs_columns rows))%nat) ->
  exists bt' events err,
    iterateQuery bt now db i queryType queryStr = Ok (bt', (events, err)) /\
    Forall (fun e => Timestamp e = now) events.
Proof.
  intros H2. unfold iterateQuery.
  destruct (db_Query db queryStr) as [rows|err]; [|eauto 6].
  destruct (sql.Columns rows) as [columns|err] eqn:HC; [|eauto 6].
  apply Columns_inl in HC as [_ ->].
  destruct (_ || _).
  - destruct (sql.Next rows) as [rows' more].
    destruct (generateEventFromRow_shape bt rows' (rs_columns rows)
                queryType now) as (bt' & [e|] & err & -> & H).
    + destruct H as [-> Ht]. eexists _, _, _. split; [reflexivity|].
      simpl. auto.
    + eauto 6.
  - destruct (String.eqb queryType queryTypeMultipleRows).
    + match goal with
      | |- context [for_Next ?body ?s ?rs ?todo] =>
          assert (Hinv :
                    match for_Next body s rs todo with
                    | Next s' => Forall (fun e => Timestamp e = now) s'.2
                    | Return r => Forall (fun e => Timestamp e = now) r.2.1
                    | Crash _ => False
                    end);
          [apply (for_Next_safe
                    (fun st => Forall (fun e => Timestamp e = now) st.2)
                    (fun r => Forall (fun e => Timestamp e = now) r.2.1));
           [|constructor]
          |revert Hinv;
           destruct (for_Next body s rs todo) as [[bt' evs]|[bt' [evs err]]|p];
           intros Hinv]
      end.
      * intros [bt1 evs1] rs1 Hs; simpl in *.
        destruct (generateEventFromRow_shape bt1 rs1 (rs_columns rows)
                    queryType now) as (bt2 & [e|] & err & -> & H).
        -- destruct H as [-> Ht]. simpl. apply Forall_app. auto.
        -- destruct err; [simpl; auto|congruence].
      * eexists _, _, _. split; [reflexivity|exact Hinv].
      * eexists _, _, _. split; [reflexivity|exact Hinv].
      * contradiction.
    + destruct (String.eqb_spec queryType queryTypeTwoColumns) as [E|E];
        [|eauto 6].
      specialize (H2 E rows eq_refl). cbn [generateEmptyEvent].
      match goal with
      | |- context [for_Next ?body ?s ?rs ?todo] =>
          assert (Hinv :
                    match for_Next body s rs todo with
                    | Next s' => Timestamp s'.2 = now /\ Fields s'.2 <> None
                    | Return r => r.2.1 = []
                    | Crash _ => False
                    end);
          [apply (for_Next_safe
                    (fun st => Timestamp st.2 = now /\ Fields st.2 <> None)
                    (fun r => r.2.1 = []));
           [|simpl; split; [reflexivity|discriminate]]
          |revert Hinv;
           destruct (for_Next body s rs todo) as [[bt' ev]|[bt' [evs err]]|p];
           intros Hinv]
      end.
      * intros [bt1 ev1] rs1 Hs; simpl in *.
        destruct (appendRowToEvent_safe bt1 ev1 rs1 (rs_columns rows) now
                    H2 Hs) as (bt2 & ev2 & err & -> & Hs').
        destruct err; simpl; auto.
      * eexists _, _, _. split; [reflexivity|]. simpl in *.
        repeat constructor. tauto.
      * simpl in Hinv. subst evs. eauto 6.
      * contradiction.
Qed.

End QueryEvents.

Section Cycle.

Context {strconv_impl : Strconv} {arch_impl : Arch}.

Lemma two_columns_result (bt : Mysqlbeat) (now : Time) (db : DB) (i : nat)
    (queryStr : string) :
  match iterateQuery bt now db i queryTypeTwoColumns queryStr with
  | Ok (_, (events, None)) =>
      exists m, events = [mkEvent now (Some m)]
  | Ok (_, (events, Some _)) => events = []
  | Panics _ => True
  end.
Proof.
  unfold iterateQuery.
  destruct (db_Query db queryStr) as [rows|err]; [|reflexivity].
  destruct (sql.Columns rows) as [columns|err]; [|reflexivity].
  change (String.eqb queryTypeTwoColumns queryTypeSingleRow) with false.
  change (String.eqb queryTypeTwoColumns queryTypeSlaveDelay) with false.
  change (String.eqb queryTypeTwoColumns queryTypeMultipleRows) with false.
  change (String.eqb queryTypeTwoColumns queryTypeTwoColumns) with true.
  cbv iota. cbn [orb generateEmptyEvent].
  match goal with
  | |- context [for_Next ?body ?s ?rs ?todo] =>
      assert (Hinv :
                ctl_holds
                  (fun st => Timestamp st.2 = now /\ Fields st.2 <> None)
                  (fun r => r.2.1 = [] /\ r.2.2 <> None)
                  (for_Next body s rs todo));
      [apply for_Next_invariant;
       [|simpl; split; [reflexivity|discriminate]]
      |revert Hinv;
       destruct (for_Next body s rs todo) as [[bt' ev]|[bt' [evs err]]|p];
       intros Hinv]
  end.
  - intros [bt1 ev1] rs1 Hs; simpl in *.
    pose proof (appendRowToEvent_shape bt1 ev1 rs1 columns now Hs) as Ha.
    destruct (appendRowToEvent _ _ _ _ _) as [[[bt2 ev2] [err|]]|];
      simpl; auto.
  - simpl in Hinv. destruct Hinv as [Ht Hf]. destruct ev as [t [m|]];
      simpl in *; [|congruence]. subst t. eauto.
  - simpl in Hinv. destruct Hinv as [-> He]. destruct err; congruence.
  - exact I.
Qed.

(** X9. Every event of a query carries the time taken when the query
    started, in every mode. *)
Theorem events_carry_query_time (bt bt' : Mysqlbeat) (now : Time) (db : DB)
    (i : nat) (queryType queryStr : string) (events : list Event)
    (err : error) :
  iterateQuery bt now db i queryType queryStr = Ok (bt', (events, err)) ->
  Forall (fun e => Timestamp e = now) events.
Proof.
  intros H. destruct (String.eqb_spec queryType queryTypeTwoColumns) as [E|E].
  - subst queryType.
    pose proof (two_columns_result bt now db i queryStr) as Ht.
    rewrite H in Ht. destruct err as [err|].
    + subst events. constructor.
    + destruct Ht as [m ->]. repeat constructor.
  - destruct (iterateQuery_shape bt now db i queryType queryStr)
      as (bt2 & evs & err2 & H2 & Hf); [intros; contradiction|].
    rewrite H in H2. injection H2 as <- <- <-. exact Hf.
Qed.

(** X10. A two-columns query that ends without error gives exactly one
    event, with a map of fields; without any row the event holds its type
    only and is returned all the same. *)
Theorem two_columns_always_one_event (bt : Mysqlbeat) (now : Time) (db : DB)
    (i : nat) (queryStr : string) (rows : Rows) :
  db_Query db queryStr = inl rows ->
  rs_closed rows = false ->
  (rs_pending rows = [] ->
   iterateQuery bt now db i queryTypeTwoColumns queryStr =
     Ok (bt, ([mkEvent now
                 (Some {[ "type" := IString queryTypeTwoColumns ]})],
              None))) /\
  (forall bt' events,
     iterateQuery bt now db i queryTypeTwoColumns queryStr =
       Ok (bt', (events, None)) ->
     exists m, events = [mkEvent now (Some m)]).
Proof.
  intros HQ Hopen. split.
  - intros Hp. unfold iterateQuery, sql.Columns. rewrite HQ, Hopen, Hp.
    reflexivity.
  - intros bt' events H.
    pose proof (two_columns_result bt now db i queryStr) as Ht.
    rewrite H in Ht. exact Ht.
Qed.

Lemma multiple_rows_loop (columns : list string) (now : Time) :
  forall todo rs st,
    rs_closed rs = false -> rs_pending rs = todo ->
    match
      for_Next
        (fun '(bt, events) rows =>
           match
             generateEventFromRow bt rows columns queryTypeMultipleRows now
           with
           | Panics p => Crash p
           | Ok (bt, (_, Some err)) =>
               Return (bt, (events, Some err))
           | Ok (bt, (Some event, None)) =>
               Next (bt, (events ++ [event])%list)
           | Ok (bt, (None, None)) => Next (bt, events)
           end)
        st rs todo
    with
    | Next st' => length st'.2 = (length st.2 + length todo)%nat
    | Return r => r.2.2 <> None
    | Crash _ => True
    end.
Proof.
  induction todo as [|r todo IH]; intros rs [bt events] Hc Hp;
    cbn [for_Next]; [simpl; lia|].
  unfold sql.Next. rewrite Hc, Hp.
  destruct (generateEventFromRow_shape bt
              (mkRows (rs_columns rs) (Some r) todo false) columns
              queryTypeMultipleRows now) as (bt2 & [e|] & err & -> & H).
  - destruct H as [-> _].
    specialize (IH (mkRows (rs_columns rs) (Some r) todo false)
                   (bt2, (events ++ [e])%list) eq_refl eq_refl).
    destruct (for_Next _ _ _ _); auto.
    simpl in *. rewrite IH, length_app. simpl. lia.
  - destruct err; [simpl; discriminate|congruence].
Qed.

(** X11. A multiple-rows query that ends without error gives one event
    for every row of the result. *)
Theorem multiple_rows_one_event_per_row (bt bt' : Mysqlbeat) (now : Time)
    (db : DB) (i : nat) (queryStr : string) (rows : Rows)
    (events : list Event) :
  db_Query db queryStr = inl rows ->
  iterateQuery bt now db i queryTypeMultipleRows queryStr =
    Ok (bt', (events, None)) ->
  length events = length (rs_pending rows).
Proof.
  intros HQ. unfold iterateQuery. rewrite HQ.
  destruct (sql.Columns rows) as [columns|err] eqn:HC; [|discriminate].
  apply Columns_inl in HC as [Hopen ->].
  change (String.eqb queryTypeMultipleRows queryTypeSingleRow) with false.
  change (String.eqb queryTypeMultipleRows queryTypeSlaveDelay) with false.
  change (String.eqb queryTypeMultipleRows queryTypeMultipleRows) with true.
  cbv iota. cbn [orb].
  pose proof (multiple_rows_loop (rs_columns rows) now (rs_pending rows)
                rows (bt, []) Hopen eq_refl) as Hl.
  destruct (for_Next _ _ _ _) as [[bt1 evs]|[bt1 [evs err]]|p];
    [|simpl in Hl|discriminate].
  - intros [= <- <-]. exact Hl.
  - intros [= -> -> ->]. congruence.
Qed.

(** X12. A cycle does not panic when every two-columns query is answered
    with at least two columns: it returns, with an error or without. *)
Theorem beat_panics_only_on_short_two_columns (bt : Mysqlbeat) (w : World) :
  (forall conn db q rows,
     sql_Open w "mysql" conn = inl db ->
     q ∈ Queries (config bt) ->
     QType q = queryTypeTwoColumns ->
     db_Query db (SQL q) = inl rows ->
     (2 <= length (rs_columns rows))%nat) ->
  exists bt' published err, beat bt w = Ok (bt', published, err).
Proof.
  intros H2. unfold beat.
  destruct (sql_Open w _ _) as [db|err] eqn:HO; [|eauto].
  specialize (fun q rows => H2 _ db q rows HO).
  pose proof (for_range_safe (fun _ : Mysqlbeat * list Event => True)
                (fun _ : Mysqlbeat * list Event * error => True)
                (length (Queries (config bt)))
                (fun q => q ∈ Queries (config bt))
                (beat_query w db)) as Hinv.
  specialize (fun Hb => Hinv Hb (Queries (config bt)) (bt, []) 0%nat
                          ltac:(simpl; lia)
                          ltac:(apply Forall_forall; auto) I).
  destruct (for_range _ _ _ _) as [[bt' pub]|[[bt' pub] err]|p]; eauto.
  exfalso. apply Hinv. intros [bt1 pub1] j q _ Hq _. unfold beat_query.
  destruct (iterateQuery_shape bt1 (time_Now w j) db j (QType q) (SQL q))
    as (bt2 & evs & err2 & -> & _);
    [intros E rows Hr; exact (H2 q rows Hq E Hr)|].
  destruct err2; exact I.
Qed.

End Cycle.

Lemma events_carry_query_time_witness :
  exists bt' events err,
    iterateQuery (Sample.fresh []) 42 (Sample.db Sample.answers) 0
      queryTypeMultipleRows "SELECT twice"
    = Ok (bt', (events, err)) /\
    length events = 2%nat /\
    Forall (fun e => Timestamp e = 42) events.
Proof.
  destruct (iterateQuery (Sample.fresh []) 42 (Sample.db Sample.answers) 0
              queryTypeMultipleRows "SELECT twice")
    as [[bt' [events err]]|] eqn:Hrun;
    [|vm_compute in Hrun; discriminate Hrun].
  exists bt', events, err. split; [reflexivity|]. split.
  - vm_compute in Hrun. injection Hrun as _ <- _. reflexivity.
  - exact (events_carry_query_time _ _ _ _ _ _ _ _ _ Hrun).
Defined.

Lemma two_columns_always_one_event_witness :
  iterateQuery (Sample.fresh []) 42
    (Sample.db (Sample.variables_answers [])) 0
    queryTypeTwoColumns "SHOW VARIABLES"
  = Ok (Sample.fresh [],
        ([mkEvent 42 (Some {[ "type" := IString queryTypeTwoColumns ]})],
         None)).
Proof.
  exact (proj1 (two_columns_always_one_event (Sample.fresh []) 42
                  (Sample.db (Sample.variables_answers [])) 0
                  "SHOW VARIABLES"
                  (sql.open ["Variable_name"; "Value"] [])
                  eq_refl eq_refl) eq_refl).
Defined.

Lemma multiple_rows_one_event_per_row_witness :
  exists bt' events,
    iterateQuery (Sample.fresh []) 42 (Sample.db Sample.answers) 0
      queryTypeMultipleRows "SELECT twice"
    = Ok (bt', (events, None)) /\
    length events = 2%nat.
Proof.
  destruct (iterateQuery (Sample.fresh []) 42 (Sample.db Sample.answers) 0
              queryTypeMultipleRows "SELECT twice")
    as [[bt' [events [err|]]]|] eqn:Hrun;
    [vm_compute in Hrun; discriminate Hrun| |
     vm_compute in Hrun; discriminate Hrun].
  exists bt', events. split; [reflexivity|].
  refine (multiple_rows_one_event_per_row (Sample.fresh []) bt' 42
            (Sample.db Sample.answers) 0 "SELECT twice"
            (sql.open ["host_key"; "hits_delta"]
               [[Some "a"; Some "1"]; [Some "a"; Some "2"]])
            events _ Hrun).
  reflexivity.
Defined.

Lemma beat_panics_only_on_short_two_columns_witness :
  exists bt' published err,
    beat (Sample.fresh [Sample.variables; Sample.hits])
         (Sample.world
            (Sample.db (Sample.variables_answers
                          [[Some "max_connections"; Some "151"]]
                        ++ Sample.answers)) 0)
    = Ok (bt', published, err).
Proof.
  apply beat_panics_only_on_short_two_columns.
  intros conn db q rows HO Hq Hty HQ.
  injection HO as <-.
  apply elem_of_cons in Hq as [->|Hq].
  - vm_compute in HQ. injection HQ as <-. simpl. lia.
  - apply list_elem_of_singleton in Hq as ->. discriminate Hty.
Defined.

Section Columns.

Context {strconv_impl : Strconv} {arch_impl : Arch}.

Lemma addAsIs_sets {R} event m name ty s n f :
  Fields event = Some m ->
  addAsIs (R := R) event name ty s n f = Next event \/
  exists v,
    addAsIs (R := R) event name ty s n f =
      Next (mkEvent (Timestamp event) (Some (<[name := v]> m))).
Proof.
  intros Hm. unfold addAsIs, set_field. rewrite Hm.
  destruct (ty =? columnTypeString); [eauto|].
  destruct (ty =? columnTypeInt); [eauto|].
  destruct (ty =? columnTypeFloat); eauto.
Qed.

(** *** The show-slave-delay mode *)

Lemma slave_delay_column (bt : Mysqlbeat) values columns rowAge st i col :
  (i < length columns)%nat ->
  st.1 = bt /\ Timestamp st.2 = rowAge /\
  (exists m, Fields st.2 = Some m /\
     (forall k, is_Some (m !! k) ->
                k = "type" \/ k = eventColumnName bt columnNameSlaveDelay) /\
     (columnNameSlaveDelay ∉ columns -> size m = 1%nat)) ->
  match
    generateEventFromRow_column values columns queryTypeSlaveDelay rowAge
      st i col
  with
  | Next st' =>
      st'.1 = bt /\ Timestamp st'.2 = rowAge /\
      (exists m, Fields st'.2 = Some m /\
         (forall k, is_Some (m !! k) ->
                    k = "type" \/ k = eventColumnName bt columnNameSlaveDelay) /\
         (columnNameSlaveDelay ∉ columns -> size m = 1%nat))
  | Return _ => False
  | Crash _ => False
  end.
Proof.
  destruct st as [bt0 event]. cbn [fst snd].
  intros Hi (-> & Ht & m & Hm & Hdom & Habs).
  unfold generateEventFromRow_column.
  destruct (columns !! i) as [name|] eqn:Hc.
  2:{ apply lookup_ge_None in Hc. lia. }
  change (String.eqb queryTypeSlaveDelay queryTypeSlaveDelay) with true.
  change (String.eqb queryTypeSlaveDelay queryTypeSingleRow) with false.
  change (String.eqb queryTypeSlaveDelay queryTypeMultipleRows) with false.
  cbn [andb orb].
  destruct (String.eqb_spec name columnNameSlaveDelay) as [->|Hne];
    cbn [negb]; [|simpl; eauto 6].
  destruct (typeColumn (string_of_raw col)) as [[ty n] f].
  destruct (addAsIs_sets (R := Mysqlbeat * (option Event * error)) event m
              (eventColumnName bt columnNameSlaveDelay) ty
              (string_of_raw col) n f Hm) as [->|(v & ->)]; simpl.
  - eauto 6.
  - split; [reflexivity|]. split; [assumption|].
    eexists. split; [reflexivity|]. split.
    + intros k Hk.
      destruct (decide (eventColumnName bt columnNameSlaveDelay = k))
        as [<-|Hk']; [now right|].
      rewrite lookup_insert_ne in Hk by assumption. auto.
    + intros Hno. exfalso. apply Hno. eapply list_elem_of_lookup_2, Hc.
Qed.

(** X13. In show-slave-delay mode the event of a row holds no other field
    than the type and the slave delay, it has no fields at all when no
    column is named [Seconds_Behind_Master], and the rate state is left as
    it is. *)
Theorem slave_delay_reads_one_column (bt : Mysqlbeat) (row : Rows)
    (columns : list string) (cells : list RawBytes) (rowAge : Time) :
  sql.Scan row (length columns) = inl cells ->
  exists fields,
    generateEventFromRow bt row columns queryTypeSlaveDelay rowAge =
      Ok (bt, (Some (mkEvent rowAge fields), None)) /\
    (forall m k, fields = Some m -> is_Some (m !! k) ->
       k = "type" \/ k = eventColumnName bt columnNameSlaveDelay) /\
    (columnNameSlaveDelay ∉ columns -> fields = None).
Proof.
  intros HS. unfold generateEventFromRow. cbn [generateEmptyEvent].
  rewrite HS. apply Scan_length in HS.
  assert (Hinit :
    exists m : MapStr,
      Some {[ "type" := IString queryTypeSlaveDelay ]} = Some m /\
      (forall k, is_Some (m !! k) ->
         k = "type" \/ k = eventColumnName bt columnNameSlaveDelay) /\
      (columnNameSlaveDelay ∉ columns -> size m = 1%nat)).
  { eexists. split; [reflexivity|]. split.
    - intros k [v Hk]. apply lookup_singleton_Some in Hk as [<- _].
      now left.
    - intros _. apply map_size_singleton. }
  pose proof (for_range_safe
                (fun st : Mysqlbeat * Event =>
                   st.1 = bt /\ Timestamp st.2 = rowAge /\
                   (exists m, Fields st.2 = Some m /\
                      (forall k, is_Some (m !! k) ->
                         k = "type" \/
                         k = eventColumnName bt columnNameSlaveDelay) /\
                      (columnNameSlaveDelay ∉ columns -> size m = 1%nat)))
                (fun _ : Mysqlbeat * (option Event * error) => False)
                (length columns) (fun _ => True)
                (generateEventFromRow_column cells columns
                   queryTypeSlaveDelay rowAge)
                (fun st i a Hi _ Hs =>
                   slave_delay_column bt cells columns rowAge st i a Hi Hs)
                cells
                (bt, mkEvent rowAge
                       (Some {[ "type" := IString queryTypeSlaveDelay ]}))
                0%nat ltac:(simpl; lia) ltac:(apply Forall_true; auto)
                (conj eq_refl (conj eq_refl Hinit)))
    as Hinv.
  revert Hinv.
  destruct (for_range _ _ _ _) as [[bt' ev']| |p]; intros Hinv;
    [|contradiction|contradiction].
  destruct Hinv as (Hbt & Ht & m & Hm & Hdom & Habs).
  simpl in *. destruct ev' as [t f]. simpl in *. subst bt' t f.
  unfold len_fields. cbn [Fields].
  destruct (Nat.eqb_spec (size m) 1) as [E|E].
  - eexists. split; [reflexivity|]. split; [discriminate|reflexivity].
  - eexists. split; [reflexivity|]. split.
    + intros m' k [= <-]. apply Hdom.
    + intros Hno. elim E. auto.
Qed.

End Columns.

Lemma slave_delay_reads_one_column_witness :
  exists fields,
    generateEventFromRow (Sample.tracked (IInt64 100))
      (mkRows ["Seconds_Behind_Master"; "Other_Column"]
              (Some [Some "3"; Some "x"]) [] false)
      ["Seconds_Behind_Master"; "Other_Column"] queryTypeSlaveDelay 42
    = Ok (Sample.tracked (IInt64 100), (Some (mkEvent 42 fields), None)) /\
    (forall m k, fields = Some m -> is_Some (m !! k) ->
       k = "type" \/
       k = eventColumnName (Sample.tracked (IInt64 100))
             columnNameSlaveDelay) /\
    (columnNameSlaveDelay ∉ ["Seconds_Behind_Master"; "Other_Column"] ->
     fields = None).
Proof.
  exact (slave_delay_reads_one_column (Sample.tracked (IInt64 100))
           (mkRows ["Seconds_Behind_Master"; "Other_Column"]
                   (Some [Some "3"; Some "x"]) [] false)
           ["Seconds_Behind_Master"; "Other_Column"]
           [Some "3"; Some "x"] 42 eq_refl).
Defined.

Section Frame.

Context {strconv_impl : Strconv} {arch_impl : Arch}.

(** *** Results without delta column *)

Lemma plain_column (bt : Mysqlbeat) values columns queryType rowAge st i col :
  Forall (fun c => strings.HasSuffix c (DeltaWildcard (config bt)) = false)
         columns ->
  (i < length columns)%nat ->
  st.1 = bt /\ Fields st.2 <> None ->
  match
    generateEventFromRow_column values columns queryType rowAge st i col
  with
  | Next st' => st'.1 = bt /\ Fields st'.2 <> None
  | Return _ => False
  | Crash _ => False
  end.
Proof.
  destruct st as [bt0 event]. cbn [fst snd]. intros Hno Hi [-> Hf].
  unfold generateEventFromRow_column.
  destruct (columns !! i) as [name|] eqn:Hc.
  2:{ apply lookup_ge_None in Hc. lia. }
  rewrite (proj1 (Forall_lookup _ _) Hno i name Hc), andb_false_r.
  destruct (_ && _); [auto|].
  destruct (typeColumn (string_of_raw col)) as [[ty n] f].
  destruct (Fields event) as [m|] eqn:Hm; [clear Hf|congruence].
  destruct (addAsIs_next (R := Mysqlbeat * (option Event * error))
              event m (eventColumnName bt name) ty (string_of_raw col) n f
              Hm) as (m' & ->).
  simpl. auto.
Qed.

Lemma plain_row (bt : Mysqlbeat) (row : Rows) (columns : list string)
    (queryType : string) (rowAge : Time) :
  Forall (fun c => strings.HasSuffix c (DeltaWildcard (config bt)) = false)
         columns ->
  exists event err,
    generateEventFromRow bt row columns queryType rowAge =
      Ok (bt, (event, err)) /\
    (event = None -> err <> None).
Proof.
  intros Hno. unfold generateEventFromRow. cbn [generateEmptyEvent].
  destruct (sql.Scan row (length columns)) as [values|err] eqn:HS.
  2:{ eexists _, _. split; [reflexivity|discriminate]. }
  apply Scan_length in HS.
  pose proof (for_range_safe
                (fun st : Mysqlbeat * Event =>
                   st.1 = bt /\ Fields st.2 <> None)
                (fun _ : Mysqlbeat * (option Event * error) => False)
                (length columns) (fun _ => True)
                (generateEventFromRow_column values columns queryType rowAge)
                (fun st i a Hi _ Hs =>
                   plain_column bt values columns queryType rowAge st i a
                                Hno Hi Hs)
                values
                (bt, mkEvent rowAge (Some {[ "type" := IString queryType ]}))
                0%nat ltac:(simpl; lia) ltac:(apply Forall_true; auto)
                ltac:(simpl; split; [reflexivity|discriminate]))
    as Hinv.
  revert Hinv.
  destruct (for_range _ _ _ _) as [[bt' ev']| |p]; intros Hinv;
    [|contradiction|contradiction].
  destruct Hinv as [Hbt _]. simpl in Hbt. subst bt'.
  eexists _, _. split; [reflexivity|discriminate].
Qed.

(** X14. A query whose result has no delta column leaves the rate state
    as it is and does not panic, in single-row, multiple-rows and
    show-slave-delay mode. *)
Theorem result_without_delta_column_keeps_state (bt : Mysqlbeat)
    (now : Time) (db : DB) (i : nat) (queryType queryStr : string)
    (rows : Rows) :
  db_Query db queryStr = inl rows ->
  queryType <> queryTypeTwoColumns ->
  Forall (fun c => strings.HasSuffix c (DeltaWildcard (config bt)) = false)
         (rs_columns rows) ->
  exists events err,
    iterateQuery bt now db i queryType queryStr = Ok (bt, (events, err)).
Proof.
  intros HQ Hty Hno. unfold iterateQuery. rewrite HQ.
  destruct (sql.Columns rows) as [columns|err] eqn:HC; [|eauto].
  apply Columns_inl in HC as [_ ->].
  destruct (_ || _).
  - destruct (sql.Next rows) as [rows' more].
    destruct (plain_row bt rows' (rs_columns rows) queryType now Hno)
      as (ev & err & -> & _). eauto.
  - destruct (String.eqb queryType queryTypeMultipleRows).
    + match goal with
      | |- context [for_Next ?body ?s ?rs ?todo] =>
          assert (Hinv :
                    match for_Next body s rs todo with
                    | Next s' => s'.1 = bt
                    | Return r => r.1 = bt
                    | Crash _ => False
                    end);
          [apply (for_Next_safe (fun st => st.1 = bt) (fun r => r.1 = bt));
           [|reflexivity]
          |revert Hinv;
           destruct (for_Next body s rs todo) as [[bt' evs]|[bt' [evs err]]|p];
           intros Hinv]
      end.
      * intros [bt1 evs1] rs1 Hs; simpl in Hs; subst bt1.
        destruct (plain_row bt rs1 (rs_columns rows) queryType now Hno)
          as (ev & err & -> & He).
        destruct ev, err; simpl; auto.
      * simpl in Hinv. subst bt'. eauto.
      * simpl in Hinv. subst bt'. eauto.
      * contradiction.
    + destruct (String.eqb_spec queryType queryTypeTwoColumns); [contradiction|].
      eauto.
Qed.

(** *** The first row *)

(** X15. In single-row and show-slave-delay mode only the first row of
    the result is read: the rows after it change nothing. *)
Theorem single_row_reads_first_row_only (bt : Mysqlbeat) (now : Time)
    (db db' : DB) (i : nat) (queryType queryStr : string)
    (columns : list string) (row : list RawBytes)
    (rest : list (list RawBytes)) :
  queryType = queryTypeSingleRow \/ queryType = queryTypeSlaveDelay ->
  db_Query db queryStr = inl (sql.open columns (row :: rest)) ->
  db_Query db' queryStr = inl (sql.open columns [row]) ->
  iterateQuery bt now db i queryType queryStr =
  iterateQuery bt now db' i queryType queryStr.
Proof.
  intros Hty HQ HQ'. unfold iterateQuery. rewrite HQ, HQ'.
  cbn [sql.Columns sql.open rs_closed rs_columns].
  assert (Hm : String.eqb queryType queryTypeSingleRow
               || String.eqb queryType queryTypeSlaveDelay = true)
    by (destruct Hty as [-> | ->]; reflexivity).
  rewrite Hm. reflexivity.
Qed.

(** *** A column that is named as the type field *)

(** X16. A column whose name in the event is [type] takes the place of
    the query type; when it is the only column, the event is left with one
    field, is taken for an event without data and loses its fields. *)
Theorem column_named_type_empties_event (bt : Mysqlbeat) (now : Time)
    (db : DB) (i : nat) (queryStr name : string) (cell : RawBytes)
    (rest : list (list RawBytes)) :
  db_Query db queryStr = inl (sql.open [name] ([cell] :: rest)) ->
  strings.HasSuffix name (DeltaWildcard (config bt)) = false ->
  eventColumnName bt name = "type" ->
  iterateQuery bt now db i queryTypeSingleRow queryStr =
    Ok (bt, ([mkEvent now None], None)).
Proof.
  intros HQ Hno Hname. unfold iterateQuery. rewrite HQ.
  cbn [sql.Columns sql.open rs_closed rs_columns].
  change (String.eqb queryTypeSingleRow queryTypeSingleRow) with true.
  cbn [orb].
  change (sql.Next (sql.open [name] ([cell] :: rest)))
    with (mkRows [name] (Some [cell]) rest false, true).
  cbv iota beta. unfold generateEventFromRow. cbn [generateEmptyEvent].
  change (sql.Scan (mkRows [name] (Some [cell]) rest false) (length [name]))
    with (inl (B := string) [cell]).
  cbv iota beta. cbn [for_range].
  unfold generateEventFromRow_column. cbn [lookup list_lookup].
  change (String.eqb queryTypeSingleRow queryTypeSlaveDelay) with false.
  cbn [andb]. rewrite Hno, andb_false_r, Hname.
  destruct (typeColumn (string_of_raw cell)) as [[ty n] f].
  destruct (addAsIs_sets (R := Mysqlbeat * (option Event * error))
              (mkEvent now (Some {[ "type" := IString queryTypeSingleRow ]}))
              {[ "type" := IString queryTypeSingleRow ]} "type" ty
              (string_of_raw cell) n f eq_refl) as [->|(v & ->)];
    cbn [mbind ctl_bind]; unfold len_fields; cbn [Fields Timestamp].
  - match goal with
    | |- context [(?x =? 1)%nat] =>
        replace x with 1%nat by (symmetry; apply map_size_singleton)
    end.
    reflexivity.
  - match goal with
    | |- context [(?x =? 1)%nat] =>
        replace x with 1%nat
          by (symmetry; rewrite insert_singleton; apply map_size_singleton)
    end.
    reflexivity.
Qed.

End Frame.

(** *** A multiple-rows query and its key column *)

Section MissingKey.

Context {strconv_impl : Strconv} {arch_impl : Arch}.

Lemma plain_row_scanned (bt : Mysqlbeat) (row : Rows) (columns : list string)
    (cells : list RawBytes) (queryType : string) (rowAge : Time) :
  Forall (fun c => strings.HasSuffix c (DeltaWildcard (config bt)) = false)
         columns ->
  sql.Scan row (length columns) = inl cells ->
  exists event,
    generateEventFromRow bt row columns queryType rowAge =
      Ok (bt, (Some event, None)).
Proof.
  intros Hno HS. unfold generateEventFromRow. cbn [generateEmptyEvent].
  rewrite HS. apply Scan_length in HS.
  pose proof (for_range_safe
                (fun st : Mysqlbeat * Event =>
                   st.1 = bt /\ Fields st.2 <> None)
                (fun _ : Mysqlbeat * (option Event * error) => False)
                (length columns) (fun _ => True)
                (generateEventFromRow_column cells columns queryType rowAge)
                (fun st i a Hi _ Hs =>
                   plain_column bt cells columns queryType rowAge st i a
                                Hno Hi Hs)
                cells
                (bt, mkEvent rowAge (Some {[ "type" := IString queryType ]}))
                0%nat ltac:(simpl; lia) ltac:(apply Forall_true; auto)
                ltac:(simpl; split; [reflexivity|discriminate]))
    as Hinv.
  revert Hinv.
  destruct (for_range _ _ _ _) as [[bt' ev']| |p]; intros Hinv;
    [|contradiction|contradiction].
  destruct Hinv as [Hbt _]. simpl in Hbt. subst bt'.
  eexists. reflexivity.
Qed.

Lemma plain_rows_loop (bt : Mysqlbeat) (columns : list string) (now : Time) :
  Forall (fun c => strings.HasSuffix c (DeltaWildcard (config bt)) = false)
         columns ->
  forall todo rs events,
    rs_closed rs = false -> rs_pending rs = todo ->
    Forall (fun r => length r = length columns) todo ->
    exists events',
      for_Next
        (fun '(bt, events) rows =>
           match
             generateEventFromRow bt rows columns queryTypeMultipleRows now
           with
           | Panics p => Crash p
           | Ok (bt, (_, Some err)) =>
               Return (bt, (events, Some err))
           | Ok (bt, (Some event, None)) =>
               Next (bt, (events ++ [event])%list)
           | Ok (bt, (None, None)) => Next (bt, events)
           end)
        (bt, events) rs todo = Next (bt, events') /\
      length events' = (length events + length todo)%nat.
Proof.
  intros Hno. induction todo as [|r todo IH]; intros rs events Hc Hp Hlen;
    cbn [for_Next].
  - exists events. split; [reflexivity|simpl; lia].
  - apply Forall_cons in Hlen as [Hr Hlen].
    unfold sql.Next. rewrite Hc, Hp.
    destruct (plain_row_scanned bt
                (mkRows (rs_columns rs) (Some r) todo false) columns r
                queryTypeMultipleRows now Hno) as (e & ->).
    { unfold sql.Scan. cbn [rs_closed rs_lastcols]. rewrite Hr.
      now rewrite Nat.eqb_refl. }
    destruct (IH (mkRows (rs_columns rs) (Some r) todo false)
                 (events ++ [e])%list eq_refl eq_refl Hlen)
      as (events' & -> & Hl).
    exists events'. split; [reflexivity|].
    rewrite Hl, length_app. simpl. lia.
Qed.

Lemma iterateQuery_plain_rows (bt : Mysqlbeat) (now : Time) (db : DB)
    (i : nat) (queryStr : string) (columns : list string)
    (rows : list (list RawBytes)) :
  db_Query db queryStr = inl (sql.open columns rows) ->
  Forall (fun c => strings.HasSuffix c (DeltaWildcard (config bt)) = false)
         columns ->
  Forall (fun r => length r = length columns) rows ->
  exists events,
    iterateQuery bt now db i queryTypeMultipleRows queryStr =
      Ok (bt, (events, None)) /\
    length events = length rows.
Proof.
  intros HQ Hno Hlen. unfold iterateQuery. rewrite HQ.
  change (sql.Columns (sql.open columns rows))
    with (inl (B := string) columns).
  change (String.eqb queryTypeMultipleRows queryTypeSingleRow) with false.
  change (String.eqb queryTypeMultipleRows queryTypeSlaveDelay) with false.
  change (String.eqb queryTypeMultipleRows queryTypeMultipleRows) with true.
  cbv iota. cbn [orb].
  pose proof (plain_rows_loop bt columns now Hno
                (rs_pending (sql.open columns rows))
                (sql.open columns rows) [] eq_refl eq_refl Hlen) as Hloop.
  destruct (for_Next _ _ _ _) as [[bt1 evs]|[bt1 [evs err]]|p];
    destruct Hloop as (events & [= <- <-] & Hl).
  exists evs. split; [reflexivity|exact Hl].
Qed.

(** C3, as amended. When the result of a multiple-rows query has a row and
    none of its columns ends with the key marker: if a column ends with the
    delta marker, the query emits no event and returns the missing-key
    error, and the error ends the cycle: [beat] returns it, the events of
    the queries before it have been published, and the queries after it
    are not run; if no column ends with the delta marker, the query needs
    no key column: it returns one event for every row and no error, the
    events are published and the cycle goes on with the next query. *)
Theorem missing_key_column_aborts_cycle (bt bt1 : Mysqlbeat) (w : World)
    (db : DB) (before after : list Query) (q : Query)
    (published : list Event) (columns : list string)
    (row : list RawBytes) (rows : list (list RawBytes)) :
  sql_Open w "mysql"
    (Username (config bt) ++ ":" ++ Password (config bt) ++ "@tcp(" ++
     Hostname (config bt) ++ ":" ++ Port (config bt) ++ ")/") = inl db ->
  Queries (config bt) = (before ++ q :: after)%list ->
  for_range (beat_query w db) (bt, []) 0%nat before = Next (bt1, published) ->
  QType q = queryTypeMultipleRows ->
  db_Query db (SQL q) = inl (sql.open columns (row :: rows)) ->
  length row = length columns ->
  Forall (fun c => strings.HasSuffix c (DeltaKeyWildcard (config bt)) = false)
         columns ->
  (Exists (fun c => strings.HasSuffix c (DeltaWildcard (config bt)) = true)
          columns ->
   iterateQuery bt1 (time_Now w (length before)) db (length before)
                (QType q) (SQL q) = Ok (bt1, ([], Some missingKey)) /\
   beat bt w = Ok (bt1, published, Some missingKey)) /\
  (Forall (fun c => strings.HasSuffix c (DeltaWildcard (config bt)) = false)
          columns ->
   Forall (fun r => length r = length columns) rows ->
   exists events,
     iterateQuery bt1 (time_Now w (length before)) db (length before)
                  (QType q) (SQL q) = Ok (bt1, (events, None)) /\
     length events = S (length rows) /\
     for_range (beat_query w db) (bt, []) 0%nat (before ++ [q])%list =
       Next (bt1, (published ++ events)%list)).
Proof.
  intros Hopen Hqs Hbefore Hty Hq Hlen Hno.
  assert (Hcfg : config bt1 = config bt).
  { pose proof (for_range_invariant _ _ (beat_query w db)
                  (fun st i a Hs => beat_query_evolves bt w db st i a Hs)
                  before (bt, []) 0%nat (evolves_refl bt)) as Hinv.
    rewrite Hbefore in Hinv. apply Hinv. }
  rewrite <- Hcfg in Hno. split.
  - intros Hex. rewrite <- Hcfg in Hex.
    assert (Hit : iterateQuery bt1 (time_Now w (length before)) db
                    (length before) (QType q) (SQL q) =
                  Ok (bt1, ([], Some missingKey))).
    { rewrite Hty. eapply iterateQuery_missing_key; eauto. }
    split; [assumption|].
    unfold beat. rewrite Hopen, Hqs, for_range_app, Hbefore.
    cbn [for_range Nat.add]. unfold beat_query at 1. rewrite Hit. reflexivity.
  - intros Hplain Hrows. rewrite <- Hcfg in Hplain.
    destruct (iterateQuery_plain_rows bt1 (time_Now w (length before)) db
                (length before) (SQL q) columns (row :: rows) Hq Hplain)
      as (events & Hit & Hl).
    { constructor; assumption. }
    exists events. rewrite Hty. split; [exact Hit|]. split; [exact Hl|].
    rewrite for_range_app, Hbefore. cbn [for_range Nat.add].
    unfold beat_query. rewrite Hty, Hit. reflexivity.
Qed.

End MissingKey.

Lemma missing_key_column_aborts_cycle_witness :
  (exists bt1 first,
     beat (Sample.fresh [Sample.threads; Sample.hits; Sample.threads])
          (Sample.world (Sample.db Sample.answers) 0)
     = Ok (bt1, [first], Some missingKey)) /\
  (exists first events,
     let plain := mkQuery queryTypeMultipleRows "SELECT plain" in
     let bt := Sample.fresh [Sample.threads; plain; Sample.threads] in
     let w := Sample.world (Sample.db Sample.answers) 0 in
     iterateQuery bt (time_Now w 1) (Sample.db Sample.answers) 1
       queryTypeMultipleRows "SELECT plain" = Ok (bt, (events, None)) /\
     length events = 1%nat /\
     for_range (beat_query w (Sample.db Sample.answers)) (bt, []) 0%nat
       [Sample.threads; plain] = Next (bt, ([first] ++ events)%list)).
Proof.
  split.
  - eexists _, _.
    refine (proj2 (proj1 (missing_key_column_aborts_cycle
                     (Sample.fresh [Sample.threads; Sample.hits; Sample.threads])
                     _ (Sample.world (Sample.db Sample.answers) 0)
                     (Sample.db Sample.answers)
                     [Sample.threads] [Sample.threads] Sample.hits
                     _ ["name"; "hits_delta"] [Some "x"; Some "1"] []
                     _ _ _ _ _ _ _) _));
      try reflexivity.
    + repeat constructor.
    + right. left. reflexivity.
  - eexists.
    refine (proj2 (missing_key_column_aborts_cycle
                     (Sample.fresh
                        [Sample.threads;
                         mkQuery queryTypeMultipleRows "SELECT plain";
                         Sample.threads])
                     _ (Sample.world (Sample.db Sample.answers) 0)
                     (Sample.db Sample.answers)
                     [Sample.threads] [Sample.threads]
                     (mkQuery queryTypeMultipleRows "SELECT plain")
                     _ ["name"; "hits"] [Some "x"; Some "1"] []
                     _ _ _ _ _ _ _) _ _);
      try reflexivity.
    + repeat constructor.
    + repeat constructor.
    + constructor.
Defined.

Lemma result_without_delta_column_keeps_state_witness :
  exists events err,
    iterateQuery (Sample.tracked (IInt64 100)) 42
      (Sample.db Sample.answers) 0 queryTypeMultipleRows "SELECT plain"
    = Ok (Sample.tracked (IInt64 100), (events, err)).
Proof.
  refine (result_without_delta_column_keeps_state
            (Sample.tracked (IInt64 100)) 42 (Sample.db Sample.answers) 0
            queryTypeMultipleRows "SELECT plain"
            (sql.open ["name"; "hits"] [[Some "x"; Some "1"]])
            eq_refl _ _).
  - discriminate.
  - repeat constructor.
Defined.

Lemma single_row_reads_first_row_only_witness :
  iterateQuery (Sample.fresh []) 42
    (Sample.db [("SELECT threads",
                 (["Threads_running"], [[Some "5"]; [Some "6"]]))]) 0
    queryTypeSingleRow "SELECT threads"
  = iterateQuery (Sample.fresh []) 42
      (Sample.db [("SELECT threads", (["Threads_running"], [[Some "5"]]))]) 0
      queryTypeSingleRow "SELECT threads".
Proof.
  exact (single_row_reads_first_row_only (Sample.fresh []) 42
           (Sample.db [("SELECT threads",
                        (["Threads_running"], [[Some "5"]; [Some "6"]]))])
           (Sample.db [("SELECT threads",
                        (["Threads_running"], [[Some "5"]]))])
           0 queryTypeSingleRow "SELECT threads" ["Threads_running"]
           [Some "5"] [[Some "6"]] (or_introl eq_refl) eq_refl eq_refl).
Defined.

Lemma column_named_type_empties_event_witness :
  iterateQuery (Sample.fresh []) 42
    (Sample.db [("SELECT engine", (["type_key"], [[Some "InnoDB"]]))]) 0
    queryTypeSingleRow "SELECT engine"
  = Ok (Sample.fresh [], ([mkEvent 42 None], None)).
Proof.
  exact (column_named_type_empties_event (Sample.fresh []) 42
           (Sample.db [("SELECT engine", (["type_key"], [[Some "InnoDB"]]))])
           0 "SELECT engine" "type_key" (Some "InnoDB") []
           eq_refl eq_refl eq_refl).
Defined.

(** *** What every observation respects, a run respects *)

Section Preorder.

Context {strconv_impl : Strconv} {arch_impl : Arch}.

Variable rel : Mysqlbeat -> Mysqlbeat -> Prop.
Hypothesis rel_refl : forall bt, rel bt bt.
Hypothesis rel_trans : forall bt1 bt2 bt3, rel bt1 bt2 -> rel bt2 bt3 -> rel bt1 bt3.
Hypothesis rel_observe :
  forall R bt event strKey name ty s n f t,
    ctl_holds (fun st : Mysqlbeat * Event => rel bt st.1)
              (fun _ : R => False)
              (observe bt event strKey name ty s n f t).

Lemma column_rel bt0 values columns queryType rowAge st i col :
  rel bt0 st.1 ->
  ctl_holds (fun st' : Mysqlbeat * Event => rel bt0 st'.1)
            (fun r : Mysqlbeat * (option Event * error) => rel bt0 r.1)
            (generateEventFromRow_column values columns queryType rowAge
               st i col).
Proof.
  destruct st as [bt event]. simpl. intros Hev.
  unfold generateEventFromRow_column.
  destruct (columns !! i) as [name|]; [|exact I].
  destruct (_ && _); [assumption|].
  destruct (typeColumn (string_of_raw col)) as [[ty n] f].
  destruct (_ && _).
  - assert (Hobs : forall k,
      ctl_holds (fun st' : Mysqlbeat * Event => rel bt0 st'.1)
        (fun r : Mysqlbeat * (option Event * error) => rel bt0 r.1)
        (observe bt event k (eventColumnName bt name)
           ty (string_of_raw col) n f rowAge)).
    { intros k.
      pose proof (rel_observe (Mysqlbeat * (option Event * error))
                    bt event k (eventColumnName bt name)
                    ty (string_of_raw col) n f rowAge) as Ho.
      destruct (observe _ _ _ _ _ _ _ _ _) as [[bt' ev']| |]; simpl in *;
        eauto. contradiction. }
    destruct (String.eqb queryType queryTypeSingleRow); [apply Hobs|].
    destruct (String.eqb queryType queryTypeMultipleRows); [|apply Hobs].
    destruct (getKeyFromRow_cases bt values columns)
      as [(k & [e|] & ->)|(p & ->)]; simpl; auto.
  - unfold addAsIs, set_field.
    destruct (ty =? columnTypeString); [|destruct (ty =? columnTypeInt);
      [|destruct (ty =? columnTypeFloat)]];
      destruct (Fields event); simpl; auto.
Qed.

Lemma generateEventFromRow_rel bt row columns queryType rowAge :
  match generateEventFromRow bt row columns queryType rowAge with
  | Ok (bt', _) => rel bt bt'
  | Panics _ => True
  end.
Proof.
  unfold generateEventFromRow. cbn [generateEmptyEvent].
  destruct (sql.Scan row (length columns)) as [values|err]; [|apply rel_refl].
  pose proof (for_range_invariant
                (fun st' : Mysqlbeat * Event => rel bt st'.1)
                (fun r : Mysqlbeat * (option Event * error) => rel bt r.1)
                (generateEventFromRow_column values columns queryType rowAge)
                (fun st i a Hs => column_rel bt values columns queryType
                                    rowAge st i a Hs)
                values
                (bt, mkEvent rowAge (Some {[ "type" := IString queryType ]}))
                0%nat (rel_refl bt)) as Hinv.
  destruct (for_range _ _ _ _) as [[bt' ev']|[bt' r]|p]; simpl in *; auto.
Qed.

Lemma appendRowToEvent_rel bt event row columns rowAge :
  match appendRowToEvent bt event row columns rowAge with
  | Ok (bt', _, _) => rel bt bt'
  | Panics _ => True
  end.
Proof.
  unfold appendRowToEvent.
  destruct (sql.Scan row (length columns)) as [values|err]; [|apply rel_refl].
  destruct (values !! 0%nat) as [v0|]; [|exact I].
  destruct (values !! 1%nat) as [v1|]; [|exact I].
  destruct (typeColumn (string_of_raw v1)) as [[ty n] f].
  destruct (strings.HasSuffix _ _).
  - pose proof (rel_observe Empty_set bt event (string_of_raw v0)
                  (strings.Replace1 (string_of_raw v0)
                     (DeltaWildcard (config bt)) "_PERSECOND")
                  ty (string_of_raw v1) n f rowAge) as Ho.
    destruct (observe _ _ _ _ _ _ _ _ _) as [[bt' ev']|[]|]; simpl in *; auto.
  - unfold addAsIs, set_field.
    destruct (ty =? columnTypeString); [|destruct (ty =? columnTypeInt);
      [|destruct (ty =? columnTypeFloat)]];
      destruct (Fields event); simpl; auto.
Qed.

Lemma iterateQuery_rel bt now db i queryType queryStr :
  match iterateQuery bt now db i queryType queryStr with
  | Ok (bt', _) => rel bt bt'
  | Panics _ => True
  end.
Proof.
  unfold iterateQuery.
  destruct (db_Query db queryStr) as [rows|err]; [|apply rel_refl].
  destruct (sql.Columns rows) as [columns|err]; [|apply rel_refl].
  destruct (_ || _).
  - destruct (sql.Next rows) as [rows' more].
    pose proof (generateEventFromRow_rel bt rows' columns queryType now) as Hg.
    destruct (generateEventFromRow _ _ _ _ _) as [[bt' [ev err]]|]; auto.
  - destruct (String.eqb queryType queryTypeMultipleRows).
    + match goal with
      | |- match match for_Next ?body ?s ?rs ?todo with _ => _ end with _ => _ end =>
          assert (Hinv : ctl_holds
                    (fun st : Mysqlbeat * list Event => rel bt st.1)
                    (fun r : Mysqlbeat * (list Event * error) => rel bt r.1)
                    (for_Next body s rs todo));
          [apply for_Next_invariant; [|apply rel_refl]
          |revert Hinv;
           destruct (for_Next body s rs todo) as [[bt' evs]|[bt' r]|p];
           simpl; auto]
      end.
      intros [bt1 evs1] rs1 Hs; simpl in *.
      pose proof (generateEventFromRow_rel bt1 rs1 columns queryType now) as Hg.
      destruct (generateEventFromRow _ _ _ _ _) as [[bt2 [[ev|] [err|]]]|];
        simpl; eauto.
    + destruct (String.eqb queryType queryTypeTwoColumns);
        [|apply rel_refl].
      cbn [generateEmptyEvent].
      match goal with
      | |- match match for_Next ?body ?s ?rs ?todo with _ => _ end with _ => _ end =>
          assert (Hinv : ctl_holds
                    (fun st : Mysqlbeat * Event => rel bt st.1)
                    (fun r : Mysqlbeat * (list Event * error) => rel bt r.1)
                    (for_Next body s rs todo));
          [apply for_Next_invariant; [|apply rel_refl]
          |revert Hinv;
           destruct (for_Next body s rs todo) as [[bt' evs]|[bt' r]|p];
           simpl; auto]
      end.
      intros [bt1 ev1] rs1 Hs; simpl in *.
      pose proof (appendRowToEvent_rel bt1 ev1 rs1 columns now) as Hg.
      destruct (appendRowToEvent _ _ _ _ _) as [[[bt2 ev2] [err|]]|];
        simpl; eauto.
Qed.

Lemma beat_query_rel bt0 w db st i query :
  rel bt0 st.1 ->
  ctl_holds (fun st' : Mysqlbeat * list Event => rel bt0 st'.1)
            (fun r : Mysqlbeat * list Event * error => rel bt0 r.1.1)
            (beat_query w db st i query).
Proof.
  destruct st as [bt published]. simpl. intros Hev. unfold beat_query.
  pose proof (iterateQuery_rel bt (time_Now w i) db i (QType query)
                (SQL query)) as Hi.
  destruct (iterateQuery _ _ _ _ _ _) as [[bt' [evs [err|]]]|];
    simpl; eauto.
Qed.

Lemma beat_rel bt w :
  match beat bt w with
  | Ok (bt', _, _) => rel bt bt'
  | Panics _ => True
  end.
Proof.
  unfold beat. destruct (sql_Open w _ _) as [db|err]; [|apply rel_refl].
  pose proof (for_range_invariant _ _ (beat_query w db)
                (fun st i a Hs => beat_query_rel bt w db st i a Hs)
                (Queries (config bt)) (bt, []) 0%nat (rel_refl bt)) as Hinv.
  destruct (for_range _ _ _ _) as [[bt' pub]|[[bt' pub] err]|p];
    simpl in *; auto.
Qed.

Lemma Run_loop_rel ticks : forall bt published,
  match Run_loop bt published ticks with
  | Ok (bt', _, _) => rel bt bt'
  | Panics _ => True
  end.
Proof.
  induction ticks as [|w ticks IH]; intros bt published; simpl;
    [apply rel_refl|].
  pose proof (beat_rel bt w) as Hb.
  destruct (beat bt w) as [[[bt1 evs] [err|]]|]; auto.
  specialize (IH bt1 (published ++ evs)%list).
  destruct (Run_loop _ _ _) as [[[bt2 pub] err]|]; eauto.
Qed.

Lemma Run_rel bt connect ticks :
  match Run bt connect ticks with
  | Ok (bt', _, _) => rel bt bt'
  | Panics _ => True
  end.
Proof.
  unfold Run. destruct connect; [apply rel_refl|].
  destruct (Period (config bt) <=? 0); [exact I|apply Run_loop_rel].
Qed.

End Preorder.

Section Runs.

Context {strconv_impl : Strconv} {arch_impl : Arch}.

Lemma Run_loop_app before : forall bt published after,
  Run_loop bt published (before ++ after)%list =
    match Run_loop bt published before with
    | Ok (bt1, published1, None) => Run_loop bt1 published1 after
    | r => r
    end.
Proof.
  induction before as [|w before IH]; intros bt published after; simpl;
    [reflexivity|].
  destruct (beat bt w) as [[[bt1 evs] [err|]]|]; auto.
Qed.

(** X17. [Run] ends at the first cycle that returns an error, with that
    error: the events of the cycles before it and of the failing cycle have
    been published, and the ticks after it start no cycle. *)
Theorem Run_stops_at_first_error (bt bt1 bt2 : Mysqlbeat)
    (before after : list World) (w : World) (published events : list Event)
    (err : string) :
  Run bt None before = Ok (bt1, published, None) ->
  beat bt1 w = Ok (bt2, events, Some err) ->
  Run bt None (before ++ w :: after)%list =
    Ok (bt2, (published ++ events)%list, Some err).
Proof.
  unfold Run. destruct (Period (config bt) <=? 0); [discriminate|].
  intros Hb Hw. rewrite Run_loop_app, Hb. simpl. now rewrite Hw.
Qed.

(** X18. A series that has a saved value keeps one through every run: no
    cycle removes a key of the rate state. *)
Theorem Run_never_forgets_a_series (bt bt' : Mysqlbeat) (connect : error)
    (ticks : list World) (published : list Event) (err : error) (k : string) :
  Run bt connect ticks = Ok (bt', published, err) ->
  is_Some (oldValues bt !! k) ->
  is_Some (oldValues bt' !! k).
Proof.
  intros HR.
  pose proof (Run_rel
                (fun b b' => is_Some (oldValues b !! k) ->
                             is_Some (oldValues b' !! k))
                (fun _ H => H) (fun _ _ _ H1 H2 H => H2 (H1 H))) as H.
  specialize (fun Ho => H Ho bt connect ticks). rewrite HR in H. apply H.
  clear. intros R bt event strKey name ty s n f t. unfold observe.
  assert (Hi : forall b v, is_Some (oldValues b !! k) ->
                 is_Some (oldValues (set_oldValues b strKey v) !! k)).
  { intros b v Hb. simpl. destruct (decide (strKey = k)) as [->|Hne].
    - rewrite lookup_insert_eq. eauto.
    - now rewrite lookup_insert_ne. }
  destruct (oldValues bt !! strKey) as [old|] eqn:Hold.
  - destruct (oldValuesAge bt !! strKey) as [[| | |t0]|]; simpl; auto.
    destruct (ty =? columnTypeInt); [|destruct (ty =? columnTypeFloat)];
      unfold set_field; destruct (Fields event); simpl; auto;
      intros Hb; destruct (decide (strKey = k)) as [->|Hne];
      rewrite ?lookup_insert_eq, ?lookup_insert_ne by assumption; eauto.
  - destruct (ty =? columnTypeString); [|destruct (ty =? columnTypeInt);
      [|destruct (ty =? columnTypeFloat)]]; simpl; auto;
      intros Hb; destruct (decide (strKey = k)) as [->|Hne];
      rewrite ?lookup_insert_eq, ?lookup_insert_ne by assumption; eauto.
Qed.

End Runs.

Lemma Run_stops_at_first_error_witness :
  Run (Sample.fresh [Sample.threads]) None
      [Sample.world (Sample.db Sample.answers) 0;
       Sample.unreachable;
       Sample.world (Sample.db Sample.answers) 20000000000]
  = Ok (Sample.fresh [Sample.threads],
        [mkEvent 0
           (Some (<["Threads_running" := IInt64 5]>
                    {[ "type" := IString queryTypeSingleRow ]}))],
        Some "dial tcp 127.0.0.1:3306: connection refused").
Proof.
  refine (Run_stops_at_first_error
            (Sample.fresh [Sample.threads]) (Sample.fresh [Sample.threads])
            (Sample.fresh [Sample.threads])
            [Sample.world (Sample.db Sample.answers) 0]
            [Sample.world (Sample.db Sample.answers) 20000000000]
            Sample.unreachable
            [mkEvent 0
               (Some (<["Threads_running" := IInt64 5]>
                        {[ "type" := IString queryTypeSingleRow ]}))]
            [] "dial tcp 127.0.0.1:3306: connection refused" _ _);
    vm_compute; reflexivity.
Defined.

Lemma Run_never_forgets_a_series_witness :
  exists bt' published err,
    Run (mkMysqlbeat (Sample.cfg [Sample.threads])
           {[ "Queries_delta" := IInt64 100 ]}
           {[ "Queries_delta" := ITime 0 ]})
        None [Sample.world (Sample.db Sample.answers) 5000000000]
    = Ok (bt', published, err) /\
    is_Some (oldValues bt' !! "Queries_delta").
Proof.
  destruct (Run (mkMysqlbeat (Sample.cfg [Sample.threads])
                   {[ "Queries_delta" := IInt64 100 ]}
                   {[ "Queries_delta" := ITime 0 ]})
                None [Sample.world (Sample.db Sample.answers) 5000000000])
    as [[[bt' published] err]|] eqn:HR;
    [|vm_compute in HR; discriminate HR].
  exists bt', published, err. split; [reflexivity|].
  refine (Run_never_forgets_a_series _ _ _ _ _ _ "Queries_delta" HR _).
  exists (IInt64 100). reflexivity.
Defined.

(** *** Empty markers *)

Lemma substring_none n s : substring n 0 s = "".
Proof.
  revert n. induction s as [|c s IH]; intros [|n]; simpl; auto.
Qed.

Lemma substring_all s : substring 0 (String.length s) s = s.
Proof. induction s as [|c s IH]; simpl; [reflexivity|]. now rewrite IH. Qed.

Lemma HasSuffix_empty s : strings.HasSuffix s "" = true.
Proof.
  unfold strings.HasSuffix. simpl. now rewrite substring_none.
Qed.

Lemma Replace1_empty s new :
  new <> "" -> strings.Replace1 s "" new = new ++ s.
Proof.
  intros Hnew. unfold strings.Replace1.
  destruct (String.eqb_spec "" new) as [E|_]; [now elim Hnew|].
  assert (HI : strings.Index s "" = Some 0%nat) by (destruct s; reflexivity).
  rewrite HI. cbn [Nat.add String.length].
  rewrite Nat.sub_0_r, substring_all, substring_none. reflexivity.
Qed.

Section Markers.

Context {strconv_impl : Strconv} {arch_impl : Arch}.

(** X19. With an empty delta marker, as in [DefaultConfig], every column
    is a delta column: in single-row mode every cell goes to the rate state,
    its name in the event being the column name without the key marker or
    with [_PERSECOND] in front, and in two-columns mode every row does. *)
Theorem empty_delta_marker_tracks_every_column (bt : Mysqlbeat)
    (event : Event) (rowAge : Time) :
  DeltaWildcard (config bt) = "" ->
  (forall values columns i col name,
     columns !! i = Some name ->
     generateEventFromRow_column values columns queryTypeSingleRow rowAge
       (bt, event) i col =
     observeCell bt event name
       (if strings.HasSuffix name (DeltaKeyWildcard (config bt))
        then strings.Replace1 name (DeltaKeyWildcard (config bt)) ""
        else "_PERSECOND" ++ name)
       (string_of_raw col) rowAge) /\
  (forall row columns name value cells,
     sql.Scan row (length columns) = inl (name :: value :: cells) ->
     appendRowToEvent bt event row columns rowAge =
       match
         observeCell (R := Empty_set) bt event (string_of_raw name)
           ("_PERSECOND" ++ string_of_raw name) (string_of_raw value) rowAge
       with
       | Next (bt', event') => Ok (bt', event', None)
       | Return r => match r with end
       | Crash p => Panics p
       end).
Proof.
  intros HD. split.
  - intros values columns i col name Hc.
    rewrite (single_row_delta_column bt event values columns i col name
               rowAge Hc) by (rewrite HD; apply HasSuffix_empty).
    f_equal. unfold eventColumnName.
    destruct (strings.HasSuffix name (DeltaKeyWildcard (config bt)));
      [reflexivity|].
    rewrite HD, HasSuffix_empty. now apply Replace1_empty.
  - intros row columns name value cells HS.
    rewrite (two_columns_delta_row bt event row columns name value cells
               rowAge HS) by (rewrite HD; apply HasSuffix_empty).
    rewrite HD, Replace1_empty by discriminate. reflexivity.
Qed.

(** *** A float series *)

(** X20. The rate of a float series: with a saved float [v] and a larger
    current float [v2], the field is the float quotient of [v2 - v] by the
    elapsed seconds, not rounded, and the state becomes [(v2, t1)]. *)
Theorem observe_float_rate {R} (bt : Mysqlbeat) (event : Event) (m : MapStr)
    (strKey name s : string) (t0 t1 : Time) (v v2 : float64) (n : Z)
    (e : string) :
  Fields event = Some m ->
  oldValues bt !! strKey = Some (IFloat64 v) ->
  oldValuesAge bt !! strKey = Some (ITime t0) ->
  ParseInt s 0 64 = (n, Some e) ->
  ParseFloat s 64 = (v2, None) ->
  F64.gt v2 v = true ->
  observeCell (R := R) bt event strKey name s t1 =
    Next (mkMysqlbeat (config bt)
            (<[strKey := IFloat64 v2]> (oldValues bt))
            (<[strKey := ITime t1]> (oldValuesAge bt)),
          mkEvent (Timestamp event)
            (Some (<[name :=
                      IFloat64 (F64.div (F64.sub v2 v)
                                  (time.Seconds (time.Sub t1 t0)))]> m))).
Proof.
  intros Hm Hold Hage HI HF Hgt. unfold observeCell.
  rewrite (typeColumn_float s n e v2 HI HF). unfold observe.
  rewrite Hold, Hage.
  change (columnTypeFloat =? columnTypeInt) with false.
  change (columnTypeFloat =? columnTypeFloat) with true.
  cbv iota. rewrite Hgt. unfold set_field. rewrite Hm. reflexivity.
Qed.

(** *** A run from [New] *)

(** X21. In every state that [Run] reaches from the state of [New], the
    configuration is the one that was read and every saved value has its
    observation time. *)
Theorem Run_from_New_keeps_rate_state {unicode_impl : Unicode}
    (cfg : commonConfig) (bt bt' : Mysqlbeat) (e : error) (connect : error)
    (ticks : list World) (published : list Event) (err : error) :
  New cfg = Ok (Some bt, e) ->
  Run bt connect ticks = Ok (bt', published, err) ->
  Unpack cfg DefaultConfig = inl (config bt') /\ rate_state_wf bt'.
Proof.
  intros HN HR.
  pose proof (Run_rel evolves evolves_refl evolves_trans
                (fun R => observe_evolves (R := R)) bt connect ticks) as H.
  rewrite HR in H. destruct H as [Hc Hwf]. rewrite Hc.
  rewrite New_closed_form in HN.
  destruct (Unpack cfg DefaultConfig) as [c|]; [|discriminate].
  destruct (Queries c); [discriminate|].
  destruct (List.find _ _); [discriminate|].
  destruct (existsb _ _); [discriminate|].
  injection HN as <- <-. split; [reflexivity|].
  apply Hwf. intros k [x Hk]. simpl in Hk. rewrite lookup_empty in Hk.
  discriminate.
Qed.

End Markers.

Lemma empty_delta_marker_tracks_every_column_witness :
  let bt := mkMysqlbeat DefaultConfig ∅ ∅ in
  let event := Sample.blank queryTypeSingleRow 42 in
  (forall values columns i col name,
     columns !! i = Some name ->
     generateEventFromRow_column values columns queryTypeSingleRow 42
       (bt, event) i col =
     observeCell bt event name
       (if strings.HasSuffix name (DeltaKeyWildcard (config bt))
        then strings.Replace1 name (DeltaKeyWildcard (config bt)) ""
        else "_PERSECOND" ++ name)
       (string_of_raw col) 42) /\
  (forall row columns name value cells,
     sql.Scan row (length columns) = inl (name :: value :: cells) ->
     appendRowToEvent bt event row columns 42 =
       match
         observeCell (R := Empty_set) bt event (string_of_raw name)
           ("_PERSECOND" ++ string_of_raw name) (string_of_raw value) 42
       with
       | Next (bt', event') => Ok (bt', event', None)
       | Return r => match r with end
       | Crash p => Panics p
       end).
Proof.
  intros bt event.
  exact (empty_delta_marker_tracks_every_column bt event 42 eq_refl).
Defined.

Lemma observe_float_rate_witness :
  observeCell (R := Empty_set)
    (Sample.tracked (IFloat64 (S754_finite false 6755399441055744 (-52))))
    (Sample.blank queryTypeSingleRow 2000000000)
    "Queries_delta" "Queries_PERSECOND" "4.5" 2000000000
  = Next (mkMysqlbeat (Sample.cfg [])
            (<["Queries_delta" :=
                 IFloat64 (S754_finite false 5066549580791808 (-50))]>
               {[ "Queries_delta" :=
                    IFloat64 (S754_finite false 6755399441055744 (-52)) ]})
            (<["Queries_delta" := ITime 2000000000]>
               {[ "Queries_delta" := ITime 0 ]}),
          mkEvent 2000000000
            (Some (<["Queries_PERSECOND" :=
                      IFloat64 (S754_finite false 6755399441055744 (-52))]>
                     {[ "type" := IString queryTypeSingleRow ]}))).
Proof.
  refine (observe_float_rate (R := Empty_set)
            (Sample.tracked
               (IFloat64 (S754_finite false 6755399441055744 (-52))))
            (Sample.blank queryTypeSingleRow 2000000000)
            {[ "type" := IString queryTypeSingleRow ]}
            "Queries_delta" "Queries_PERSECOND" "4.5" 0 2000000000
            (S754_finite false 6755399441055744 (-52))
            (S754_finite false 5066549580791808 (-50))
            0 "invalid syntax" _ _ _ _ _ _);
    vm_compute; reflexivity.
Defined.

Lemma Run_from_New_keeps_rate_state_witness :
  exists bt bt' published err,
    New (Sample.file [Sample.status]) = Ok (Some bt, None) /\
    Run bt None
        [Sample.world (Sample.db (Sample.status_answers "100")) 0;
         Sample.world (Sample.db (Sample.status_answers "150")) 10000000000]
    = Ok (bt', published, err) /\
    Unpack (Sample.file [Sample.status]) DefaultConfig = inl (config bt') /\
    rate_state_wf bt'.
Proof.
  destruct (New (Sample.file [Sample.status])) as [[[bt|] [e|]]|] eqn:HN;
    try (vm_compute in HN; discriminate HN).
  destruct (Run bt None
              [Sample.world (Sample.db (Sample.status_answers "100")) 0;
               Sample.world (Sample.db (Sample.status_answers "150"))
                 10000000000])
    as [[[bt' published] err]|] eqn:HR.
  - exists bt, bt', published, err. split; [reflexivity|].
    split; [exact HR|].
    exact (Run_from_New_keeps_rate_state _ _ _ _ _ _ _ _ HN HR).
  - exfalso. vm_compute in HN. injection HN as <-.
    vm_compute in HR. discriminate HR.
Defined.

Section TwoCycles.

Context {strconv_impl : Strconv} {arch_impl : Arch}.

Lemma single_row_one_delta_column (bt bt' : Mysqlbeat) (now : Time) (db : DB)
    (i : nat) (queryStr name : string) (cell : RawBytes) (event' : Event)
    (rest : list (list RawBytes)) :
  db_Query db queryStr = inl (sql.open [name] ([cell] :: rest)) ->
  strings.HasSuffix name (DeltaWildcard (config bt)) = true ->
  observeCell (R := Mysqlbeat * (option Event * error)) bt
    (mkEvent now (Some {[ "type" := IString queryTypeSingleRow ]}))
    name (eventColumnName bt name) (string_of_raw cell) now =
    Next (bt', event') ->
  iterateQuery bt now db i queryTypeSingleRow queryStr =
    Ok (bt',
        ([if (len_fields event' =? 1)%nat
          then mkEvent (Timestamp event') None else event'], None)).
Proof.
  intros HQ Hd Hobs. unfold iterateQuery. rewrite HQ.
  cbn [sql.Columns sql.open rs_closed rs_columns].
  change (String.eqb queryTypeSingleRow queryTypeSingleRow) with true.
  cbn [orb].
  change (sql.Next (sql.open [name] ([cell] :: rest)))
    with (mkRows [name] (Some [cell]) rest false, true).
  cbv iota beta. unfold generateEventFromRow. cbn [generateEmptyEvent].
  change (sql.Scan (mkRows [name] (Some [cell]) rest false) (length [name]))
    with (inl (B := string) [cell]).
  cbv iota beta. cbn [for_range].
  rewrite (single_row_delta_column bt _ [cell] [name] 0 cell name now
             eq_refl Hd), Hobs.
  reflexivity.
Qed.

(** X22. A single-row query with one delta column over two cycles of
    [Run], with a period above zero: the first cycle publishes an event without fields and saves the
    value, the second publishes the rate per second, rounded, and the state
    holds the second value and time. *)
Theorem Run_two_cycles_give_the_rate (bt : Mysqlbeat) (w0 w1 : World)
    (db0 db1 : DB) (q : Query) (name : string) (cell0 cell1 : RawBytes)
    (rest0 rest1 : list (list RawBytes)) (v v2 : Z) :
  let connString :=
    Username (config bt) ++ ":" ++ Password (config bt) ++ "@tcp(" ++
    Hostname (config bt) ++ ":" ++ Port (config bt) ++ ")/" in
  let t0 := time_Now w0 0 in
  let t1 := time_Now w1 0 in
  0 < Period (config bt) ->
  Queries (config bt) = [q] ->
  QType q = queryTypeSingleRow ->
  sql_Open w0 "mysql" connString = inl db0 ->
  sql_Open w1 "mysql" connString = inl db1 ->
  db_Query db0 (SQL q) = inl (sql.open [name] ([cell0] :: rest0)) ->
  db_Query db1 (SQL q) = inl (sql.open [name] ([cell1] :: rest1)) ->
  strings.HasSuffix name (DeltaWildcard (config bt)) = true ->
  eventColumnName bt name <> "type" ->
  oldValues bt !! name = None ->
  ParseInt (string_of_raw cell0) 0 64 = (v, None) ->
  ParseInt (string_of_raw cell1) 0 64 = (v2, None) ->
  v < v2 ->
  Run bt None [w0; w1] =
    Ok (mkMysqlbeat (config bt)
          (<[name := IInt64 v2]> (<[name := IInt64 v]> (oldValues bt)))
          (<[name := ITime t1]> (<[name := ITime t0]> (oldValuesAge bt))),
        [ mkEvent t0 None;
          mkEvent t1
            (Some (<[eventColumnName bt name :=
                      IInt64 (roundF2I
                                (F64.div (F64.of_Z (sub64 v2 v))
                                         (time.Seconds (time.Sub t1 t0)))
                                F64.half)]>
                     {[ "type" := IString queryTypeSingleRow ]})) ],
        None).
Proof.
  intros connString t0 t1 HP HQs Hty HO0 HO1 HQ0 HQ1 Hd Hname Hold HP0 HP1
         Hlt.
  set (bt1 := mkMysqlbeat (config bt)
                (<[name := IInt64 v]> (oldValues bt))
                (<[name := ITime t0]> (oldValuesAge bt))).
  assert (H0 : beat bt w0 = Ok (bt1, [mkEvent t0 None], None)).
  { unfold beat. fold connString. rewrite HO0, HQs. cbn [for_range].
    unfold beat_query. rewrite Hty.
    rewrite (single_row_one_delta_column bt bt1 (time_Now w0 0) db0 0
               (SQL q) name cell0
               (mkEvent t0 (Some {[ "type" := IString queryTypeSingleRow ]}))
               rest0 HQ0 Hd).
    - unfold len_fields. cbn [Fields Timestamp].
      replace (size ({[ "type" := IString queryTypeSingleRow ]} : MapStr))
        with 1%nat by (symmetry; apply map_size_singleton).
      reflexivity.
    - unfold observeCell.
      rewrite (typeColumn_int _ v HP0). unfold observe. rewrite Hold.
      reflexivity. }
  assert (H1 : beat bt1 w1 =
    Ok (mkMysqlbeat (config bt)
          (<[name := IInt64 v2]> (<[name := IInt64 v]> (oldValues bt)))
          (<[name := ITime t1]> (<[name := ITime t0]> (oldValuesAge bt))),
        [ mkEvent t1
            (Some (<[eventColumnName bt name :=
                      IInt64 (roundF2I
                                (F64.div (F64.of_Z (sub64 v2 v))
                                         (time.Seconds (time.Sub t1 t0)))
                                F64.half)]>
                     {[ "type" := IString queryTypeSingleRow ]})) ],
        None)).
  { unfold beat. change (config bt1) with (config bt). fold connString.
    rewrite HO1, HQs. cbn [for_range]. unfold beat_query. rewrite Hty.
    erewrite (single_row_one_delta_column bt1 _ (time_Now w1 0) db1 0
               (SQL q) name cell1 _ rest1 HQ1 Hd).
    2:{ unfold observeCell.
        rewrite (typeColumn_int _ v2 HP1). unfold observe.
        change (oldValues bt1 !! name)
          with ((<[name := IInt64 v]> (oldValues bt)) !! name).
        change (oldValuesAge bt1 !! name)
          with ((<[name := ITime t0]> (oldValuesAge bt)) !! name).
        rewrite !lookup_insert_eq.
        change (columnTypeInt =? columnTypeInt) with true. cbv iota.
        replace (v <? v2) with true by (symmetry; apply Z.ltb_lt; lia).
        unfold set_field. cbn [Fields Timestamp mbind ctl_bind].
        reflexivity. }
    unfold len_fields. cbn [Fields Timestamp].
    change (eventColumnName bt1 name) with (eventColumnName bt name).
    match goal with
    | |- context [(?x =? 1)%nat] =>
        replace x with 2%nat
    end.
    2:{ symmetry. rewrite map_size_insert_None.
        - now rewrite map_size_singleton.
        - apply lookup_singleton_None. congruence. }
    reflexivity. }
  unfold Run.
  replace (Period (config bt) <=? 0) with false
    by (symmetry; apply Z.leb_gt; exact HP).
  cbn [Run_loop]. rewrite H0. cbn [app]. rewrite H1. reflexivity.
Qed.

End TwoCycles.

Lemma Run_two_cycles_give_the_rate_witness :
  Run (Sample.fresh [Sample.counter]) None
      [Sample.world (Sample.db (Sample.counter_answers "100")) 0;
       Sample.world (Sample.db (Sample.counter_answers "150")) 10000000000]
  = Ok (mkMysqlbeat (Sample.cfg [Sample.counter])
          (<["Queries_delta" := IInt64 150]>
             (<["Queries_delta" := IInt64 100]> ∅))
          (<["Queries_delta" := ITime 10000000000]>
             (<["Queries_delta" := ITime 0]> ∅)),
        [ mkEvent 0 None;
          mkEvent 10000000000
            (Some (<["Queries_PERSECOND" := IInt64 5]>
                     {[ "type" := IString queryTypeSingleRow ]})) ],
        None).
Proof.
  refine (Run_two_cycles_give_the_rate (Sample.fresh [Sample.counter])
            (Sample.world (Sample.db (Sample.counter_answers "100")) 0)
            (Sample.world (Sample.db (Sample.counter_answers "150"))
               10000000000)
            (Sample.db (Sample.counter_answers "100"))
            (Sample.db (Sample.counter_answers "150"))
            Sample.counter "Queries_delta" (Some "100") (Some "150") [] []
            100 150 _ _ _ _ _ _ _ _ _ _ _ _ _);
    try reflexivity; try discriminate; try lia.
Defined.

(** *** The error of [roundF2I] *)

(** X23. The error of [roundF2I] with [roundOn = .5], for a finite float
    whose floor and ceiling are in [int64]: the result of a value that is not
    negative is within one half of it; the result of a negative value is
    its floor, below it by less than one. *)
Theorem roundF2I_error_bound `{Arch} (f : float64) :
  valid_binary F64.prec F64.emax f = true ->
  F64.is_finite f = true ->
  min_int64 <= Qfloor (F64.to_Q f) ->
  Qceiling (F64.to_Q f) <= max_int64 ->
  let r := inject_Z (roundF2I f F64.half) in
  ((0 <= F64.to_Q f)%Q ->
   (F64.to_Q f - (1 # 2) < r)%Q /\ (r <= F64.to_Q f + (1 # 2))%Q) /\
  ((F64.to_Q f < 0)%Q ->
   (F64.to_Q f - 1 < r)%Q /\ (r <= F64.to_Q f)%Q).
Proof.
  intros Hv Hf Hlo Hhi r. subst r.
  pose proof (Qfloor_le (F64.to_Q f)) as Hfl.
  pose proof (Qlt_floor (F64.to_Q f)) as Hfl'.
  pose proof (Qle_ceiling (F64.to_Q f)) as Hce.
  pose proof (Qceiling_lt (F64.to_Q f)) as Hce'.
  rewrite inject_Z_plus in Hfl'.
  unfold Z.sub in Hce'. rewrite inject_Z_plus, inject_Z_opp in Hce'.
  change (inject_Z 1) with 1%Q in *.
  split; intros Hs.
  - rewrite (roundF2I_nonneg f Hv Hf Hlo Hhi Hs).
    destruct (Qle_bool _ _) eqn:E.
    + apply Qle_bool_iff in E. split; [lra|].
      assert (Hcf : (inject_Z (Qceiling (F64.to_Q f)) <=
                     inject_Z (Qfloor (F64.to_Q f)) + 1)%Q).
      { rewrite <- (inject_Z_plus _ 1). rewrite <- Zle_Qle.
        assert (Qceiling (F64.to_Q f) - 1 < Qfloor (F64.to_Q f) + 1);
          [|lia].
        unfold Z.sub. rewrite Zlt_Qlt, !inject_Z_plus, inject_Z_opp.
        change (inject_Z 1) with 1%Q. lra. }
      lra.
    + assert (E' : ~ (1 # 2 <= F64.to_Q f - inject_Z (Qfloor (F64.to_Q f)))%Q).
      { intros C. apply Qle_bool_iff in C. congruence. }
      split; lra.
  - rewrite (roundF2I_negative f Hv Hf Hlo Hhi Hs). split; lra.
Qed.

Lemma roundF2I_error_bound_witness :
  let f := S754_finite false 5629499534213120 (-51) in
  let r := inject_Z (roundF2I f F64.half) in
  ((0 <= F64.to_Q f)%Q ->
   (F64.to_Q f - (1 # 2) < r)%Q /\ (r <= F64.to_Q f + (1 # 2))%Q) /\
  ((F64.to_Q f < 0)%Q ->
   (F64.to_Q f - 1 < r)%Q /\ (r <= F64.to_Q f)%Q).
Proof.
  intros f.
  refine (roundF2I_error_bound f _ _ _ _);
    [reflexivity | reflexivity | vm_compute; discriminate
    | vm_compute; discriminate].
Defined.

(** *** The period *)

(** X24. [New] does not look at the period: a configuration that is
    accepted but for a period that is not positive gives a beater, and
    [Run] of that beater, once connected, panics in [time.NewTicker] before
    its first cycle, whatever ticks would follow. *)
Theorem Run_panics_without_positive_period {unicode_impl : Unicode}
    {strconv_impl : Strconv} {arch_impl : Arch}
    (cfg : commonConfig) (c : Config) (ticks : list World) :
  Unpack cfg DefaultConfig = inl c ->
  Period c <= 0 ->
  Queries c <> [] ->
  Forall (fun q => knownType q = true /\ unsafeQuery q = false) (Queries c) ->
  New cfg = Ok (Some (mkMysqlbeat c ∅ ∅), None) /\
  Run (mkMysqlbeat c ∅ ∅) None ticks = Panics NonPositiveInterval.
Proof.
  intros HU HP HQ Hall. split.
  - apply New_beater_iff. exists c. auto.
  - unfold Run. cbn [config].
    replace (Period c <=? 0) with true by (symmetry; apply Z.leb_le; exact HP).
    reflexivity.
Qed.

Lemma Run_panics_without_positive_period_witness :
  let c := mkConfig 0 "127.0.0.1" "3306" "root" "" "" [Sample.threads]
                    "_delta" "_key" in
  New (mkCommonConfig (fun _ => inl c)) = Ok (Some (mkMysqlbeat c ∅ ∅), None) /\
  Run (mkMysqlbeat c ∅ ∅) None
      [Sample.world (Sample.db Sample.answers) 0]
  = Panics NonPositiveInterval.
Proof.
  intros c.
  refine (Run_panics_without_positive_period
            (mkCommonConfig (fun _ => inl c)) c
            [Sample.world (Sample.db Sample.answers) 0] _ _ _ _).
  - reflexivity.
  - vm_compute. discriminate.
  - discriminate.
  - repeat constructor.
Defined.
